(** * water-time: the hydration tracker page

    A shallow embedding of the [HomePage] component (the SVG page of the
    repository, whose timer, reminder and tip code the 3D page repeats word
    for word) and of the colour expression of [HumanModel3D.tsx].

    - JavaScript numbers are IEEE 754 binary64 values: Rocq's primitive
      [float], with the arithmetic of the kernel and the specification of
      [Stdlib.Floats].
    - The component's [useState] variables, its [useRef] cell and the parts
      of the browser it talks to (timers, the notification permission, the
      DOM nodes it writes) form one [World]; every handler is a function
      [World -> World], in the order in which the source performs its calls.
    - A callback created by [useCallback] is a closure over the values of the
      render that created it; the closure an interval runs is stored with the
      interval. After a handler, [commit] re-runs the effects whose
      dependencies changed, as React does.
    - Time is not modelled: any live interval and any pending timeout may fire
      next. State updater functions and effects run once per update, as in a
      production build of React.
    - The browser may lack the Notification API. An exception that leaves a
      state updater or a render is caught by nothing in the page: React
      unmounts the page, and [mounted] records that. *)

From Stdlib Require Import Floats ZArith List Lia Bool String Ascii DecimalString.
Import ListNotations.

Local Open Scope string_scope.
Local Open Scope float_scope.
Set Warnings "-register-all".

(** * JavaScript values *)

(** The number nearest to the integer [z]. *)
Definition of_Z (z : Z) : float :=
  SF2Prim (binary_normalize prec emax z 0 false).

(** [Object.is] on numbers, the comparison React uses for state and for
    effect dependencies: [NaN] equals itself, [+0] differs from [-0]. *)
Definition sameValue (x y : float) : bool := PrimFloat.Leibniz.eqb x y.

(** *** The order of binary64 numbers

    [SFcompare] orders the numbers that are not NaN as a lexicographic order
    on (class and sign, exponent, mantissa); [SFrank] is that key. *)
Definition SFrank (x : spec_float) : Z * Z * Z :=
  match x with
  | S754_infinity true => (-2, 0, 0)
  | S754_finite true m e => (-1, - e, - Zpos m)
  | S754_zero _ | S754_nan => (0, 0, 0)
  | S754_finite false m e => (1, e, Zpos m)
  | S754_infinity false => (2, 0, 0)
  end%Z.

Definition SFis_nan (x : spec_float) : bool :=
  match x with S754_nan => true | _ => false end.

Definition lex_lt (p q : Z * Z * Z) : Prop :=
  let '(a, b, c) := p in
  let '(a', b', c') := q in
  (a < a' \/ (a = a' /\ (b < b' \/ (b = b' /\ c < c'))))%Z.

Definition lex_le (p q : Z * Z * Z) : Prop :=
  let '(a, b, c) := p in
  let '(a', b', c') := q in
  (a < a' \/ (a = a' /\ (b < b' \/ (b = b' /\ c <= c'))))%Z.

(** The values that [JSON.parse] produces, and [undefined], which reading a
    missing property produces. *)
Inductive value : Type :=
  | undefined
  | null
  | VBool (b : bool)
  | VNumber (n : float)
  | VString (s : string)
  | VArray (elements : list value)
  | VObject (properties : list (string * value)).

(** A completion is normal or abrupt (a thrown [TypeError] or [Error]). *)
Inductive completion (A : Type) : Type :=
  | Normal (a : A)
  | Throw.
Arguments Normal {A} a.
Arguments Throw {A}.

Definition bind {A B : Type} (c : completion A) (k : A -> completion B)
  : completion B :=
  match c with
  | Normal a => k a
  | Throw => Throw
  end.

Notation "x <- c ;; k" := (bind c (fun x => k))
  (at level 61, c at next level, right associativity).

(** ** [parseInt] (no radix argument)

    Leading white space is skipped, then an optional sign and an optional
    [0x] prefix are read, then the longest run of digits; without a digit the
    result is [NaN]. Strings are sequences of bytes here, so white space is
    the ASCII white space. *)

Definition isWhiteSpace (c : ascii) : bool :=
  let n := nat_of_ascii c in
  ((9 <=? n) && (n <=? 13) || (n =? 32))%nat.

Fixpoint trimStart (s : string) : string :=
  match s with
  | String c r => if isWhiteSpace c then trimStart r else s
  | EmptyString => s
  end.

Definition digitValue (c : ascii) : option Z :=
  let n := Z.of_nat (nat_of_ascii c) in
  if ((48 <=? n) && (n <=? 57))%Z then Some (n - 48)%Z
  else if ((97 <=? n) && (n <=? 122))%Z then Some (n - 87)%Z
  else if ((65 <=? n) && (n <=? 90))%Z then Some (n - 55)%Z
  else None.

(** The value of the longest prefix of [s] made of digits of radix [R];
    [acc] is the value read so far, [None] when no digit was read. *)
Fixpoint parseDigits (R : Z) (s : string) (acc : option Z) : option Z :=
  match s with
  | String c r =>
      match digitValue c with
      | Some d =>
          if (d <? R)%Z
          then parseDigits R r
                 (Some (match acc with Some a => a * R + d | None => d end)%Z)
          else acc
      | None => acc
      end
  | EmptyString => acc
  end.

Definition parseInt (input : string) : float :=
  let s := trimStart input in
  let '(negative, s) :=
    match s with
    | String "-" r => (true, r)
    | String "+" r => (false, r)
    | _ => (false, s)
    end in
  let '(R, s) :=
    match s with
    | String "0" (String "x" r) | String "0" (String "X" r) => (16%Z, r)
    | _ => (10%Z, s)
    end in
  match parseDigits R s None with
  | None => nan
  | Some n =>
      SF2Prim (binary_normalize prec emax (if negative then - n else n)%Z 0
                 negative)
  end.

(** ** Property access and truthiness *)

(** The value of property [k]: of several entries with the same key the
    last one counts, as in [JSON.parse]. *)
Definition lookup (k : string) (props : list (string * value)) : value :=
  fold_left (fun found kv => if String.eqb k (fst kv) then snd kv else found)
    props undefined.

(** [v.length]; reading a property of [undefined] or [null] throws. *)
Definition getLength (v : value) : completion value :=
  match v with
  | undefined | null => Throw
  | VString s => Normal (VNumber (of_Z (Z.of_nat (String.length s))))
  | VArray l => Normal (VNumber (of_Z (Z.of_nat (List.length l))))
  | VObject props => Normal (lookup "length" props)
  | VBool _ | VNumber _ => Normal undefined
  end.

(** [v.name] for the names the page reads ([candidates], [content],
    [parts], [text]), none of which a string, array, number or boolean has. *)
Definition getProp (v : value) (name : string) : completion value :=
  match v with
  | undefined | null => Throw
  | VObject props => Normal (lookup name props)
  | _ => Normal undefined
  end.

(** [v[0]] *)
Definition getFirst (v : value) : completion value :=
  match v with
  | undefined | null => Throw
  | VArray l => Normal (nth 0 l undefined)
  | VString s =>
      Normal (match s with
              | String c _ => VString (String c EmptyString)
              | EmptyString => undefined
              end)
  | VObject props => Normal (lookup "0" props)
  | VBool _ | VNumber _ => Normal undefined
  end.

Definition truthy (v : value) : bool :=
  match v with
  | undefined | null => false
  | VBool b => b
  | VNumber n => negb (n =? 0) && negb (is_nan n)
  | VString s => negb (String.eqb s "")
  | VArray _ | VObject _ => true
  end.

(** * The page *)

(** ** State, references and browser *)

Record ReminderSettings : Type := {
  browser : bool;
  sound : bool;
  visual : bool
}.

Record MessageBox : Type := {
  message : string;
  visible : bool
}.

(** [Notification.permission] *)
Inductive NotificationPermission : Type := default | granted | denied.

(** The three checkboxes that carry [handleReminderChange]. *)
Inductive ReminderInput : Type :=
  reminderBrowser | reminderSound | reminderVisual.

(** What [decrementWaterLevel] closes over: [timerDuration] directly and
    [reminderSettings] through [triggerReminder]. *)
Record Closure : Type := {
  cl_timerDuration : float;
  cl_reminderSettings : ReminderSettings
}.

(** A live recurring task: its handle and the callback it runs. *)
Record Interval : Type := {
  handle : positive;
  callback : Closure
}.

(** The callbacks the page hands to [setTimeout]. *)
Inductive Timeout : Type :=
  | HideMessage (delay : Z)
  | RemoveFlash (delay : Z).

(** Calls into the browser, recorded in the order they are made. *)
Inductive Call : Type :=
  | SetInterval (h : positive)
  | ClearInterval (h : positive)
  | NewNotification (title : string)
  | AudioPlay
  | RequestPermission
  | Fetch
  | ConsoleLog
  | ConsoleError.

(** The seven [useState] variables. [settingsObject] is the identity of the
    object held in [reminderSettings]: every [setReminderSettings] call of
    the page stores a freshly built object. *)
Record State : Type := {
  currentWaterLevel : float;
  timerDuration : float;
  selectedBodyType : string;
  reminderSettings : ReminderSettings;
  settingsObject : positive;
  hydrationTip : value;
  isLoadingTip : bool;
  messageBox : MessageBox
}.

Record Browser : Type := {
  notification : option NotificationPermission;
                                         (* window.Notification, if any *)
  permissionRequests : nat;              (* requests awaiting an answer *)
  fetches : nat;                         (* requests awaiting a response *)
  intervals : list Interval;
  timeouts : list Timeout;
  nextTimerId : positive;
  waterFillBackground : string;          (* #water-fill backgroundColor *)
  bodyContainerFlash : bool;             (* pulse classes on the container *)
  calls : list Call;
  plays : nat                            (* play() promises not yet settled *)
}.

(** ["Notification" in window] *)
Definition notificationInWindow (b : Browser) : bool :=
  match notification b with
  | Some _ => true
  | None => false
  end.

(** The permission the page has to notify: [Notification.permission], and
    [denied] in a browser without the API, where nothing can be shown and
    nothing can be asked for. *)
Definition permission (b : Browser) : NotificationPermission :=
  match notification b with
  | Some p => p
  | None => denied
  end.

(** [mounted] is false once React has unmounted the page, which it does
    when an exception leaves a state updater or a render. *)
Record World : Type := {
  state : State;
  hydrationIntervalRef : option positive;
  page : Browser;
  mounted : bool
}.

(** *** State setters *)

Definition withState (f : State -> State) (w : World) : World :=
  {| state := f (state w);
     hydrationIntervalRef := hydrationIntervalRef w;
     page := page w;
     mounted := mounted w |}.

Definition withPage (f : Browser -> Browser) (w : World) : World :=
  {| state := state w;
     hydrationIntervalRef := hydrationIntervalRef w;
     page := f (page w);
     mounted := mounted w |}.

Definition setRef (r : option positive) (w : World) : World :=
  {| state := state w;
     hydrationIntervalRef := r;
     page := page w;
     mounted := mounted w |}.

Definition setMounted (m : bool) (w : World) : World :=
  {| state := state w;
     hydrationIntervalRef := hydrationIntervalRef w;
     page := page w;
     mounted := m |}.

Definition setCurrentWaterLevel (level : float) : World -> World :=
  withState (fun s =>
    {| currentWaterLevel := level;
       timerDuration := timerDuration s;
       selectedBodyType := selectedBodyType s;
       reminderSettings := reminderSettings s;
       settingsObject := settingsObject s;
       hydrationTip := hydrationTip s;
       isLoadingTip := isLoadingTip s;
       messageBox := messageBox s |}).

Definition setTimerDuration (d : float) : World -> World :=
  withState (fun s =>
    {| currentWaterLevel := currentWaterLevel s;
       timerDuration := d;
       selectedBodyType := selectedBodyType s;
       reminderSettings := reminderSettings s;
       settingsObject := settingsObject s;
       hydrationTip := hydrationTip s;
       isLoadingTip := isLoadingTip s;
       messageBox := messageBox s |}).

Definition setSelectedBodyType (b : string) : World -> World :=
  withState (fun s =>
    {| currentWaterLevel := currentWaterLevel s;
       timerDuration := timerDuration s;
       selectedBodyType := b;
       reminderSettings := reminderSettings s;
       settingsObject := settingsObject s;
       hydrationTip := hydrationTip s;
       isLoadingTip := isLoadingTip s;
       messageBox := messageBox s |}).

(** Stores a new settings object. *)
Definition setReminderSettings (r : ReminderSettings) : World -> World :=
  withState (fun s =>
    {| currentWaterLevel := currentWaterLevel s;
       timerDuration := timerDuration s;
       selectedBodyType := selectedBodyType s;
       reminderSettings := r;
       settingsObject := Pos.succ (settingsObject s);
       hydrationTip := hydrationTip s;
       isLoadingTip := isLoadingTip s;
       messageBox := messageBox s |}).

Definition setHydrationTip (t : value) : World -> World :=
  withState (fun s =>
    {| currentWaterLevel := currentWaterLevel s;
       timerDuration := timerDuration s;
       selectedBodyType := selectedBodyType s;
       reminderSettings := reminderSettings s;
       settingsObject := settingsObject s;
       hydrationTip := t;
       isLoadingTip := isLoadingTip s;
       messageBox := messageBox s |}).

Definition setIsLoadingTip (b : bool) : World -> World :=
  withState (fun s =>
    {| currentWaterLevel := currentWaterLevel s;
       timerDuration := timerDuration s;
       selectedBodyType := selectedBodyType s;
       reminderSettings := reminderSettings s;
       settingsObject := settingsObject s;
       hydrationTip := hydrationTip s;
       isLoadingTip := b;
       messageBox := messageBox s |}).

Definition setMessageBox (m : MessageBox) : World -> World :=
  withState (fun s =>
    {| currentWaterLevel := currentWaterLevel s;
       timerDuration := timerDuration s;
       selectedBodyType := selectedBodyType s;
       reminderSettings := reminderSettings s;
       settingsObject := settingsObject s;
       hydrationTip := hydrationTip s;
       isLoadingTip := isLoadingTip s;
       messageBox := m |}).

(** *** Browser operations *)

Definition record (c : Call) : World -> World :=
  withPage (fun b =>
    {| notification := notification b;
       permissionRequests := permissionRequests b;
       fetches := fetches b;
       intervals := intervals b;
       timeouts := timeouts b;
       nextTimerId := nextTimerId b;
       waterFillBackground := waterFillBackground b;
       bodyContainerFlash := bodyContainerFlash b;
       calls := calls b ++ [c];
       plays := plays b |}).

Definition setIntervals (l : list Interval) : World -> World :=
  withPage (fun b =>
    {| notification := notification b;
       permissionRequests := permissionRequests b;
       fetches := fetches b;
       intervals := l;
       timeouts := timeouts b;
       nextTimerId := nextTimerId b;
       waterFillBackground := waterFillBackground b;
       bodyContainerFlash := bodyContainerFlash b;
       calls := calls b;
       plays := plays b |}).

Definition setTimeouts (l : list Timeout) : World -> World :=
  withPage (fun b =>
    {| notification := notification b;
       permissionRequests := permissionRequests b;
       fetches := fetches b;
       intervals := intervals b;
       timeouts := l;
       nextTimerId := nextTimerId b;
       waterFillBackground := waterFillBackground b;
       bodyContainerFlash := bodyContainerFlash b;
       calls := calls b;
       plays := plays b |}).

Definition setNextTimerId (n : positive) : World -> World :=
  withPage (fun b =>
    {| notification := notification b;
       permissionRequests := permissionRequests b;
       fetches := fetches b;
       intervals := intervals b;
       timeouts := timeouts b;
       nextTimerId := n;
       waterFillBackground := waterFillBackground b;
       bodyContainerFlash := bodyContainerFlash b;
       calls := calls b;
       plays := plays b |}).

Definition setPermission (p : NotificationPermission) : World -> World :=
  withPage (fun b =>
    {| notification := Some p;
       permissionRequests := permissionRequests b;
       fetches := fetches b;
       intervals := intervals b;
       timeouts := timeouts b;
       nextTimerId := nextTimerId b;
       waterFillBackground := waterFillBackground b;
       bodyContainerFlash := bodyContainerFlash b;
       calls := calls b;
       plays := plays b |}).

Definition setPermissionRequests (n : nat) : World -> World :=
  withPage (fun b =>
    {| notification := notification b;
       permissionRequests := n;
       fetches := fetches b;
       intervals := intervals b;
       timeouts := timeouts b;
       nextTimerId := nextTimerId b;
       waterFillBackground := waterFillBackground b;
       bodyContainerFlash := bodyContainerFlash b;
       calls := calls b;
       plays := plays b |}).

Definition setFetches (n : nat) : World -> World :=
  withPage (fun b =>
    {| notification := notification b;
       permissionRequests := permissionRequests b;
       fetches := n;
       intervals := intervals b;
       timeouts := timeouts b;
       nextTimerId := nextTimerId b;
       waterFillBackground := waterFillBackground b;
       bodyContainerFlash := bodyContainerFlash b;
       calls := calls b;
       plays := plays b |}).

Definition setWaterFillBackground (c : string) : World -> World :=
  withPage (fun b =>
    {| notification := notification b;
       permissionRequests := permissionRequests b;
       fetches := fetches b;
       intervals := intervals b;
       timeouts := timeouts b;
       nextTimerId := nextTimerId b;
       waterFillBackground := c;
       bodyContainerFlash := bodyContainerFlash b;
       calls := calls b;
       plays := plays b |}).

Definition setBodyContainerFlash (f : bool) : World -> World :=
  withPage (fun b =>
    {| notification := notification b;
       permissionRequests := permissionRequests b;
       fetches := fetches b;
       intervals := intervals b;
       timeouts := timeouts b;
       nextTimerId := nextTimerId b;
       waterFillBackground := waterFillBackground b;
       bodyContainerFlash := f;
       calls := calls b;
       plays := plays b |}).

Definition setPlays (n : nat) : World -> World :=
  withPage (fun b =>
    {| notification := notification b;
       permissionRequests := permissionRequests b;
       fetches := fetches b;
       intervals := intervals b;
       timeouts := timeouts b;
       nextTimerId := nextTimerId b;
       waterFillBackground := waterFillBackground b;
       bodyContainerFlash := bodyContainerFlash b;
       calls := calls b;
       plays := n |}).

(** *** Exceptions that nothing catches

    The page has one [try] block, in [getHydrationTip]. An exception thrown
    anywhere else leaves the state updater that is running: the statements
    that would have followed are not executed, and React unmounts the page.
    [throwUncaught] marks the world; [andThen f] runs [f] unless an exception
    is on its way. *)
Definition throwUncaught (w : World) : World := setMounted false w.

Definition andThen (f : World -> World) (w : World) : World :=
  if mounted w then f w else w.

(** *** Timers *)

Definition setTimeout (t : Timeout) (w : World) : World :=
  setNextTimerId (Pos.succ (nextTimerId (page w)))
    (setTimeouts (timeouts (page w) ++ [t]) w).

Definition setInterval (cb : Closure) (w : World) : positive * World :=
  let h := nextTimerId (page w) in
  (h, record (SetInterval h)
        (setNextTimerId (Pos.succ h)
           (setIntervals
              (intervals (page w) ++ [{| handle := h; callback := cb |}]) w))).

Definition clearInterval (h : positive) (w : World) : World :=
  record (ClearInterval h)
    (setIntervals
       (filter (fun i => negb (Pos.eqb (handle i) h)) (intervals (page w))) w).

(** ** The component's functions, in source order *)

Definition showMessage (msg : string) (duration : Z) (w : World) : World :=
  setTimeout (HideMessage duration)
    (setMessageBox {| message := msg; visible := true |} w).

(** The default value of [duration]. *)
Definition defaultDuration : Z := 3000.

Definition requestNotificationPermission (w : World) : World :=
  if negb (notificationInWindow (page w)) then
    showMessage "This browser does not support desktop notifications."
      defaultDuration w
  else
    match permission (page w) with
    | default =>
        record RequestPermission
          (setPermissionRequests (S (permissionRequests (page w))) w)
    | granted | denied => w
    end.

(** The [then] callback of [Notification.requestPermission()]. *)
Definition permissionCallback (answer : NotificationPermission) (w : World)
  : World :=
  match answer with
  | granted => showMessage "Browser notifications enabled!" defaultDuration w
  | default | denied =>
      let w :=
        showMessage
          "Browser notifications denied. Please enable them in your browser settings."
          defaultDuration w in
      let prev := reminderSettings (state w) in
      setReminderSettings
        {| browser := false; sound := sound prev; visual := visual prev |} w
  end.

(** [Notification.permission] is read without a test for the API: where
    the browser has none, the identifier [Notification] is not defined and
    reading it throws a [ReferenceError]. *)
Definition sendBrowserNotification (w : World) : World :=
  if negb (notificationInWindow (page w)) then throwUncaught w
  else
    match permission (page w) with
    | granted => record (NewNotification "Time to Drink Water!") w
    | default | denied => w
    end.

(** [reminderAudioRef.current] is set by the first effect and never reset;
    [play()] returns a promise, whose rejection [playRejected] handles. *)
Definition playReminderSound (w : World) : World :=
  record AudioPlay (setPlays (S (plays (page w))) w).

(** The [catch] callback of the promise of [play()]. *)
Definition playRejected (w : World) : World := record ConsoleError w.

Definition applyVisualFlash (w : World) : World :=
  setTimeout (RemoveFlash 2000) (setBodyContainerFlash true w).

Definition triggerReminder (settings : ReminderSettings) (w : World) : World :=
  let w := if browser settings then sendBrowserNotification w else w in
  let w := if sound settings then andThen playReminderSound w else w in
  if visual settings then andThen applyVisualFlash w else w.

(** The colour chosen by [updateWaterLevelVisual]. *)
Definition waterFillColor (currentWaterLevel : float) : string :=
  if currentWaterLevel <? 30 then "#ef4444"
  else if currentWaterLevel <? 60 then "#f97316"
  else "#60a5fa".

(** Of the three writes of [updateWaterLevelVisual] (height, status text,
    background colour) the colour is kept; nothing reads the other two. *)
Definition updateWaterLevelVisual (w : World) : World :=
  setWaterFillBackground (waterFillColor (currentWaterLevel (state w))) w.

(** The colour that the 3D page's [updateWaterLevelVisual] gives to
    [material.color.setHex]. *)
Definition materialHex (currentWaterLevel : float) : Z :=
  if currentWaterLevel <? 30 then 0xef4444
  else if currentWaterLevel <? 60 then 0xf97316
  else 0x60a5fa.

(** [HumanModel3D.tsx]: the [color] of the water mesh of [Model]. *)
Definition Model_color (waterLevel : float) : string :=
  if waterLevel <? 30 then "#ef4444"
  else if waterLevel <? 60 then "#f97316"
  else "#60a5fa".

Definition decrementWaterLevel (cl : Closure) (w : World) : World :=
  let waterDecreasePerSecond := 100 / (cl_timerDuration cl * 60) in
  let prevLevel := currentWaterLevel (state w) in
  let newLevel := prevLevel - waterDecreasePerSecond in
  if newLevel <=? 0 then
    let w :=
      match hydrationIntervalRef w with
      | Some h => setRef None (clearInterval h w)
      | None => w
      end in
    let w := triggerReminder (cl_reminderSettings cl) w in
    andThen
      (fun w =>
         let w := showMessage "Time to drink water!" 5000 w in
         setCurrentWaterLevel 0 w)
      w
  else setCurrentWaterLevel newLevel w.

Definition startHydrationTimer (cl : Closure) (w : World) : World :=
  let w :=
    match hydrationIntervalRef w with
    | Some h => clearInterval h w
    | None => w
    end in
  let '(h, w) := setInterval cl w in
  record ConsoleLog (setRef (Some h) w).

Definition resetHydration (cl : Closure) (w : World) : World :=
  let w := setCurrentWaterLevel 100 w in
  let w := startHydrationTimer cl w in
  showMessage "Hydration reset! Drink up!" 2000 w.

Definition handleTimerChange (value : string) (w : World) : World :=
  setTimerDuration (parseInt value) w.

(** The button classes and the outline path that [handleBodyTypeChange] and
    "Reset All" also write are nodes nothing else reads; they are left out. *)
Definition handleBodyTypeChange (bodyType : string) (w : World) : World :=
  setSelectedBodyType bodyType w.

Definition handleReminderChange (id : ReminderInput) (checked : bool)
  (w : World) : World :=
  let prev := reminderSettings (state w) in
  let newSettings :=
    match id with
    | reminderBrowser =>
        {| browser := checked; sound := sound prev; visual := visual prev |}
    | reminderSound =>
        {| browser := browser prev; sound := checked; visual := visual prev |}
    | reminderVisual =>
        {| browser := browser prev; sound := sound prev; visual := checked |}
    end in
  let w :=
    match id with
    | reminderBrowser => if checked then requestNotificationPermission w else w
    | reminderSound | reminderVisual => w
    end in
  setReminderSettings newSettings w.

(** The [onClick] of the "Reset All" button. *)
Definition resetAll (cl : Closure) (w : World) : World :=
  let w := setTimerDuration 60 w in
  let w :=
    setReminderSettings {| browser := false; sound := false; visual := false |}
      w in
  let w := setSelectedBodyType "generic" w in
  let w := setHydrationTip (VString "") w in
  let w := resetHydration cl w in
  showMessage "All settings reset!" 2000 w.

(** ** The tip fetcher *)

(** How the request of [getHydrationTip] ends: [fetch] rejects, or a
    response arrives; [body] is what [response.json()] resolves to, [None]
    when it rejects. *)
Inductive FetchOutcome : Type :=
  | NetworkError
  | Response (ok : bool) (body : option value).

Section Engine.

(** [ToNumber] on strings, arrays and objects (the engine's string-to-number
    grammar, after [ToPrimitive] for objects), needed only when a response
    carries a [length] property that is not a number. *)
Variable coerce : value -> float.

Definition ToNumber (v : value) : float :=
  match v with
  | undefined => nan
  | null => 0
  | VBool b => if b then 1 else 0
  | VNumber n => n
  | VString _ | VArray _ | VObject _ => coerce v
  end.

(** [v > 0] *)
Definition greaterThanZero (v : value) : bool := 0 <? ToNumber v.

(** The condition of the [if] in [getHydrationTip], evaluated left to right
    with the short circuit of [&&]. *)
Definition hasParts (result : value) : completion bool :=
  candidates <- getProp result "candidates" ;;
  if negb (truthy candidates) then Normal false else
  n <- getLength candidates ;;
  if negb (greaterThanZero n) then Normal false else
  first <- getFirst candidates ;;
  content <- getProp first "content" ;;
  if negb (truthy content) then Normal false else
  parts <- getProp content "parts" ;;
  if negb (truthy parts) then Normal false else
  n <- getLength parts ;;
  Normal (greaterThanZero n).

(** [result.candidates[0].content.parts[0].text] *)
Definition firstText (result : value) : completion value :=
  candidates <- getProp result "candidates" ;;
  first <- getFirst candidates ;;
  content <- getProp first "content" ;;
  parts <- getProp content "parts" ;;
  part <- getFirst parts ;;
  getProp part "text".

(** The statements before the first [await]. *)
Definition getHydrationTip (w : World) : World :=
  let w := setIsLoadingTip true w in
  let w := setHydrationTip (VString "") w in
  record Fetch (setFetches (S (fetches (page w))) w).

(** The [try] block from the response on. *)
Definition tryTip (o : FetchOutcome) (w : World) : completion World :=
  match o with
  | NetworkError => Throw
  | Response ok body =>
      if negb ok then Throw else
      match body with
      | None => Throw
      | Some result =>
          good <- hasParts result ;;
          if good then
            text <- firstText result ;;
            Normal (setHydrationTip text w)
          else
            Normal
              (record ConsoleError
                 (setHydrationTip
                    (VString "Could not fetch a tip. Please try again.") w))
      end
  end.

(** The rest of [getHydrationTip]: [try], [catch] and [finally]. *)
Definition getHydrationTip_resume (o : FetchOutcome) (w : World) : World :=
  let w :=
    match tryTip o w with
    | Normal w' => w'
    | Throw =>
        let w := record ConsoleError w in
        let w :=
          setHydrationTip
            (VString "Failed to get a tip. Network error or API issue.") w in
        showMessage "Failed to get a tip. Please check your connection." 3000 w
    end in
  setIsLoadingTip false w.

(** ** Rendering and effects *)

(** The callback that a render in state [s] builds for the interval. *)
Definition closureOf (s : State) : Closure :=
  {| cl_timerDuration := timerDuration s;
     cl_reminderSettings := reminderSettings s |}.

(** The dependencies [timerDuration, startHydrationTimer] of the timer
    effect: [startHydrationTimer] is rebuilt when [timerDuration] changes or
    when [reminderSettings] holds another object. *)
Definition timerDepsChanged (before after : State) : bool :=
  negb (sameValue (timerDuration before) (timerDuration after))
  || negb (Pos.eqb (settingsObject before) (settingsObject after)).

(** The cleanup function of the timer effect. *)
Definition timerCleanup (w : World) : World :=
  match hydrationIntervalRef w with
  | Some h => clearInterval h w
  | None => w
  end.

(** Unmounting the page runs the cleanup function of the timer effect, the
    only cleanup the SVG page registers. *)
Definition unmount (w : World) : World := setMounted false (timerCleanup w).

(** What React can render as a child of an element: text, numbers, the
    values it skips ([undefined], [null], booleans) and arrays of these. An
    object that [JSON.parse] built is none of them, and rendering it
    throws. *)
Fixpoint renderable (v : value) : bool :=
  match v with
  | VObject _ => false
  | VArray elements => forallb renderable elements
  | undefined | null | VBool _ | VNumber _ | VString _ => true
  end.

(** Whether two values are the same value: numbers and strings by content,
    as [Object.is] has it; a stored array or object is the same as
    itself. *)
Fixpoint sameTip (a b : value) : bool :=
  match a, b with
  | undefined, undefined | null, null => true
  | VBool x, VBool y => Bool.eqb x y
  | VNumber x, VNumber y => sameValue x y
  | VString x, VString y => String.eqb x y
  | VArray l, VArray m =>
      (fix all2 (l m : list value) : bool :=
         match l, m with
         | [], [] => true
         | x :: l', y :: m' => sameTip x y && all2 l' m'
         | _, _ => false
         end) l m
  | VObject p, VObject q =>
      (fix all2 (p q : list (string * value)) : bool :=
         match p, q with
         | [], [] => true
         | (j, x) :: p', (k, y) :: q' =>
             String.eqb j k && sameTip x y && all2 p' q'
         | _, _ => false
         end) p q
  | _, _ => false
  end.

(** The render after a handler throws when the paragraph
    [{hydrationTip && (<p>...{hydrationTip}...</p>)}] gets a tip it did not
    show before and which React cannot render. (Every value that is not
    [renderable] is truthy, so the paragraph is rendered for it; the other
    state variables are rendered as numbers and strings. A tip that did not
    change was rendered when it arrived: a mounted page holds no tip that
    cannot be rendered, which is proved below for every world the page can
    reach.) *)
Definition renderFails (before after : State) : bool :=
  negb (sameTip (hydrationTip before) (hydrationTip after))
  && negb (renderable (hydrationTip after)).

(** The effects after a render: React runs the cleanups of the effects whose
    dependencies changed, then these effects. *)
Definition commit (before : State) (w : World) : World :=
  let after := state w in
  let restart := timerDepsChanged before after in
  let w := if restart then timerCleanup w else w in
  let w :=
    if sameValue (currentWaterLevel before) (currentWaterLevel after)
    then w else updateWaterLevelVisual w in
  if restart then startHydrationTimer (closureOf after) w else w.

Definition initialState : State :=
  {| currentWaterLevel := 100;
     timerDuration := 60;
     selectedBodyType := "generic";
     reminderSettings :=
       {| browser := false; sound := false; visual := false |};
     settingsObject := 1;
     hydrationTip := VString "";
     isLoadingTip := false;
     messageBox := {| message := ""; visible := false |} |}.

(** The page before its first effects, in a browser with the Notification
    API at permission [p] ([Some p]) or without that API ([None]). *)
Definition load (n : option NotificationPermission) : World :=
  {| state := initialState;
     hydrationIntervalRef := None;
     page :=
       {| notification := n;
          permissionRequests := 0;
          fetches := 0;
          intervals := [];
          timeouts := [];
          nextTimerId := 1;
          waterFillBackground := "";
          bodyContainerFlash := false;
          calls := [];
          plays := 0 |};
     mounted := true |}.

(** The first render: every effect runs. *)
Definition start (n : option NotificationPermission) : World :=
  startHydrationTimer (closureOf initialState)
    (updateWaterLevelVisual (load n)).

(** The page in a browser that has the Notification API, at permission
    [p]. *)
Definition mount (p : NotificationPermission) : World := start (Some p).

(** ** Events *)

(** The values the range input can deliver:
    [min="30" max="240" step="15"]. *)
Definition hydrationTimer_min : Z := 30.
Definition hydrationTimer_max : Z := 240.
Definition hydrationTimer_step : Z := 15.

Definition sliderValues : list Z :=
  map (fun k => hydrationTimer_min + hydrationTimer_step * Z.of_nat k)%Z
    (seq 0
       (Z.to_nat ((hydrationTimer_max - hydrationTimer_min)
                    / hydrationTimer_step + 1))).

Definition decimal (z : Z) : string :=
  DecimalString.NilZero.string_of_int (Z.to_int z).

Definition bodyTypes : list string := ["generic"; "slim"; "muscular"].

Inductive Event : Type :=
  | IntervalFires (h : positive)
  | TimeoutFires (n : nat)
  | TimerChange (value : string)
  | BodyTypeClick (bodyType : string)
  | ReminderChange (id : ReminderInput) (checked : bool)
  | DrinkNow
  | ResetAll
  | GetTip
  | TipArrives (o : FetchOutcome)
  | PermissionAnswer (answer : NotificationPermission)
  | PlaySettles (rejected : bool).

Definition findInterval (h : positive) (w : World) : option Interval :=
  find (fun i => Pos.eqb (handle i) h) (intervals (page w)).

Fixpoint removeNth {A : Type} (n : nat) (l : list A) : list A :=
  match l, n with
  | [], _ => []
  | _ :: r, O => r
  | x :: r, S n' => x :: removeNth n' r
  end.

Definition runTimeout (t : Timeout) (w : World) : World :=
  match t with
  | HideMessage _ => setMessageBox {| message := ""; visible := false |} w
  | RemoveFlash _ => setBodyContainerFlash false w
  end.

(** Whether the browser can deliver the event in world [w]. *)
Definition enabled (ev : Event) (w : World) : bool :=
  match ev with
  | IntervalFires h =>
      match findInterval h w with Some _ => true | None => false end
  | TimeoutFires n => (n <? List.length (timeouts (page w)))%nat
  | TimerChange value => existsb (String.eqb value) (map decimal sliderValues)
  | BodyTypeClick b => existsb (String.eqb b) bodyTypes
  | ReminderChange _ _ | DrinkNow | ResetAll => true
  | GetTip => negb (isLoadingTip (state w))     (* disabled={isLoadingTip} *)
  | TipArrives _ => (0 <? fetches (page w))%nat
  | PermissionAnswer _ => (0 <? permissionRequests (page w))%nat
  | PlaySettles _ => (0 <? plays (page w))%nat
  end.

(** What the page's code does on the event, before React re-renders. *)
Definition dispatch (ev : Event) (w : World) : World :=
  match ev with
  | IntervalFires h =>
      match findInterval h w with
      | Some i => decrementWaterLevel (callback i) w
      | None => w
      end
  | TimeoutFires n =>
      match nth_error (timeouts (page w)) n with
      | Some t => runTimeout t (setTimeouts (removeNth n (timeouts (page w))) w)
      | None => w
      end
  | TimerChange value => handleTimerChange value w
  | BodyTypeClick b => handleBodyTypeChange b w
  | ReminderChange id checked => handleReminderChange id checked w
  | DrinkNow => resetHydration (closureOf (state w)) w
  | ResetAll => resetAll (closureOf (state w)) w
  | GetTip => getHydrationTip w
  | TipArrives o =>
      getHydrationTip_resume o (setFetches (pred (fetches (page w))) w)
  | PermissionAnswer answer =>
      permissionCallback answer
        (setPermission answer
           (setPermissionRequests (pred (permissionRequests (page w))) w))
  | PlaySettles rejected =>
      let w := setPlays (pred (plays (page w))) w in
      if rejected then playRejected w else w
  end.

(** What React does after the handler has left world [w1]: if an exception
    left a state updater, or the render of the new state throws, it unmounts
    the page; otherwise the effects run. Nothing is rendered for a page that
    was unmounted before. *)
Definition rerender (w w1 : World) : World :=
  if negb (mounted w) then w1
  else if negb (mounted w1) then unmount w1
  else if renderFails (state w) (state w1) then unmount w1
  else commit (state w) w1.

Definition step (ev : Event) (w : World) : World :=
  rerender w (dispatch ev w).

(** The worlds the page can be in while it is mounted. A step that ends with
    the page unmounted leads out of them; [step] gives the world that is
    left behind. *)
Inductive reachable : World -> Prop :=
  | reachable_start (n : option NotificationPermission) : reachable (start n)
  | reachable_step (ev : Event) (w : World) :
      reachable w -> enabled ev w = true -> mounted (step ev w) = true ->
      reachable (step ev w).

(** [n] firings of interval [h] with nothing in between. *)
Fixpoint ticks (h : positive) (n : nat) (w : World) : World :=
  match n with
  | O => w
  | S n' => step (IntervalFires h) (ticks h n' w)
  end.

End Engine.

(** The durations the slider can set. *)
Definition durations : list float := map of_Z sliderValues.

(** ** Running the clock down

    [ticksToEmpty fuel dec lvl k] runs the updater of [decrementWaterLevel]
    from level [lvl] with decrement [dec]: [k] plus the number of ticks up to
    and including the first whose result is [<= 0], provided that every
    earlier tick strictly lowers the level. *)
Fixpoint ticksToEmpty (fuel : nat) (dec lvl : float) (k : nat) : option nat :=
  match fuel with
  | O => None
  | S fuel' =>
      let newLevel := lvl - dec in
      if newLevel <=? 0 then Some (S k)
      else if newLevel <? lvl then ticksToEmpty fuel' dec newLevel (S k)
      else None
  end.

(** The level after [n] ticks none of which empties the body. *)
Fixpoint drained (dec lvl : float) (n : nat) : float :=
  match n with
  | O => lvl
  | S n' => drained dec (lvl - dec) n'
  end.

(** Duration [z] (minutes) empties a full body in [60 z] or [60 z + 1]
    ticks. *)
Definition emptiesOnTime (z : Z) : bool :=
  match ticksToEmpty (Z.to_nat (60 * z + 2)) (100 / (of_Z z * 60)) 100 0 with
  | Some n => (Z.of_nat n =? 60 * z)%Z || (Z.of_nat n =? 60 * z + 1)%Z
  | None => false
  end.

Definition minutes : list Z :=
  map (fun k => hydrationTimer_min + Z.of_nat k)%Z
    (seq 0 (Z.to_nat (hydrationTimer_max - hydrationTimer_min + 1))).

(** * Invariants of the page *)

(** The timer discipline: at most one recurring task is live; it is the one
    whose handle [hydrationIntervalRef] holds, it runs the callback [cl], and
    when none is live the reference is [null]. *)
Definition TimerOk (cl : Closure) (w : World) : Prop :=
  match intervals (page w) with
  | [] => hydrationIntervalRef w = None
  | [i] =>
      hydrationIntervalRef w = Some (handle i) /\ callback i = cl /\
      (handle i < nextTimerId (page w))%positive
  | _ :: _ :: _ => False
  end.

Record Inv (w : World) : Prop := {
  inv_level_lo : (0 <=? currentWaterLevel (state w)) = true;
  inv_level_hi : (currentWaterLevel (state w) <=? 100) = true;
  inv_duration : In (timerDuration (state w)) durations;
  inv_timer : TimerOk (closureOf (state w)) w;
  inv_color :
    waterFillBackground (page w)
    = waterFillColor (currentWaterLevel (state w))
}.

(** What holds between a handler and the effects that follow it: [w] is the
    world before the event, [w1] the world the handler leaves. *)
Record Mid (w w1 : World) : Prop := {
  mid_level_lo : (0 <=? currentWaterLevel (state w1)) = true;
  mid_level_hi : (currentWaterLevel (state w1) <=? 100) = true;
  mid_duration : In (timerDuration (state w1)) durations;
  mid_timer : TimerOk (closureOf (state w)) w1;
  mid_settings :
    settingsObject (state w1) = settingsObject (state w) ->
    reminderSettings (state w1) = reminderSettings (state w);
  mid_color : waterFillBackground (page w1) = waterFillBackground (page w)
}.

(** The browser calls and the timeouts that [triggerReminder] adds. *)
Definition reminderCalls (settings : ReminderSettings)
  (p : NotificationPermission) : list Call :=
  (if browser settings
   then match p with
        | granted => [NewNotification "Time to Drink Water!"]
        | default | denied => []
        end
   else [])
  ++ (if sound settings then [AudioPlay] else []).

Definition reminderTimeouts (settings : ReminderSettings) : list Timeout :=
  if visual settings then [RemoveFlash 2000] else [].

(** The conversion used in closed examples, none of which has a response
    with a [length] that is not a number. *)
Definition noCoercion : value -> float := fun _ => nan.

(** The call that cancels the task in the reference, if there is one. *)
Definition cancel (r : option positive) : list Call :=
  match r with
  | Some h => [ClearInterval h]
  | None => []
  end.

(** Delivers the events in order; [None] if the browser cannot deliver one
    of them or the page does not stay mounted. *)
Fixpoint deliver (coerce : value -> float) (evs : list Event) (w : World)
  : option World :=
  match evs with
  | [] => Some w
  | ev :: rest =>
      if enabled ev w && mounted (step coerce ev w)
      then deliver coerce rest (step coerce ev w)
      else None
  end.

(** A session in which the body runs empty and the duration is changed
    afterwards: the sound reminder is switched on, the slider is set to 30
    minutes, the interval fires 1800 times, and the slider is moved to 45. *)
Definition emptyThenRetimed : list Event :=
  ReminderChange reminderSound true
  :: TimerChange "30"
  :: (repeat (IntervalFires 3) 1800 ++ [TimerChange "45"])%list.

Definition retimedWorld : World :=
  match deliver noCoercion emptyThenRetimed (mount default) with
  | Some w => w
  | None => mount default
  end.

(** The same session up to the empty body: the world in which the last of
    the 1800 ticks has set the level to 0 and stopped the interval. *)
Definition emptiedWorld : World :=
  match
    deliver noCoercion
      (ReminderChange reminderSound true
       :: TimerChange "30" :: repeat (IntervalFires 3) 1800)
      (mount default)
  with
  | Some w => w
  | None => mount default
  end.

(** The events that start the interval when none is live: the two buttons,
    a duration other than the current one, any reminder checkbox (its
    handler stores a new settings object) and a permission request that is
    not granted (so does its callback). *)
Definition restarts (ev : Event) (w : World) : bool :=
  match ev with
  | DrinkNow | ResetAll | ReminderChange _ _ => true
  | TimerChange value =>
      negb (sameValue (timerDuration (state w)) (parseInt value))
  | PermissionAnswer answer =>
      match answer with granted => false | default | denied => true end
  | _ => false
  end.

(** *** A browser without the Notification API

    The user checks the browser reminder: the page says that notifications
    are not supported and leaves the box checked. *)
Definition unsupportedChecked : World :=
  step noCoercion (ReminderChange reminderBrowser true) (start None).

(** Then the slider is set to 30 minutes: the level is 100 and interval 4
    runs. *)
Definition unsupportedFull : World :=
  step noCoercion (TimerChange "30") unsupportedChecked.

(** The events of the next 1799 seconds: a tick every second, and after
    three seconds the timeout that hides the message. *)
Definition lastDropEvents : list Event :=
  (repeat (IntervalFires 4) 2 ++ TimeoutFires 0
     :: repeat (IntervalFires 4) 1797)%list.

(** 1799 ticks later one decrement is left. *)
Definition unsupportedLastDrop : World :=
  match deliver noCoercion lastDropEvents unsupportedFull with
  | Some w => w
  | None => unsupportedFull
  end.

(** In the same browser the body is emptied with all reminders off (1800
    ticks at 30 minutes), and the browser reminder is checked afterwards,
    which starts interval 5 at level 0. *)
Definition unsupportedEmpty : World :=
  match
    deliver noCoercion
      (TimerChange "30"
       :: (repeat (IntervalFires 2) 1800
             ++ [ReminderChange reminderBrowser true])%list)
      (start None)
  with
  | Some w => w
  | None => start None
  end.

(** *** Shapes of a response *)

(** The elements [l] form a JavaScript array: an array holds fewer than
    [2^32] elements. *)
Definition arrayLength (l : list value) : Prop :=
  (Z.of_nat (List.length l) < 2 ^ 32)%Z.

(** No list to take a first element from: the value is missing
    ([undefined]), [null] or another falsy value, or it is the empty
    array. *)
Definition lacksList (v : value) : Prop :=
  truthy v = false \/ v = VArray [].

(** The JSON has no tip to offer: there is no candidate, or the first
    candidate has no content, or its content has no part. *)
Definition tipless (result : value) : Prop :=
  (exists candidates,
     getProp result "candidates" = Normal candidates /\
     lacksList candidates)
  \/
  (exists first rest content,
     getProp result "candidates" = Normal (VArray (first :: rest)) /\
     arrayLength (first :: rest) /\
     getProp first "content" = Normal content /\
     (truthy content = false
      \/ exists parts,
           getProp content "parts" = Normal parts /\ lacksList parts)).

(** Reading the JSON throws a [TypeError]: it is [null], or its first
    candidate is [null], or the first part of that candidate is [null]. *)
Definition unreadable (result : value) : Prop :=
  result = null
  \/
  (exists rest,
     getProp result "candidates" = Normal (VArray (null :: rest)) /\
     arrayLength (null :: rest))
  \/
  (exists first rest content parts,
     getProp result "candidates" = Normal (VArray (first :: rest)) /\
     arrayLength (first :: rest) /\
     getProp first "content" = Normal content /\
     truthy content = true /\
     getProp content "parts" = Normal (VArray (null :: parts)) /\
     arrayLength (null :: parts)).

(** Two responses that are valid JSON but not of the expected shape
    [{candidates: [{content: {parts: [{text: ...}]}}]}]: one without any
    candidate, one whose first part has no [text]. *)
Definition noCandidates : value := VObject [("candidates", VArray [])].

Definition partWithoutText : value :=
  VObject
    [("candidates",
      VArray
        [VObject
           [("content", VObject [("parts", VArray [VObject []])])]])].

(** * More of the page *)

(** The tip part of a world at rest: one request under way and an empty tip
    while loading, no request otherwise. *)
Definition tipIdle (w : World) : Prop :=
  if isLoadingTip (state w)
  then fetches (page w) = 1%nat /\ hydrationTip (state w) = VString ""
  else fetches (page w) = 0%nat.

Definition isHideMessage (t : Timeout) : bool :=
  match t with HideMessage _ => true | RemoveFlash _ => false end.

Definition isRemoveFlash (t : Timeout) : bool :=
  match t with RemoveFlash _ => true | HideMessage _ => false end.

(** Whatever is shown has a timer pending that will take it away. *)
Definition dismissible (w : World) : Prop :=
  (visible (messageBox (state w)) = true ->
   existsb isHideMessage (timeouts (page w)) = true) /\
  (bodyContainerFlash (page w) = true ->
   existsb isRemoveFlash (timeouts (page w)) = true).

(** The events whose handlers write the water level, and those whose
    handlers write the duration. *)
Definition writesLevel (ev : Event) : bool :=
  match ev with
  | IntervalFires _ | DrinkNow | ResetAll => true
  | _ => false
  end.

Definition writesDuration (ev : Event) : bool :=
  match ev with
  | TimerChange _ | ResetAll => true
  | _ => false
  end.

(** ** Replaying the browser calls

    [replay live c] is the list of live recurring tasks after call [c], and
    [neverTwo live cs] holds when at most one task is live before, between
    and after the calls [cs]. *)
Definition replay (live : list positive) (c : Call) : list positive :=
  match c with
  | SetInterval h => (live ++ [h])%list
  | ClearInterval h => filter (fun x => negb (Pos.eqb x h)) live
  | _ => live
  end.

Fixpoint neverTwo (live : list positive) (cs : list Call) : bool :=
  (List.length live <=? 1)%nat
  && match cs with
     | [] => true
     | c :: rest => neverTwo (replay live c) rest
     end.

(** The calls made so far account for the tasks that are live, and never
    left two of them live at once. *)
Definition tidyTrace (w : World) : Prop :=
  fold_left replay (calls (page w)) [] = map handle (intervals (page w)) /\
  neverTwo [] (calls (page w)) = true.

(** ** Responses of the tip service *)

(** A response of the shape the service documents. *)
Definition geminiReply : value :=
  VObject
    [("candidates",
      VArray
        [VObject
           [("content",
             VObject
               [("parts", VArray [VObject [("text", VString "Sip often.")]]);
                ("role", VString "model")]);
            ("finishReason", VString "STOP")]])].

(** A response whose only candidate is [null]. *)
Definition nullCandidate : value := VObject [("candidates", VArray [null])].

(** A response of the documented shape whose [text] is an object. *)
Definition objectTip : value :=
  VObject
    [("candidates",
      VArray
        [VObject
           [("content",
             VObject
               [("parts",
                 VArray
                   [VObject
                      [("text", VObject [("tip", VString "Sip often.")])]]);
                ("role", VString "model")]);
            ("finishReason", VString "STOP")]])].

(** How alarming a fill colour is. *)
Definition severity (colour : string) : nat :=
  if String.eqb colour "#ef4444" then 2%nat
  else if String.eqb colour "#f97316" then 1%nat
  else 0%nat.

(** ** [HumanModel3D.tsx]: the geometry of [Model] *)

Set Warnings "-inexact-float".

(** The arguments of the body's [cylinderGeometry]. *)
Definition Model_bodyRadiusTop (bodyType : string) : float :=
  if String.eqb bodyType "slim" then 0.4
  else if String.eqb bodyType "muscular" then 0.8 else 0.6.

Definition Model_bodyRadiusBottom (bodyType : string) : float :=
  if String.eqb bodyType "slim" then 0.3
  else if String.eqb bodyType "muscular" then 0.7 else 0.5.

(** The arguments of the water indicator's [cylinderGeometry]. *)
Definition Model_waterRadiusTop (bodyType : string) : float :=
  if String.eqb bodyType "slim" then 0.41
  else if String.eqb bodyType "muscular" then 0.81 else 0.61.

Definition Model_waterRadiusBottom (bodyType : string) : float :=
  if String.eqb bodyType "slim" then 0.31
  else if String.eqb bodyType "muscular" then 0.71 else 0.51.

(** * Facts about binary64 arithmetic

    [Stdlib.Floats] specifies the primitive operations by functions on
    [spec_float] ([sub_spec], [leb_spec], [ltb_spec], ...). What the page
    needs beyond evaluation on constants is derived here from that
    specification: comparisons form a total order on the numbers that are
    not NaN, and subtracting a non-negative number from a finite non-negative
    one never yields more. *)

Module FloatFacts.

Local Open Scope Z_scope.

(** ** Binary digits *)

Lemma digits2_pos_size (p : positive) : digits2_pos p = Pos.size p.
Proof. induction p; simpl; congruence. Qed.

Lemma digits2_upper (p : positive) : Zpos p < 2 ^ Zpos (digits2_pos p).
Proof.
  rewrite digits2_pos_size. pose proof (Pos.size_gt p) as H.
  apply Pos2Z.pos_lt_pos in H. now rewrite Pos2Z.inj_pow in H.
Qed.

Lemma digits2_lower (p : positive) : 2 ^ (Zpos (digits2_pos p) - 1) <= Zpos p.
Proof.
  rewrite digits2_pos_size. pose proof (Pos.size_le p) as H.
  apply Pos2Z.pos_le_pos in H. rewrite Pos2Z.inj_pow in H.
  replace (Zpos (Pos.size p)) with (Z.succ (Zpos (Pos.size p) - 1)) in H by lia.
  rewrite Z.pow_succ_r in H by lia. lia.
Qed.


Lemma Zdigits2_le_pow (n a : Z) : 0 < n -> n < 2 ^ a -> Zdigits2 n <= a.
Proof.
  intros Hn Ha. destruct n as [|p|p]; try lia. simpl.
  destruct (Z.le_gt_cases (Zpos (digits2_pos p)) a) as [|Hgt]; [assumption|].
  exfalso. pose proof (digits2_lower p) as Hl.
  assert (2 ^ a <= 2 ^ (Zpos (digits2_pos p) - 1)).
  { destruct (Z.le_gt_cases 0 a).
    - apply Z.pow_le_mono_r; lia.
    - rewrite (Z.pow_neg_r 2 a) by lia. apply Z.pow_nonneg. lia. }
  lia.
Qed.


(** ** Right shifts *)

Lemma shr_1_m (mrs : shr_record) :
  0 <= shr_m mrs -> shr_m (shr_1 mrs) = shr_m mrs / 2.
Proof.
  destruct mrs as [m r s]. simpl. intros Hm.
  destruct m as [|[p|p|]|p]; try lia; cbn [shr_m shr_1];
    rewrite <- Z.div2_div; reflexivity.
Qed.

Lemma pow2_xO (p : positive) : 2 ^ Zpos p~0 = 2 ^ Zpos p * 2 ^ Zpos p.
Proof. rewrite Pos2Z.inj_xO, <- Z.pow_add_r by lia. f_equal. lia. Qed.

Lemma pow2_xI (p : positive) : 2 ^ Zpos p~1 = 2 * (2 ^ Zpos p * 2 ^ Zpos p).
Proof.
  rewrite Pos2Z.inj_xI, <- Z.pow_add_r, <- Z.pow_succ_r by lia. f_equal. lia.
Qed.

Lemma iter_pos_shr_1_m (p : positive) :
  forall mrs, 0 <= shr_m mrs ->
  shr_m (SpecFloat.iter_pos shr_1 p mrs) = shr_m mrs / 2 ^ Zpos p.
Proof.
  assert (Hstep : forall mrs, 0 <= shr_m mrs -> 0 <= shr_m (shr_1 mrs)).
  { intros mrs H. rewrite shr_1_m by assumption. apply Z.div_pos; lia. }
  assert (Hpow : forall q, 0 < 2 ^ Zpos q) by (intros; apply Z.pow_pos_nonneg; lia).
  induction p as [p IH|p IH|]; intros mrs Hm; simpl SpecFloat.iter_pos.
  - assert (H1 : 0 <= shr_m (SpecFloat.iter_pos shr_1 p (shr_1 mrs))).
    { rewrite IH by auto. apply Z.div_pos; auto. }
    rewrite IH, IH, shr_1_m by auto.
    rewrite !Z.div_div by (auto; lia). now rewrite pow2_xI.
  - assert (H1 : 0 <= shr_m (SpecFloat.iter_pos shr_1 p mrs)).
    { rewrite IH by auto. apply Z.div_pos; auto. }
    rewrite IH, IH by auto.
    rewrite !Z.div_div by (auto; lia). now rewrite pow2_xO.
  - rewrite shr_1_m by assumption. reflexivity.
Qed.

Lemma shr_m_spec (mrs : shr_record) (e n : Z) :
  0 <= shr_m mrs ->
  shr_m (fst (shr mrs e n)) = shr_m mrs / 2 ^ Z.max 0 n /\
  snd (shr mrs e n) = e + Z.max 0 n.
Proof.
  intros Hm. destruct n as [|p|p]; simpl.
  - rewrite Z.div_1_r. split; [reflexivity|lia].
  - rewrite iter_pos_shr_1_m by assumption. split; reflexivity.
  - rewrite Z.div_1_r. split; [reflexivity|lia].
Qed.

Lemma round_nearest_even_cases (m : Z) (l : location) :
  round_nearest_even m l = m \/ round_nearest_even m l = m + 1.
Proof.
  destruct l as [|[]]; simpl; auto. destruct (Z.even m); auto.
Qed.

(** ** Rounding to binary64 *)

Local Notation "'fexp64'" := (SpecFloat.fexp prec emax).

Lemma fexp64_mono (a b : Z) : a <= b -> fexp64 a <= fexp64 b.
Proof. unfold SpecFloat.fexp, emin, prec, emax. lia. Qed.

Lemma loc_of_shr_record_of_loc (m : Z) (l : location) :
  loc_of_shr_record (shr_record_of_loc m l) = l /\
  shr_m (shr_record_of_loc m l) = m.
Proof. destruct l as [|[]]; split; reflexivity. Qed.

Lemma shr_fexp_spec (m e : Z) (l : location) :
  0 <= m ->
  let s := Z.max 0 (fexp64 (Zdigits2 m + e) - e) in
  shr_m (fst (shr_fexp prec emax m e l)) = m / 2 ^ s /\
  snd (shr_fexp prec emax m e l) = e + s /\
  (s = 0 -> loc_of_shr_record (fst (shr_fexp prec emax m e l)) = l).
Proof.
  intros Hm s. unfold shr_fexp.
  destruct (loc_of_shr_record_of_loc m l) as [Hl Hr].
  destruct (shr_m_spec (shr_record_of_loc m l) e (fexp64 (Zdigits2 m + e) - e))
    as [H1 H2]; [rewrite Hr; assumption|].
  rewrite H1, H2, Hr. repeat split.
  intros Hs. fold s in H1, H2.
  destruct (fexp64 (Zdigits2 m + e) - e) as [|p|p] eqn:E; simpl; auto.
  subst s. lia.
Qed.

Lemma binary_round_aux_exact (sx : bool) (m e : Z) :
  0 < m ->
  exists m1 s1 s2 : Z,
    s1 = Z.max 0 (fexp64 (Zdigits2 m + e) - e) /\
    (m1 = m / 2 ^ s1 \/ (0 < s1 /\ m1 = m / 2 ^ s1 + 1)) /\
    s2 = Z.max 0 (fexp64 (Zdigits2 m1 + (e + s1)) - (e + s1)) /\
    binary_round_aux prec emax sx m e loc_Exact =
      match m1 / 2 ^ s2 with
      | Z0 => S754_zero sx
      | Zpos m2 =>
          if e + s1 + s2 <=? emax - prec
          then S754_finite sx m2 (e + s1 + s2) else S754_infinity sx
      | Zneg _ => S754_nan
      end.
Proof.
  intros Hm. unfold binary_round_aux.
  destruct (shr_fexp_spec m e loc_Exact) as (H1 & H2 & H3); [lia|].
  destruct (shr_fexp prec emax m e loc_Exact) as [mrs1 e1]. simpl in H1, H2, H3.
  set (s1 := Z.max 0 (fexp64 (Zdigits2 m + e) - e)) in *.
  set (m1 := round_nearest_even (shr_m mrs1) (loc_of_shr_record mrs1)).
  assert (Hdiv : 0 <= m / 2 ^ s1).
  { apply Z.div_pos; [lia|]. apply Z.pow_pos_nonneg; lia. }
  assert (Hm1 : m1 = m / 2 ^ s1 \/ (0 < s1 /\ m1 = m / 2 ^ s1 + 1)).
  { destruct (Z.eq_dec s1 0) as [Hz|Hnz].
    - left. unfold m1. rewrite (H3 Hz). simpl. assumption.
    - destruct (round_nearest_even_cases (shr_m mrs1) (loc_of_shr_record mrs1))
        as [Hr|Hr]; fold m1 in Hr; rewrite H1 in Hr; [left|right;split]; auto.
      unfold s1 in *. lia. }
  destruct (shr_fexp_spec m1 e1 loc_Exact) as (G1 & G2 & _); [lia|].
  destruct (shr_fexp prec emax m1 e1 loc_Exact) as [mrs2 e2]. simpl in G1, G2.
  exists m1, s1, (Z.max 0 (fexp64 (Zdigits2 m1 + (e + s1)) - (e + s1))).
  subst e1. rewrite G1, G2. repeat split; auto.
Qed.

(** ** The order of [SFcompare] as a lexicographic order *)

Ltac compare_cases :=
  repeat match goal with
  | |- context [Z.compare ?a ?b] => destruct (Z.compare_spec a b)
  | |- context [Pos.compare_cont Eq ?a ?b] =>
      change (Pos.compare_cont Eq a b) with (Pos.compare a b);
      destruct (Pos.compare_spec a b)
  end.

Lemma SFltb_iff (x y : spec_float) :
  SFltb x y = true <->
  SFis_nan x = false /\ SFis_nan y = false /\ lex_lt (SFrank x) (SFrank y).
Proof.
  unfold SFltb.
  destruct x as [[]|[]| |[] mx ex], y as [[]|[]| |[] my ey];
    cbn; compare_cases; cbn; intuition (try congruence; try lia).
Qed.

Lemma SFleb_iff (x y : spec_float) :
  SFleb x y = true <->
  SFis_nan x = false /\ SFis_nan y = false /\ lex_le (SFrank x) (SFrank y).
Proof.
  unfold SFleb.
  destruct x as [[]|[]| |[] mx ex], y as [[]|[]| |[] my ey];
    cbn; compare_cases; cbn; intuition (try congruence; try lia).
Qed.

(** ** Rounding never crosses a representable number *)

Lemma pow2_pos (k : Z) : 0 <= k -> 0 < 2 ^ k.
Proof. intros. apply Z.pow_pos_nonneg; lia. Qed.

Lemma pow2_split (a b : Z) : 0 <= a -> 0 <= b -> 2 ^ (a + b) = 2 ^ a * 2 ^ b.
Proof. intros. apply Z.pow_add_r; assumption. Qed.

Lemma digits_scaled_bound (n : Z) (mx : positive) (k : Z) :
  0 <= k -> 0 < n -> n <= Zpos mx * 2 ^ k ->
  Zdigits2 n <= Zpos (digits2_pos mx) + k.
Proof.
  intros Hk Hn Hle. apply Zdigits2_le_pow; [assumption|].
  rewrite pow2_split by lia.
  pose proof (digits2_upper mx). pose proof (pow2_pos k Hk). nia.
Qed.

Lemma bounded_inv (mx : positive) (ex : Z) :
  bounded prec emax mx ex = true ->
  fexp64 (Zpos (digits2_pos mx) + ex) = ex /\ ex <= emax - prec.
Proof.
  unfold bounded, canonical_mantissa. rewrite andb_true_iff.
  intros [H1 H2]. apply Z.eqb_eq in H1. apply Z.leb_le in H2. auto.
Qed.

Lemma binary_round_aux_below (m e : Z) (mx : positive) (ex : Z) :
  bounded prec emax mx ex = true ->
  0 < m -> e <= ex -> m < Zpos mx * 2 ^ (ex - e) ->
  SFleb (binary_round_aux prec emax false m e loc_Exact)
        (S754_finite false mx ex) = true.
Proof.
  intros Hb Hm He Hlt. destruct (bounded_inv _ _ Hb) as [Hcan Hmax].
  destruct (binary_round_aux_exact false m e Hm) as (m1 & s1 & s2 & Hs1 & Hm1 & Hs2 & ->).
  (* the first shift stays at or below the exponent of the bound *)
  assert (Hd : Zdigits2 m + e <= Zpos (digits2_pos mx) + ex).
  { pose proof (digits_scaled_bound m mx (ex - e)). lia. }
  pose proof (fexp64_mono _ _ Hd) as Hf. rewrite Hcan in Hf.
  assert (He1 : e + s1 <= ex) by lia.
  assert (Hs1' : 0 <= s1) by lia.
  (* the rounded mantissa does not exceed the bound on the same grid *)
  set (K := Zpos mx * 2 ^ (ex - (e + s1))).
  assert (HK : m < K * 2 ^ s1).
  { unfold K. rewrite <- Z.mul_assoc, <- pow2_split by lia.
    replace (ex - (e + s1) + s1) with (ex - e) by lia. assumption. }
  assert (Ht : m / 2 ^ s1 < K).
  { apply Z.div_lt_upper_bound; [apply pow2_pos; lia|]. lia. }
  assert (Ht0 : 0 <= m / 2 ^ s1).
  { apply Z.div_pos; [lia|apply pow2_pos; lia]. }
  assert (Hm1K : 0 <= m1 <= K) by (destruct Hm1 as [->|[_ ->]]; lia).
  assert (Hs2' : 0 <= s2) by lia.
  assert (Hq0 : 0 <= m1 / 2 ^ s2).
  { apply Z.div_pos; [lia|apply pow2_pos; lia]. }
  destruct (m1 / 2 ^ s2) as [|m2|m2] eqn:Hq; [reflexivity| |lia].
  assert (Hm1pos : 0 < m1).
  { destruct (Z.eq_dec m1 0) as [->|]; [|lia]. rewrite Z.div_0_l in Hq; [lia|].
    pose proof (pow2_pos s2 Hs2'). lia. }
  assert (Hd1 : Zdigits2 m1 + (e + s1) <= Zpos (digits2_pos mx) + ex).
  { pose proof (digits_scaled_bound m1 mx (ex - (e + s1))). fold K in H. lia. }
  pose proof (fexp64_mono _ _ Hd1) as Hf1. rewrite Hcan in Hf1.
  assert (He2 : e + s1 + s2 <= ex) by lia.
  replace (e + s1 + s2 <=? emax - prec) with true by (symmetry; apply Z.leb_le; lia).
  apply SFleb_iff. cbn. repeat split; try reflexivity.
  destruct (Z.eq_dec (e + s1 + s2) ex) as [Heq|]; [|lia].
  right. split; [reflexivity|]. right. split; [assumption|].
  assert (Hle : m1 / 2 ^ s2 <= K / 2 ^ s2).
  { apply Z.div_le_mono; [apply pow2_pos; lia|lia]. }
  assert (Hs2eq : ex - (e + s1) = s2) by lia.
  unfold K in Hle. rewrite Hs2eq, Z.div_mul in Hle by (pose proof (pow2_pos s2 Hs2'); lia).
  lia.
Qed.

Lemma iter_xO_spec (mx d : positive) :
  Zpos (Pos.iter xO mx d) = Zpos mx * 2 ^ Zpos d.
Proof.
  induction d as [|d IH] using Pos.peano_ind.
  - simpl. lia.
  - rewrite Pos.iter_succ, Pos2Z.inj_xO, IH, Pos2Z.inj_succ, Z.pow_succ_r by lia.
    lia.
Qed.

Lemma shl_align_spec (mx : positive) (ex ex' : Z) :
  snd (shl_align mx ex ex') = Z.min ex ex' /\
  Zpos (fst (shl_align mx ex ex')) = Zpos mx * 2 ^ (ex - Z.min ex ex').
Proof.
  unfold shl_align. destruct (ex' - ex) as [|d|d] eqn:E; cbn [fst snd].
  - replace (Z.min ex ex') with ex by lia. rewrite Z.sub_diag. split; lia.
  - replace (Z.min ex ex') with ex by lia. rewrite Z.sub_diag. split; lia.
  - replace (Z.min ex ex') with ex' by lia. split; [reflexivity|].
    rewrite iter_xO_spec. f_equal. f_equal. lia.
Qed.

Lemma binary_round_below (m : positive) (e : Z) (mx : positive) (ex : Z) :
  bounded prec emax mx ex = true ->
  e <= ex -> Zpos m < Zpos mx * 2 ^ (ex - e) ->
  SFleb (binary_round prec emax false m e) (S754_finite false mx ex) = true.
Proof.
  intros Hb He Hlt. unfold binary_round.
  destruct (shl_align_spec m e (fexp64 (Zpos (digits2_pos m) + e))) as [H1 H2].
  destruct (shl_align m e (fexp64 (Zpos (digits2_pos m) + e))) as [mz ez].
  cbn [fst snd] in H1, H2.
  apply binary_round_aux_below; [assumption|lia|lia|].
  rewrite H2. subst ez.
  set (ez := Z.min e (fexp64 (Zpos (digits2_pos m) + e))).
  assert (ez <= e) by (unfold ez; lia).
  replace (ex - ez) with ((ex - e) + (e - ez)) by lia.
  rewrite pow2_split by lia. pose proof (pow2_pos (e - ez)). nia.
Qed.

(** A rounded result keeps the sign it was given and is never NaN. *)
Lemma binary_round_sign (sx : bool) (m : positive) (e : Z) :
  match binary_round prec emax sx m e with
  | S754_zero s | S754_infinity s | S754_finite s _ _ => s = sx
  | S754_nan => False
  end.
Proof.
  unfold binary_round.
  destruct (shl_align m e (fexp64 (Zpos (digits2_pos m) + e))) as [mz ez].
  destruct (binary_round_aux_exact sx (Zpos mz) ez) as (m1 & s1 & s2 & Hs1 & Hm1 & Hs2 & ->);
    [lia|].
  assert (0 <= Zpos mz / 2 ^ s1) by (apply Z.div_pos; [lia|apply pow2_pos; lia]).
  assert (0 <= m1 / 2 ^ s2).
  { apply Z.div_pos; [|apply pow2_pos; lia]. destruct Hm1 as [->|[_ ->]]; lia. }
  destruct (m1 / 2 ^ s2); [reflexivity| |lia].
  destruct (_ <=? _); reflexivity.
Qed.

(** ** Subtracting a non-negative number never increases a finite
    non-negative number *)

Lemma SFsub_le (x d : spec_float) :
  valid_binary x = true ->
  SFleb (S754_zero false) x = true ->
  SFltb x (S754_infinity false) = true ->
  SFleb (S754_zero false) d = true ->
  SFleb (SFsub prec emax x d) x = true.
Proof.
  intros Hv Hx Hfin Hd.
  destruct x as [sx|[]| |[] mx ex]; try discriminate Hx; try discriminate Hfin;
    destruct d as [sd|[]| |[] md ed]; try discriminate Hd; clear Hx Hfin Hd.
  - destruct sx, sd; reflexivity.
  - reflexivity.
  - reflexivity.
  - apply SFleb_iff. cbn. repeat split; try reflexivity. lia.
  - reflexivity.
  - cbn [SFsub cond_Zopp SpecFloat.valid_binary] in *.
    destruct (shl_align_spec mx ex (Z.min ex ed)) as [_ Hmx].
    destruct (shl_align_spec md ed (Z.min ex ed)) as [_ Hmd].
    rewrite Hmx, Hmd.
    replace (Z.min ex (Z.min ex ed)) with (Z.min ex ed) by lia.
    replace (Z.min ed (Z.min ex ed)) with (Z.min ex ed) by lia.
    set (ez := Z.min ex ed). assert (ez <= ex /\ ez <= ed) as [Hzx Hzd] by (unfold ez; lia).
    pose proof (pow2_pos (ed - ez)) as Hp.
    assert (Hlt : Zpos mx * 2 ^ (ex - ez) - Zpos md * 2 ^ (ed - ez)
                  < Zpos mx * 2 ^ (ex - ez)) by nia.
    destruct (Zpos mx * 2 ^ (ex - ez) - Zpos md * 2 ^ (ed - ez)) as [|m|m] eqn:E;
      cbn [binary_normalize].
    + reflexivity.
    + apply binary_round_below; assumption.
    + pose proof (binary_round_sign true m ez) as Hs.
      destruct (binary_round prec emax true m ez) as [s|s| |s m' e'];
        try contradiction; subst s; reflexivity.
Qed.

Local Open Scope float_scope.

Lemma Prim2SF_zero : Prim2SF 0 = S754_zero false.
Proof. reflexivity. Qed.

Lemma Prim2SF_infinity : Prim2SF infinity = S754_infinity false.
Proof. reflexivity. Qed.

(** [x - d <= x] in binary64 whenever [x] is finite and non-negative and
    [d] is non-negative (possibly infinite). *)
Lemma sub_le (x d : float) :
  (0 <=? x) = true -> (x <? infinity) = true -> (0 <=? d) = true ->
  (x - d <=? x) = true.
Proof.
  rewrite !leb_spec, ltb_spec, sub_spec, Prim2SF_zero, Prim2SF_infinity.
  apply SFsub_le, Prim2SF_valid.
Qed.

(** ** Order facts on [float] *)

Lemma leb_iff (x y : float) :
  (x <=? y) = true <->
  SFis_nan (Prim2SF x) = false /\ SFis_nan (Prim2SF y) = false /\
  lex_le (SFrank (Prim2SF x)) (SFrank (Prim2SF y)).
Proof. rewrite leb_spec. apply SFleb_iff. Qed.

Lemma ltb_iff (x y : float) :
  (x <? y) = true <->
  SFis_nan (Prim2SF x) = false /\ SFis_nan (Prim2SF y) = false /\
  lex_lt (SFrank (Prim2SF x)) (SFrank (Prim2SF y)).
Proof. rewrite ltb_spec. apply SFltb_iff. Qed.

(** Turns every comparison of the goal and of the hypotheses into a linear
    constraint on ranks. *)
Ltac float_order :=
  repeat match goal with
  | H : (_ <=? _) = false |- _ => apply not_true_iff_false in H
  | H : (_ <? _) = false |- _ => apply not_true_iff_false in H
  | |- (_ <=? _) = false => apply not_true_iff_false
  | |- (_ <? _) = false => apply not_true_iff_false
  end;
  rewrite ?leb_iff, ?ltb_iff in *;
  repeat match goal with
  | |- context [Prim2SF ?c] =>
      tryif is_var c then fail else
      let v := eval vm_compute in (Prim2SF c) in
      change (Prim2SF c) with v in *
  | H : context [Prim2SF ?c] |- _ =>
      tryif is_var c then fail else
      let v := eval vm_compute in (Prim2SF c) in
      change (Prim2SF c) with v in *
  end;
  cbn [SFrank SFis_nan] in *;
  repeat match goal with
  | |- context [Prim2SF ?c] =>
      is_var c;
      let a := fresh "a" in let b := fresh "b" in let k := fresh "c" in
      let n := fresh "n" in
      destruct (SFrank (Prim2SF c)) as [[a b] k];
      destruct (SFis_nan (Prim2SF c))
  | H : context [Prim2SF ?c] |- _ =>
      is_var c;
      let a := fresh "a" in let b := fresh "b" in let k := fresh "c" in
      destruct (SFrank (Prim2SF c)) as [[a b] k];
      destruct (SFis_nan (Prim2SF c))
  end;
  cbv [lex_le lex_lt] in *; intuition (try congruence; try lia).

Lemma leb_trans (x y z : float) :
  (x <=? y) = true -> (y <=? z) = true -> (x <=? z) = true.
Proof. intros; float_order. Qed.


Lemma ltb_leb (x y : float) : (x <? y) = true -> (x <=? y) = true.
Proof. intros; float_order. Qed.

Lemma leb_not_ltb (x y : float) : (x <=? y) = true -> (y <? x) = false.
Proof. intros; float_order. Qed.


(** Two numbers (neither is NaN) are comparable. *)
Lemma not_leb_ltb (x y u v : float) :
  (x <=? u) = true -> (v <=? y) = true ->
  (x <=? y) = false -> (y <? x) = true.
Proof. intros; float_order. Qed.

Lemma below_100_finite (x : float) : (x <=? 100) = true -> (x <? infinity) = true.
Proof. intros; float_order. Qed.

Lemma at_least_60 (x : float) :
  (60 <=? x) = true -> (x <? 30) = false /\ (x <? 60) = false.
Proof. intros; split; float_order. Qed.

Lemma at_least_30 (x : float) : (30 <=? x) = true -> (x <? 30) = false.
Proof. intros; float_order. Qed.

End FloatFacts.

Import FloatFacts.

(** * The page keeps its invariants *)

Lemma sameValue_true (x y : float) : sameValue x y = true <-> x = y.
Proof. apply Leibniz.eqb_spec. Qed.

Lemma sameValue_refl (x : float) : sameValue x x = true.
Proof. now apply sameValue_true. Qed.

Lemma succ_neqb (p : positive) : Pos.eqb p (Pos.succ p) = false.
Proof. apply Pos.eqb_neq. lia. Qed.

(** ** Rendering *)

Lemma sameTip_refl : forall v : value, sameTip v v = true.
Proof.
  fix IH 1. intros [| |b|n|s|l|p]; cbn [sameTip]; try reflexivity.
  - now destruct b.
  - apply sameValue_refl.
  - apply String.eqb_refl.
  - induction l as [|x l IHl]; [reflexivity|]. now rewrite IH, IHl.
  - induction p as [|[k x] p IHp]; [reflexivity|].
    now rewrite String.eqb_refl, IH, IHp.
Qed.

Lemma renderFails_same (before after : State) :
  hydrationTip after = hydrationTip before -> renderFails before after = false.
Proof. intros H. unfold renderFails. now rewrite H, sameTip_refl. Qed.

Lemma renderFails_renderable (before after : State) :
  renderable (hydrationTip after) = true -> renderFails before after = false.
Proof. intros H. unfold renderFails. rewrite H. apply andb_false_r. Qed.

(** ** The timer *)

(** Starting the timer where every live task is the referenced one leaves
    exactly the new task. *)
Lemma startHydrationTimer_spec (cl : Closure) (w : World) :
  (forall i, In i (intervals (page w)) ->
             hydrationIntervalRef w = Some (handle i)) ->
  let w' := startHydrationTimer cl w in
  intervals (page w')
  = [{| handle := nextTimerId (page w); callback := cl |}] /\
  hydrationIntervalRef w' = Some (nextTimerId (page w)) /\
  nextTimerId (page w') = Pos.succ (nextTimerId (page w)) /\
  state w' = state w /\
  waterFillBackground (page w') = waterFillBackground (page w).
Proof.
  intros Hall. destruct w as [s [h|] b m]; cbn in *.
  - assert (Hf : filter (fun i => negb (handle i =? h)%positive) (intervals b) = []).
    { induction (intervals b) as [|i l IH]; [reflexivity|]. cbn.
      pose proof (Hall i (or_introl eq_refl)) as Hi. injection Hi as ->.
      rewrite Pos.eqb_refl. cbn. apply IH. intros j Hj. apply Hall. now right. }
    rewrite Hf. repeat split.
  - destruct (intervals b) as [|i l]; [repeat split|].
    now specialize (Hall i (or_introl eq_refl)).
Qed.

Lemma timerCleanup_spec (cl : Closure) (w : World) :
  TimerOk cl w ->
  let w' := timerCleanup w in
  intervals (page w') = [] /\
  hydrationIntervalRef w' = hydrationIntervalRef w /\
  nextTimerId (page w') = nextTimerId (page w) /\
  state w' = state w /\
  waterFillBackground (page w') = waterFillBackground (page w).
Proof.
  unfold TimerOk, timerCleanup. destruct w as [s r b m]; cbn.
  destruct (intervals b) as [|i [|j l]] eqn:E; [intros ->| |contradiction].
  - cbn. rewrite E. repeat split.
  - intros (-> & _ & _). cbn. rewrite E. cbn. rewrite Pos.eqb_refl. repeat split.
Qed.

(** The effect on [currentWaterLevel, updateWaterLevelVisual]. *)
Lemma visual_effect_spec (before : float) (w : World) :
  let w' :=
    if sameValue before (currentWaterLevel (state w))
    then w else updateWaterLevelVisual w in
  state w' = state w /\
  hydrationIntervalRef w' = hydrationIntervalRef w /\
  intervals (page w') = intervals (page w) /\
  nextTimerId (page w') = nextTimerId (page w) /\
  (waterFillBackground (page w) = waterFillColor before ->
   waterFillBackground (page w')
   = waterFillColor (currentWaterLevel (state w))).
Proof.
  cbn zeta. destruct (sameValue before _) eqn:E.
  - apply sameValue_true in E. subst before. repeat split. auto.
  - repeat split.
Qed.

Lemma commit_restart (before : State) (w1 : World) (cl : Closure) :
  TimerOk cl w1 ->
  timerDepsChanged before (state w1) = true ->
  let w' := commit before w1 in
  state w' = state w1 /\
  intervals (page w')
  = [{| handle := nextTimerId (page w1); callback := closureOf (state w1) |}] /\
  hydrationIntervalRef w' = Some (nextTimerId (page w1)) /\
  nextTimerId (page w') = Pos.succ (nextTimerId (page w1)) /\
  (waterFillBackground (page w1) = waterFillColor (currentWaterLevel before) ->
   waterFillBackground (page w')
   = waterFillColor (currentWaterLevel (state w1))).
Proof.
  intros Ht Hd. unfold commit. rewrite Hd.
  destruct (timerCleanup_spec _ _ Ht) as (C1 & C2 & C3 & C4 & C5).
  remember (timerCleanup w1) as w2 eqn:E2. clear E2.
  pose proof (visual_effect_spec (currentWaterLevel before) w2) as V.
  cbn zeta in V. rewrite C4 in V. destruct V as (V1 & V2 & V3 & V4 & V5).
  remember (if sameValue _ _ then w2 else updateWaterLevelVisual w2) as w3 eqn:E3.
  clear E3.
  destruct (startHydrationTimer_spec (closureOf (state w1)) w3)
    as (S1 & S2 & S3 & S4 & S5).
  { rewrite V3, C1. intros i []. }
  cbn zeta. rewrite S1, S2, S3, S4, S5, V1, V4, C3, ?C4. repeat split.
  intros H. apply V5. congruence.
Qed.

Lemma commit_keep (before : State) (w1 : World) :
  timerDepsChanged before (state w1) = false ->
  let w' := commit before w1 in
  state w' = state w1 /\
  intervals (page w') = intervals (page w1) /\
  hydrationIntervalRef w' = hydrationIntervalRef w1 /\
  nextTimerId (page w') = nextTimerId (page w1) /\
  (waterFillBackground (page w1) = waterFillColor (currentWaterLevel before) ->
   waterFillBackground (page w')
   = waterFillColor (currentWaterLevel (state w1))).
Proof.
  intros Hd. unfold commit. rewrite Hd.
  pose proof (visual_effect_spec (currentWaterLevel before) w1) as V.
  cbn zeta in V |- *. destruct V as (V1 & V2 & V3 & V4 & V5). auto.
Qed.

Lemma timerDepsChanged_false (before after : State) :
  timerDepsChanged before after = false ->
  timerDuration after = timerDuration before /\
  settingsObject after = settingsObject before.
Proof.
  unfold timerDepsChanged. intros H. apply orb_false_elim in H as [H1 H2].
  apply negb_false_iff in H1, H2. apply sameValue_true in H1.
  apply Pos.eqb_eq in H2. auto.
Qed.

Lemma commit_inv (w w1 : World) :
  Inv w -> Mid w w1 -> Inv (commit (state w) w1).
Proof.
  intros [_ _ _ _ Hc] [Hlo Hhi Hdur Ht Hs Hbg].
  destruct (timerDepsChanged (state w) (state w1)) eqn:Hd.
  - destruct (commit_restart _ _ _ Ht Hd) as (C1 & C2 & C3 & C4 & C5).
    split; rewrite ?C1; auto.
    + unfold TimerOk. rewrite C2, C3, C4. cbn. repeat split. lia.
    + apply C5. congruence.
  - destruct (commit_keep _ _ Hd) as (C1 & C2 & C3 & C4 & C5).
    destruct (timerDepsChanged_false _ _ Hd) as [D1 D2]. specialize (Hs D2).
    assert (Hcl : closureOf (state w1) = closureOf (state w)).
    { unfold closureOf. congruence. }
    split; rewrite ?C1; auto.
    + unfold TimerOk in *. rewrite C2, C3, C4, Hcl. assumption.
    + apply C5. congruence.
Qed.

(** ** Handlers *)

(** A handler that leaves the level, the duration, the timer and the fill
    colour alone hands over a world that satisfies [Mid]. *)
Lemma mid_of_frame (w w1 : World) :
  Inv w ->
  currentWaterLevel (state w1) = currentWaterLevel (state w) ->
  In (timerDuration (state w1)) durations ->
  intervals (page w1) = intervals (page w) ->
  hydrationIntervalRef w1 = hydrationIntervalRef w ->
  (nextTimerId (page w) <= nextTimerId (page w1))%positive ->
  waterFillBackground (page w1) = waterFillBackground (page w) ->
  (settingsObject (state w1) = settingsObject (state w) ->
   reminderSettings (state w1) = reminderSettings (state w)) ->
  Mid w w1.
Proof.
  intros [Hlo Hhi Hdur Ht Hc] Hl Hd Hi Hr Hn Hb Hs.
  split; rewrite ?Hl; auto.
  unfold TimerOk in *. rewrite Hi, Hr.
  destruct (intervals (page w)) as [|i [|j l]]; auto.
  destruct Ht as (? & ? & ?). repeat split; auto. lia.
Qed.

Lemma showMessage_frame (msg : string) (d : Z) (w : World) :
  let w' := showMessage msg d w in
  currentWaterLevel (state w') = currentWaterLevel (state w) /\
  timerDuration (state w') = timerDuration (state w) /\
  reminderSettings (state w') = reminderSettings (state w) /\
  settingsObject (state w') = settingsObject (state w) /\
  intervals (page w') = intervals (page w) /\
  hydrationIntervalRef w' = hydrationIntervalRef w /\
  nextTimerId (page w') = Pos.succ (nextTimerId (page w)) /\
  waterFillBackground (page w') = waterFillBackground (page w) /\
  messageBox (state w') = {| message := msg; visible := true |}.
Proof. repeat split. Qed.

Lemma slider_duration (value : string) :
  existsb (String.eqb value) (map decimal sliderValues) = true ->
  In (parseInt value) durations.
Proof.
  intros H. apply existsb_exists in H as (s & Hs & E).
  apply String.eqb_eq in E. subst s.
  assert (Hall : forallb (fun z => existsb (sameValue (parseInt (decimal z))) durations)
                   sliderValues = true) by (vm_compute; reflexivity).
  apply in_map_iff in Hs as (z & <- & Hz).
  rewrite forallb_forall in Hall. specialize (Hall z Hz).
  apply existsb_exists in Hall as (d & Hd & E). apply sameValue_true in E.
  congruence.
Qed.

Lemma default_duration : In 60 durations.
Proof. vm_compute. auto 10. Qed.

(** ** One tick *)

Lemma decrement_nonneg (D : float) :
  In D durations -> (0 <? 100 / (D * 60)) = true.
Proof.
  assert (H : forallb (fun D => 0 <? 100 / (D * 60)) durations = true)
    by (vm_compute; reflexivity).
  rewrite forallb_forall in H. apply H.
Qed.

(** The updater of [decrementWaterLevel] on a level in [[0,100]]. *)
Lemma tick_level (D prev : float) :
  In D durations ->
  (0 <=? prev) = true -> (prev <=? 100) = true ->
  let newLevel := prev - 100 / (D * 60) in
  (newLevel <=? prev) = true /\
  (newLevel <=? 100) = true /\
  ((newLevel <=? 0) = false -> (0 <? newLevel) = true).
Proof.
  intros HD Hlo Hhi newLevel.
  assert (Hle : (newLevel <=? prev) = true).
  { apply sub_le; [assumption|now apply below_100_finite|].
    apply ltb_leb, decrement_nonneg, HD. }
  repeat split; [assumption|exact (leb_trans _ _ _ Hle Hhi)|].
  intros Hn. exact (not_leb_ltb newLevel 0 prev 0 Hle eq_refl Hn).
Qed.

Lemma decrementWaterLevel_running (cl : Closure) (w : World) :
  (currentWaterLevel (state w) - 100 / (cl_timerDuration cl * 60) <=? 0)
  = false ->
  decrementWaterLevel cl w
  = setCurrentWaterLevel
      (currentWaterLevel (state w) - 100 / (cl_timerDuration cl * 60)) w.
Proof. intros H. unfold decrementWaterLevel. now rewrite H. Qed.

(** The emptying tick where [sendBrowserNotification] does not throw: the
    browser has the Notification API, or the browser channel is off. *)
Lemma decrementWaterLevel_empty (cl : Closure) (w : World) (h : positive) :
  mounted w = true ->
  notificationInWindow (page w) = true
  \/ browser (cl_reminderSettings cl) = false ->
  hydrationIntervalRef w = Some h ->
  (currentWaterLevel (state w) - 100 / (cl_timerDuration cl * 60) <=? 0)
  = true ->
  let w' := decrementWaterLevel cl w in
  currentWaterLevel (state w') = 0 /\
  timerDuration (state w') = timerDuration (state w) /\
  reminderSettings (state w') = reminderSettings (state w) /\
  settingsObject (state w') = settingsObject (state w) /\
  messageBox (state w')
  = {| message := "Time to drink water!"; visible := true |} /\
  hydrationIntervalRef w' = None /\
  intervals (page w')
  = filter (fun i => negb (handle i =? h)%positive) (intervals (page w)) /\
  (nextTimerId (page w) <= nextTimerId (page w'))%positive /\
  waterFillBackground (page w') = waterFillBackground (page w) /\
  calls (page w')
  = (calls (page w) ++ ClearInterval h
       :: reminderCalls (cl_reminderSettings cl) (permission (page w)))%list /\
  timeouts (page w')
  = (timeouts (page w) ++ reminderTimeouts (cl_reminderSettings cl)
       ++ [HideMessage 5000])%list /\
  (visual (cl_reminderSettings cl) = true ->
   bodyContainerFlash (page w') = true).
Proof.
  intros Hm Hapi Hr H. unfold decrementWaterLevel. rewrite H, Hr.
  destruct cl as [D [[] [] []]], w as [s r [[[]|] n f l t k c z a pl] m];
    cbn in *; subst m; destruct Hapi as [?|?]; try discriminate; cbn;
    rewrite <- ?app_assoc; repeat split; try reflexivity; lia.
Qed.

Lemma decrementWaterLevel_empty_mounted (cl : Closure) (w : World) :
  mounted w = true ->
  notificationInWindow (page w) = true
  \/ browser (cl_reminderSettings cl) = false ->
  mounted (decrementWaterLevel cl w) = true /\
  notification (page (decrementWaterLevel cl w)) = notification (page w).
Proof.
  intros Hm Hapi. unfold decrementWaterLevel.
  destruct (_ <=? 0); [|split; [exact Hm|reflexivity]].
  destruct cl as [D [[] [] []]], w as [s [h|] [[[]|] n f l t k c z a pl] m];
    cbn in *; subst m; destruct Hapi as [?|?]; try discriminate;
    split; reflexivity.
Qed.

(** The emptying tick where [sendBrowserNotification] throws: the task is
    cancelled and the reference reset, and nothing else is done. *)
Lemma decrementWaterLevel_aborted (cl : Closure) (w : World) (h : positive) :
  mounted w = true ->
  notificationInWindow (page w) = false ->
  browser (cl_reminderSettings cl) = true ->
  hydrationIntervalRef w = Some h ->
  (currentWaterLevel (state w) - 100 / (cl_timerDuration cl * 60) <=? 0)
  = true ->
  decrementWaterLevel cl w = throwUncaught (setRef None (clearInterval h w)).
Proof.
  intros Hm Hn Hb Hr H. unfold decrementWaterLevel. rewrite H, Hr.
  destruct cl as [D [b so vi]], w as [s r [[p|] n f l t k c z a pl] m];
    cbn in *; subst; try discriminate.
  destruct so, vi; reflexivity.
Qed.

(** A tick leaves the page mounted exactly when it does not throw. *)
Lemma decrementWaterLevel_mounted (cl : Closure) (w : World) :
  mounted w = true ->
  mounted (decrementWaterLevel cl w) = true ->
  (currentWaterLevel (state w) - 100 / (cl_timerDuration cl * 60) <=? 0)
  = true ->
  notificationInWindow (page w) = true
  \/ browser (cl_reminderSettings cl) = false.
Proof.
  intros Hm Hm' H. unfold decrementWaterLevel in Hm'. rewrite H in Hm'.
  destruct (notificationInWindow (page w)) eqn:Hn; [now left|right].
  destruct (browser (cl_reminderSettings cl)) eqn:Hb; [|reflexivity].
  destruct cl as [D [b so vi]], w as [s [h|] [[p|] n f l t k c z a pl] m];
    cbn in *; subst; try discriminate; destruct so, vi; discriminate.
Qed.

(** ** What the effects leave alone *)

Lemma commit_keep_eq (before : State) (w1 : World) :
  timerDepsChanged before (state w1) = false ->
  commit before w1
  = if sameValue (currentWaterLevel before) (currentWaterLevel (state w1))
    then w1 else updateWaterLevelVisual w1.
Proof. intros H. unfold commit. now rewrite H. Qed.

Lemma commit_state (before : State) (w1 : World) :
  state (commit before w1) = state w1.
Proof.
  unfold commit, timerCleanup, startHydrationTimer.
  destruct (timerDepsChanged _ _), (sameValue _ _), w1 as [s [h|] b m];
    reflexivity.
Qed.

Lemma timerDepsChanged_same (s s' : State) :
  timerDuration s' = timerDuration s ->
  settingsObject s' = settingsObject s ->
  timerDepsChanged s s' = false.
Proof.
  intros Hd Hs. unfold timerDepsChanged.
  now rewrite Hd, Hs, sameValue_refl, Pos.eqb_refl.
Qed.

(** The effects that follow a handler which changed neither the duration nor
    the settings object touch nothing but the fill colour. *)
Lemma commit_quiet (before : State) (w1 : World) :
  timerDuration (state w1) = timerDuration before ->
  settingsObject (state w1) = settingsObject before ->
  let w' := commit before w1 in
  state w' = state w1 /\
  hydrationIntervalRef w' = hydrationIntervalRef w1 /\
  intervals (page w') = intervals (page w1) /\
  timeouts (page w') = timeouts (page w1) /\
  calls (page w') = calls (page w1) /\
  bodyContainerFlash (page w') = bodyContainerFlash (page w1) /\
  permissionRequests (page w') = permissionRequests (page w1) /\
  nextTimerId (page w') = nextTimerId (page w1).
Proof.
  intros Hd Hs. cbn zeta.
  rewrite (commit_keep_eq _ _ (timerDepsChanged_same _ _ Hd Hs)).
  destruct (sameValue _ _); repeat split.
Qed.

Lemma startHydrationTimer_calls (cl : Closure) (w : World) :
  calls (page (startHydrationTimer cl w))
  = (calls (page w) ++ cancel (hydrationIntervalRef w)
       ++ [SetInterval (nextTimerId (page w)); ConsoleLog])%list.
Proof.
  destruct w as [s [h|] b m]; cbn; now rewrite <- ?app_assoc.
Qed.

(** When the timer effect re-runs, its cleanup and [startHydrationTimer]
    both cancel the referenced task, then one task is started. *)
Lemma commit_restart_calls (before : State) (w1 : World) :
  timerDepsChanged before (state w1) = true ->
  calls (page (commit before w1))
  = (calls (page w1) ++ cancel (hydrationIntervalRef w1)
       ++ cancel (hydrationIntervalRef w1)
       ++ [SetInterval (nextTimerId (page w1)); ConsoleLog])%list.
Proof.
  intros Hd. unfold commit. rewrite Hd.
  destruct w1 as [s [h|] b m], (sameValue _ _); cbn;
    now rewrite <- ?app_assoc.
Qed.

Lemma commit_requests (before : State) (w1 : World) :
  permissionRequests (page (commit before w1)) = permissionRequests (page w1).
Proof.
  unfold commit, timerCleanup, startHydrationTimer.
  destruct (timerDepsChanged _ _), (sameValue _ _), w1 as [s [h|] b m];
    reflexivity.
Qed.

Lemma timerDepsChanged_settings (s s' : State) :
  settingsObject s' = Pos.succ (settingsObject s) ->
  timerDepsChanged s s' = true.
Proof.
  intros H. unfold timerDepsChanged. rewrite H, succ_neqb.
  apply orb_true_r.
Qed.

(** ** Every handler hands over a good world *)

Section Reach.

Variable coerce : value -> float.

Lemma findInterval_inv (cl : Closure) (w : World) (h : positive) (i : Interval) :
  TimerOk cl w -> findInterval h w = Some i ->
  intervals (page w) = [i] /\ handle i = h /\ callback i = cl /\
  hydrationIntervalRef w = Some h.
Proof.
  unfold TimerOk, findInterval.
  destruct (intervals (page w)) as [|j [|k l]]; cbn; try easy.
  intros (Hr & Hc & _). destruct (Pos.eqb_spec (handle j) h); [|easy].
  intros [= ->]. subst h. auto.
Qed.

Lemma tryTip_normal (o : FetchOutcome) (w w' : World) :
  tryTip coerce o w = Normal w' ->
  exists t, w' = setHydrationTip t w
            \/ w' = record ConsoleError (setHydrationTip t w).
Proof.
  unfold tryTip. destruct o as [|[] [result|]]; cbn; try discriminate.
  destruct (hasParts coerce result) as [[]|]; cbn; try discriminate.
  - destruct (firstText result) as [t|]; cbn; [|discriminate].
    intros [= <-]. eauto.
  - intros [= <-]. eauto.
Qed.

Ltac open_world w :=
  let s := fresh "s" in
  destruct w as [s ? [? ? ? ? ? ? ? ? ? ?] ?]; destruct s.

Lemma handleReminderChange_frame (id : ReminderInput) (checked : bool)
  (w : World) :
  let w' := handleReminderChange id checked w in
  currentWaterLevel (state w') = currentWaterLevel (state w) /\
  timerDuration (state w') = timerDuration (state w) /\
  intervals (page w') = intervals (page w) /\
  hydrationIntervalRef w' = hydrationIntervalRef w /\
  (nextTimerId (page w) <= nextTimerId (page w'))%positive /\
  waterFillBackground (page w') = waterFillBackground (page w) /\
  settingsObject (state w') = Pos.succ (settingsObject (state w)).
Proof.
  open_world w. destruct id, checked;
    try match goal with
        | o : option NotificationPermission |- _ => destruct o as [[]|]
        end;
    cbn; repeat split; lia.
Qed.

(** ** Which handlers can throw *)

Lemma commit_mounted (before : State) (w1 : World) :
  mounted (commit before w1) = mounted w1.
Proof.
  unfold commit, timerCleanup, startHydrationTimer.
  destruct (timerDepsChanged _ _), (sameValue _ _), w1 as [s [h|] b m];
    reflexivity.
Qed.

(** Only a tick of the interval can leave its handler by an exception. *)
Lemma dispatch_mounted (ev : Event) (w : World) :
  (forall h, ev <> IntervalFires h) ->
  mounted (dispatch coerce ev w) = mounted w /\
  notification (page (dispatch coerce ev w))
  = match ev with
    | PermissionAnswer answer => Some answer
    | _ => notification (page w)
    end.
Proof.
  intros Hev.
  destruct ev as [h|n|v|b|id checked| | | |o|answer|rejected];
    cbn [dispatch].
  - now elim (Hev h).
  - destruct (nth_error (timeouts (page w)) n) as [[d|d]|]; split; reflexivity.
  - split; reflexivity.
  - split; reflexivity.
  - open_world w. destruct id, checked;
      try match goal with
          | o : option NotificationPermission |- _ => destruct o as [[]|]
          end; split; reflexivity.
  - destruct w as [s [h|] b m]; split; reflexivity.
  - destruct w as [s [h|] b m]; split; reflexivity.
  - split; reflexivity.
  - unfold getHydrationTip_resume.
    destruct (tryTip coerce o _) as [w'|] eqn:E.
    + apply tryTip_normal in E as [t [-> | ->]]; split; reflexivity.
    + split; reflexivity.
  - destruct answer; split; reflexivity.
  - destruct rejected; split; reflexivity.
Qed.

(** A step that leaves the page mounted: no exception left the handler, the
    render went through and the effects ran. *)
Lemma step_alive (ev : Event) (w : World) :
  mounted w = true -> mounted (step coerce ev w) = true ->
  mounted (dispatch coerce ev w) = true /\
  renderFails (state w) (state (dispatch coerce ev w)) = false /\
  step coerce ev w = commit (state w) (dispatch coerce ev w).
Proof.
  unfold step, rerender. intros ->. cbn [negb].
  destruct (mounted (dispatch coerce ev w)); cbn [negb];
    [|discriminate].
  destruct (renderFails _ _); [discriminate|]. auto.
Qed.

Lemma step_commit (ev : Event) (w : World) :
  mounted w = true -> mounted (dispatch coerce ev w) = true ->
  renderFails (state w) (state (dispatch coerce ev w)) = false ->
  step coerce ev w = commit (state w) (dispatch coerce ev w).
Proof. unfold step, rerender. now intros -> -> ->. Qed.

Lemma reachable_mounted (w : World) : reachable coerce w -> mounted w = true.
Proof. now intros [n|ev w0 _ _ Hm]. Qed.

(** React's part of a step leaves the state as the handler set it, and of
    the browser it touches the timer and the fill colour only. *)
Lemma step_state (ev : Event) (w : World) :
  state (step coerce ev w) = state (dispatch coerce ev w).
Proof.
  unfold step, rerender, unmount, timerCleanup.
  destruct (mounted w); cbn [negb]; [|reflexivity].
  destruct (mounted (dispatch coerce ev w)); cbn [negb].
  - destruct (renderFails _ _); [|apply commit_state].
    now destruct (hydrationIntervalRef _).
  - now destruct (hydrationIntervalRef _).
Qed.

Lemma dispatch_mid (ev : Event) (w : World) :
  Inv w -> enabled ev w = true ->
  mounted w = true -> mounted (dispatch coerce ev w) = true ->
  Mid w (dispatch coerce ev w).
Proof.
  intros HI He Hm Hm1. pose proof HI as [Hlo Hhi Hdur Ht Hc].
  destruct ev as [h|n|v|b|id checked| | | |o|answer|rejected];
    cbn [dispatch enabled] in *.
  - (* IntervalFires *)
    destruct (findInterval h w) as [i|] eqn:Hf; [|discriminate].
    destruct (findInterval_inv _ _ _ _ Ht Hf) as (Hi & Hh & Hcb & Hr).
    rewrite Hcb in *.
    destruct (tick_level _ _ Hdur Hlo Hhi) as (T1 & T2 & T3).
    destruct (currentWaterLevel (state w)
              - 100 / (timerDuration (state w) * 60) <=? 0) eqn:E.
    + pose proof (decrementWaterLevel_mounted (closureOf (state w)) w Hm Hm1 E)
        as Hapi.
      destruct (decrementWaterLevel_empty (closureOf (state w)) w h Hm Hapi
                  Hr E)
        as (L & D & S & O & _ & R & I & N & B & _).
      split; rewrite ?L, ?D, ?S; auto.
      unfold TimerOk. rewrite I, R, Hi, <- Hh. cbn. now rewrite Pos.eqb_refl.
    + rewrite (decrementWaterLevel_running (closureOf (state w)) w E).
      split; auto; cbn; try exact T2. apply ltb_leb, T3. reflexivity.
  - (* TimeoutFires *)
    destruct (nth_error (timeouts (page w)) n) as [[d|d]|]; cbn;
      apply mid_of_frame; auto; cbn; lia.
  - (* TimerChange *)
    apply mid_of_frame; auto; try (cbn; lia). cbn. now apply slider_duration.
  - (* BodyTypeClick *)
    apply mid_of_frame; auto; cbn; lia.
  - (* ReminderChange *)
    destruct (handleReminderChange_frame id checked w)
      as (F1 & F2 & F3 & F4 & F5 & F6 & F7).
    apply mid_of_frame; auto; try congruence; lia.
  - (* DrinkNow *)
    unfold resetHydration.
    destruct (startHydrationTimer_spec (closureOf (state w))
                (setCurrentWaterLevel 100 w)) as (S1 & S2 & S3 & S4 & S5).
    { cbn. intros i Hi. unfold TimerOk in Ht.
      destruct (intervals (page w)) as [|j [|k l]]; try easy.
      destruct Hi as [<-|[]]. apply Ht. }
    pose proof (showMessage_frame "Hydration reset! Drink up!" 2000
                  (startHydrationTimer (closureOf (state w))
                     (setCurrentWaterLevel 100 w))) as F.
    cbn zeta in F. destruct F as (F1 & F2 & F3 & F4 & F5 & F6 & F7 & F8 & _).
    split; rewrite ?F1, ?F2, ?F3, ?F4, ?F8, ?S4, ?S5; auto.
    unfold TimerOk. rewrite F5, F6, F7, S1, S2, S3. cbn. repeat split. lia.
  - (* ResetAll *)
    unfold resetAll, resetHydration.
    set (w0 := setCurrentWaterLevel 100 _).
    destruct (startHydrationTimer_spec (closureOf (state w)) w0)
      as (S1 & S2 & S3 & S4 & S5).
    { cbn. intros i Hi. unfold TimerOk in Ht.
      destruct (intervals (page w)) as [|j [|k l]]; try easy.
      destruct Hi as [<-|[]]. apply Ht. }
    set (w1 := startHydrationTimer _ w0) in *. clearbody w1.
    pose proof (showMessage_frame "Hydration reset! Drink up!" 2000 w1) as G.
    pose proof (showMessage_frame "All settings reset!" 2000
                  (showMessage "Hydration reset! Drink up!" 2000 w1)) as F.
    cbn zeta in F, G.
    destruct G as (G1 & G2 & G3 & G4 & G5 & G6 & G7 & G8 & _).
    destruct F as (F1 & F2 & F3 & F4 & F5 & F6 & F7 & F8 & _).
    split; rewrite ?F1, ?F2, ?F3, ?F4, ?F8, ?G1, ?G2, ?G3, ?G4, ?G8, ?S4, ?S5;
      subst w0; cbn; auto.
    + apply default_duration.
    + unfold TimerOk. rewrite F5, F6, F7, G5, G6, G7, S1, S2, S3. cbn.
      repeat split. lia.
    + lia.
  - (* GetTip *)
    apply mid_of_frame; auto; cbn; lia.
  - (* TipArrives *)
    unfold getHydrationTip_resume.
    destruct (tryTip coerce o _) as [w'|] eqn:E.
    + apply tryTip_normal in E as [t [-> | ->]];
        apply mid_of_frame; auto; cbn; lia.
    + apply mid_of_frame; auto; cbn; lia.
  - (* PermissionAnswer *)
    destruct answer; apply mid_of_frame; auto; cbn; lia.
  - (* PlaySettles *)
    destruct rejected; apply mid_of_frame; auto; cbn; lia.
Qed.

Theorem reachable_inv (w : World) : reachable coerce w -> Inv w.
Proof.
  induction 1 as [n|ev w Hr IH He Hm].
  - split; try reflexivity; try apply default_duration.
    cbn. repeat split.
  - pose proof (reachable_mounted w Hr) as Hw.
    destruct (step_alive ev w Hw Hm) as (Hm1 & _ & ->).
    apply commit_inv; [assumption|]. now apply dispatch_mid.
Qed.

(** A tick that does not throw is followed by the effects: it changes no tip,
    so the render goes through. *)
Lemma tick_commit (cl : Closure) (w : World) (h : positive) :
  TimerOk cl w ->
  mounted w = true ->
  notificationInWindow (page w) = true
  \/ browser (cl_reminderSettings cl) = false ->
  enabled (IntervalFires h) w = true ->
  exists i,
    findInterval h w = Some i /\
    step coerce (IntervalFires h) w
    = commit (state w) (dispatch coerce (IntervalFires h) w).
Proof.
  intros Ht Hm Hapi He. cbn [enabled] in He.
  destruct (findInterval h w) as [i|] eqn:Hf; [|discriminate].
  exists i. split; [reflexivity|].
  destruct (findInterval_inv _ _ _ _ Ht Hf) as (Hi & Hh & Hcb & Href).
  assert (Hd : mounted (decrementWaterLevel cl w) = true /\
               hydrationTip (state (decrementWaterLevel cl w))
               = hydrationTip (state w)).
  { destruct (currentWaterLevel (state w)
              - 100 / (cl_timerDuration cl * 60) <=? 0) eqn:E.
    - split; [apply (decrementWaterLevel_empty_mounted cl w Hm Hapi)|].
      unfold decrementWaterLevel. rewrite E, Href.
      destruct cl as [D [[] [] []]],
        w as [s r [[[]|] n f l t k c z a pl] m];
        cbn in *; subst m; destruct Hapi as [?|?]; try discriminate;
        reflexivity.
    - rewrite (decrementWaterLevel_running cl w E).
      split; [exact Hm|reflexivity]. }
  destruct Hd as [D1 D2].
  apply step_commit; [exact Hm| |]; cbn [dispatch]; rewrite Hf, Hcb;
    [exact D1|now apply renderFails_same].
Qed.

(** The two outcomes of a tick of the interval that runs callback [cl]. *)
Lemma tick_cases (cl : Closure) (w : World) (h : positive) :
  TimerOk cl w ->
  mounted w = true ->
  notificationInWindow (page w) = true
  \/ browser (cl_reminderSettings cl) = false ->
  enabled (IntervalFires h) w = true ->
  let w' := step coerce (IntervalFires h) w in
  let newLevel :=
    currentWaterLevel (state w) - 100 / (cl_timerDuration cl * 60) in
  ((newLevel <=? 0) = true /\
   currentWaterLevel (state w') = 0 /\
   hydrationIntervalRef w' = None /\
   intervals (page w') = [])
  \/
  ((newLevel <=? 0) = false /\
   currentWaterLevel (state w') = newLevel /\
   hydrationIntervalRef w' = hydrationIntervalRef w /\
   intervals (page w') = intervals (page w) /\
   nextTimerId (page w') = nextTimerId (page w) /\
   mounted w' = true /\
   notification (page w') = notification (page w)).
Proof.
  intros Ht Hm Hapi He. cbn zeta.
  cbn [enabled] in He.
  destruct (tick_commit cl w h Ht Hm Hapi He) as (i & Hf & ->).
  cbn [dispatch]. rewrite Hf.
  destruct (findInterval_inv _ _ _ _ Ht Hf) as (Hi & Hh & Hcb & Href).
  rewrite Hcb.
  destruct (currentWaterLevel (state w)
            - 100 / (cl_timerDuration cl * 60) <=? 0) eqn:E; [left|right];
    split; try reflexivity.
  - destruct (decrementWaterLevel_empty cl w h Hm Hapi Href E)
      as (L & Hd & _ & Ho & _ & R & I & _).
    destruct (commit_quiet (state w) _ Hd Ho) as (Q1 & Q2 & Q3 & _).
    rewrite Q1, Q2, Q3, L, R, I, Hi, <- Hh. cbn.
    now rewrite Pos.eqb_refl.
  - rewrite (decrementWaterLevel_running cl w E).
    destruct (commit_quiet (state w) (setCurrentWaterLevel
                (currentWaterLevel (state w)
                 - 100 / (cl_timerDuration cl * 60)) w) eq_refl eq_refl)
      as (Q1 & Q2 & Q3 & _ & _ & _ & _ & Q8).
    rewrite Q1, Q2, Q3, Q8, commit_mounted.
    assert (Hk : timerDepsChanged (state w)
                   (state (setCurrentWaterLevel
                             (currentWaterLevel (state w)
                              - 100 / (cl_timerDuration cl * 60)) w)) = false)
      by (apply timerDepsChanged_same; reflexivity).
    rewrite (commit_keep_eq _ _ Hk).
    destruct (sameValue _ _); repeat split; assumption.
Qed.

(** Everything a tick does in a world the page can reach. *)
Lemma tick_effects (w : World) (h : positive) :
  Inv w ->
  mounted w = true ->
  notificationInWindow (page w) = true
  \/ browser (reminderSettings (state w)) = false ->
  enabled (IntervalFires h) w = true ->
  let D := timerDuration (state w) in
  let newLevel := currentWaterLevel (state w) - 100 / (D * 60) in
  let w' := step coerce (IntervalFires h) w in
  hydrationIntervalRef w = Some h /\
  if newLevel <=? 0 then
    currentWaterLevel (state w') = 0 /\
    hydrationIntervalRef w' = None /\
    intervals (page w') = [] /\
    messageBox (state w')
    = {| message := "Time to drink water!"; visible := true |} /\
    calls (page w')
    = (calls (page w) ++ ClearInterval h
         :: reminderCalls (reminderSettings (state w)) (permission (page w)))%list /\
    timeouts (page w')
    = (timeouts (page w) ++ reminderTimeouts (reminderSettings (state w))
         ++ [HideMessage 5000])%list /\
    (visual (reminderSettings (state w)) = true ->
     bodyContainerFlash (page w') = true)
  else
    currentWaterLevel (state w') = newLevel /\
    hydrationIntervalRef w' = hydrationIntervalRef w /\
    intervals (page w') = intervals (page w) /\
    messageBox (state w') = messageBox (state w) /\
    calls (page w') = calls (page w) /\
    timeouts (page w') = timeouts (page w).
Proof.
  intros [_ _ _ Ht _] Hm Hapi He D newLevel. cbn zeta.
  destruct (tick_commit (closureOf (state w)) w h Ht Hm Hapi He)
    as (i & Hf & ->).
  cbn [dispatch]. rewrite Hf.
  destruct (findInterval_inv _ _ _ _ Ht Hf) as (Hi & Hh & Hcb & Href).
  rewrite Hcb. split; [assumption|].
  destruct (newLevel <=? 0) eqn:E.
  - destruct (decrementWaterLevel_empty (closureOf (state w)) w h Hm Hapi
                Href E)
      as (L & Hd & _ & Ho & M & R & I & _ & _ & C & T & F).
    destruct (commit_quiet (state w) _ Hd Ho)
      as (Q1 & Q2 & Q3 & Q4 & Q5 & Q6 & _).
    rewrite Q1, Q2, Q3, Q4, Q5, Q6, L, M, R, I, C, T, Hi, <- Hh. cbn.
    rewrite Pos.eqb_refl. repeat split. exact F.
  - rewrite (decrementWaterLevel_running (closureOf (state w)) w E).
    cbn [closureOf cl_timerDuration]. fold D newLevel.
    destruct (commit_quiet (state w)
                (setCurrentWaterLevel newLevel w) eq_refl eq_refl)
      as (Q1 & Q2 & Q3 & Q4 & Q5 & _).
    rewrite Q1, Q2, Q3, Q4, Q5. repeat split.
Qed.

Lemma deliver_reachable (evs : list Event) :
  forall w w', reachable coerce w -> deliver coerce evs w = Some w' ->
               reachable coerce w'.
Proof.
  induction evs as [|ev evs IH]; intros w w' Hr; cbn.
  - now intros [= <-].
  - destruct (enabled ev w) eqn:E; [|discriminate].
    destruct (mounted (step coerce ev w)) eqn:M; [|discriminate].
    apply IH. now constructor.
Qed.

(** ** A run of ticks *)

Lemma drained_S (dec lvl : float) (n : nat) :
  drained dec lvl (S n) = drained dec lvl n - dec.
Proof.
  revert lvl. induction n as [|n IH]; intros lvl; [reflexivity|].
  cbn [drained] in *. apply IH.
Qed.

(** As long as no tick empties the body, the level follows [drained] and the
    interval stays as it is. *)
Lemma ticks_drained (cl : Closure) (h : positive) (n : nat) (w : World) :
  TimerOk cl w ->
  mounted w = true ->
  notificationInWindow (page w) = true
  \/ browser (cl_reminderSettings cl) = false ->
  enabled (IntervalFires h) w = true ->
  let dec := 100 / (cl_timerDuration cl * 60) in
  (forall j, (j < n)%nat ->
             (drained dec (currentWaterLevel (state w)) (S j) <=? 0) = false) ->
  let wn := ticks coerce h n w in
  currentWaterLevel (state wn) = drained dec (currentWaterLevel (state w)) n /\
  TimerOk cl wn /\
  enabled (IntervalFires h) wn = true /\
  mounted wn = true /\
  notification (page wn) = notification (page w).
Proof.
  intros Ht Hm Hapi He dec. induction n as [|n IH]; intros Hrun.
  - cbn. auto.
  - destruct IH as (L & T & E & M & P); [intros j Hj; apply Hrun; lia|].
    cbn zeta. cbn [ticks]. cbn zeta in L, T, E, M, P.
    set (wn := ticks coerce h n w) in *.
    assert (Hapi' : notificationInWindow (page wn) = true
                    \/ browser (cl_reminderSettings cl) = false).
    { unfold notificationInWindow in *. now rewrite P. }
    destruct (tick_cases cl wn h T M Hapi' E)
      as [(C & _)|(C & L' & R & I & N & M' & P')].
    + rewrite L, <- drained_S in C. rewrite Hrun in C by lia. discriminate.
    + rewrite L' , L, <- drained_S. split; [reflexivity|]. split; [|split].
      * unfold TimerOk in *. now rewrite I, R, N.
      * cbn [enabled] in *. unfold findInterval in *. now rewrite I.
      * split; [assumption|congruence].
Qed.

(** What a successful run of [ticksToEmpty] has checked. *)
Lemma ticksToEmpty_sound (fuel : nat) (dec : float) :
  forall (lvl : float) (k N : nat),
  ticksToEmpty fuel dec lvl k = Some N ->
  exists n : nat,
    N = (k + S n)%nat /\
    (forall j, (j < n)%nat ->
       (drained dec lvl (S j) <=? 0) = false /\
       (drained dec lvl (S j) <? drained dec lvl j) = true) /\
    (drained dec lvl (S n) <=? 0) = true.
Proof.
  induction fuel as [|fuel IH]; intros lvl k N; cbn [ticksToEmpty];
    [discriminate|].
  destruct (lvl - dec <=? 0) eqn:E.
  - intros [= <-]. exists 0%nat. split; [lia|]. split; [lia|exact E].
  - destruct (lvl - dec <? lvl) eqn:L; [|discriminate].
    intros H. apply IH in H as (n & -> & Hrun & Hend).
    exists (S n). split; [lia|]. split; [|exact Hend].
    intros [|j] Hj; [split; assumption|].
    cbn [drained] in *. apply Hrun. lia.
Qed.

End Reach.


Lemma minutes_range (z : Z) : (30 <= z <= 240)%Z -> In z minutes.
Proof.
  intros Hz. unfold minutes. apply in_map_iff.
  exists (Z.to_nat (z - 30)). split.
  - unfold hydrationTimer_min. lia.
  - apply in_seq. unfold hydrationTimer_max, hydrationTimer_min. lia.
Qed.

(** Every whole number of minutes from 30 to 240, run in binary64. *)
Lemma all_minutes_on_time : forallb emptiesOnTime minutes = true.
Proof. vm_compute. reflexivity. Qed.

Lemma positive_of_descent (x y : float) :
  (x <? y) = true -> (x <=? 0) = false -> (0 <? x) = true.
Proof. intros; float_order. Qed.

Lemma empty_stays_empty (D : float) :
  In D durations -> (0 - 100 / (D * 60) <=? 0) = true.
Proof.
  assert (H : forallb (fun D => 0 - 100 / (D * 60) <=? 0) durations = true)
    by (vm_compute; reflexivity).
  rewrite forallb_forall in H. apply H.
Qed.

Lemma retimedWorld_reachable : reachable noCoercion retimedWorld.
Proof.
  apply (deliver_reachable noCoercion emptyThenRetimed (mount default));
    [apply (reachable_start _ (Some default))|].
  vm_compute. reflexivity.
Qed.

(** ** The slider's durations *)

Lemma durations_range (D : float) :
  In D durations ->
  exists z : Z, (30 <= z <= 240)%Z /\ D = of_Z z.
Proof.
  intros H. apply in_map_iff in H as (z & <- & Hz). exists z. split; [|reflexivity].
  assert (Hall : forallb (fun z => (30 <=? z)%Z && (z <=? 240)%Z) sliderValues
                 = true) by (vm_compute; reflexivity).
  rewrite forallb_forall in Hall. specialize (Hall z Hz).
  apply andb_prop in Hall as [H1 H2]. apply Z.leb_le in H1, H2. lia.
Qed.

Lemma decrement_finite (D : float) :
  In D durations -> (100 / (D * 60) <? infinity) = true.
Proof.
  assert (H : forallb (fun D => 100 / (D * 60) <? infinity) durations = true)
    by (vm_compute; reflexivity).
  rewrite forallb_forall in H. apply H.
Qed.

(** ** The length of an array as a number *)

Module LengthFacts.

Local Open Scope Z_scope.

(** The integer [z] as a number, when [z] fits 63 bits. *)
Lemma Prim2SF_of_Z (z : Z) :
  (0 <= z < 2 ^ 63)%Z ->
  Prim2SF (of_Z z) = binary_normalize prec emax z 0 false.
Proof.
  intros Hz. unfold of_Z.
  rewrite (Uint63.is_int z)
    by (change (Uint63Axioms.to_Z Uint63Axioms.digits) with 63%Z; lia).
  now rewrite <- of_uint63_spec, SF2Prim_Prim2SF.
Qed.

Ltac fexp_lia :=
  unfold SpecFloat.fexp, emin, prec, emax;
  change IntDef.Z.max with Z.max; change IntDef.Z.sub with Z.sub;
  change IntDef.Z.add with Z.add; lia.

Lemma binary_round_positive (p : positive) :
  (Zpos p < 2 ^ 53)%Z ->
  SFltb (S754_zero false) (binary_round prec emax false p 0) = true.
Proof.
  intros Hp. unfold binary_round.
  destruct (shl_align_spec p 0 (SpecFloat.fexp prec emax (Zpos (digits2_pos p) + 0)))
    as [H1 H2].
  destruct (shl_align p 0 _) as [mz ez]. cbn [fst snd] in H1, H2.
  rewrite <- H1 in H2.
  assert (Hd : Zpos (digits2_pos p) <= 53)
    by (apply (Zdigits2_le_pow (Zpos p)); lia).
  assert (Hez : ez = Zpos (digits2_pos p) - 53).
  { rewrite H1. fexp_lia. }
  assert (Hmz : Zdigits2 (Zpos mz) <= 53).
  { pose proof (digits_scaled_bound (Zpos mz) p (0 - ez)). lia. }
  destruct (binary_round_aux_exact false (Zpos mz) ez)
    as (m1 & s1 & s2 & Hs1 & Hm1 & Hs2 & ->); [lia|].
  assert (s1 = 0) by (revert Hs1; fexp_lia).
  clear Hs1. subst s1. assert (m1 = Zpos mz).
  { destruct Hm1 as [->|[? _]]; [|lia]. now rewrite Z.pow_0_r, Z.div_1_r. }
  subst m1. assert (s2 = 0) by (revert Hs2; fexp_lia).
  clear Hs2. subst s2. rewrite Z.pow_0_r, Z.div_1_r.
  destruct (_ <=? _); reflexivity.
Qed.


Lemma of_Z_positive (z : Z) :
  (0 < z < 2 ^ 53)%Z -> (0 <? of_Z z)%float = true.
Proof.
  intros Hz. rewrite ltb_spec.
  rewrite Prim2SF_of_Z.
  2:{ split; [lia|]. apply Z.lt_trans with (2 ^ 53); [lia|reflexivity]. }
  destruct z as [|p|p]; [lia| |lia].
  apply binary_round_positive. lia.
Qed.

End LengthFacts.

Import LengthFacts.

(** The [length] of a non-empty array is [> 0]. *)
Lemma greaterThanZero_length (coerce : value -> float) (A : Type)
  (l : list A) :
  l <> [] -> (Z.of_nat (List.length l) < 2 ^ 32)%Z ->
  greaterThanZero coerce (VNumber (of_Z (Z.of_nat (List.length l)))) = true.
Proof.
  intros Hl Hb. unfold greaterThanZero, ToNumber. apply of_Z_positive.
  destruct l; [contradiction|]. cbn [List.length] in *. split; [lia|].
  apply Z.lt_trans with (2 ^ 32)%Z; [assumption|reflexivity].
Qed.

Lemma greaterThanZero_empty (coerce : value -> float) :
  greaterThanZero coerce (VNumber (of_Z (Z.of_nat 0))) = false.
Proof. reflexivity. Qed.

Lemma durations_positive (D : float) : In D durations -> (0 <? D) = true.
Proof.
  assert (H : forallb (fun D => 0 <? D) durations = true)
    by (vm_compute; reflexivity).
  rewrite forallb_forall in H. apply H.
Qed.

(** ** What React leaves alone *)

Section Steps.

Variable coerce : value -> float.

Lemma step_frame (ev : Event) (w : World) :
  let w1 := dispatch coerce ev w in
  let w' := step coerce ev w in
  timeouts (page w') = timeouts (page w1) /\
  fetches (page w') = fetches (page w1) /\
  permissionRequests (page w') = permissionRequests (page w1) /\
  notification (page w') = notification (page w1) /\
  bodyContainerFlash (page w') = bodyContainerFlash (page w1) /\
  plays (page w') = plays (page w1).
Proof.
  cbn zeta. unfold step, rerender, unmount, commit, timerCleanup,
    startHydrationTimer.
  destruct (mounted w), (dispatch coerce ev w) as [s [h|] b [|]];
    cbn [negb mounted state];
    repeat match goal with
           | |- context [if ?c then _ else _] => destruct c
           end; repeat split.
Qed.

(** The tip is written by the tip fetcher and by "Reset All" only. *)
Lemma dispatch_tip (ev : Event) (w : World) :
  match ev with
  | TipArrives _ => True
  | GetTip | ResetAll =>
      hydrationTip (state (dispatch coerce ev w)) = VString ""
  | _ => hydrationTip (state (dispatch coerce ev w)) = hydrationTip (state w)
  end.
Proof.
  destruct ev as [h|n|v|b|id checked| | | |o|answer|rejected];
    cbn [dispatch]; try exact I.
  - destruct (findInterval h w) as [i|]; [|reflexivity].
    unfold decrementWaterLevel. destruct (_ <=? 0); [|reflexivity].
    destruct (callback i) as [D [[] [] []]],
      w as [s [r|] [[[]|] ? ? ? ? ? ? ? ? ?] [|]]; reflexivity.
  - destruct (nth_error (timeouts (page w)) n) as [[d|d]|]; reflexivity.
  - reflexivity.
  - reflexivity.
  - destruct w as [s r [[[]|] ? ? ? ? ? ? ? ? ?] m], id, checked;
      reflexivity.
  - destruct w as [s [h|] b m]; reflexivity.
  - destruct w as [s [h|] b m]; reflexivity.
  - reflexivity.
  - destruct answer; reflexivity.
  - destruct rejected; reflexivity.
Qed.

(** The render after any event but a response of the tip service goes
    through. *)
Lemma render_succeeds (ev : Event) (w : World) :
  (forall o, ev <> TipArrives o) ->
  renderFails (state w) (state (dispatch coerce ev w)) = false.
Proof.
  intros Hev. pose proof (dispatch_tip ev w) as H.
  destruct ev; try (now apply renderFails_same);
    try (apply renderFails_renderable; now rewrite H).
  now elim (Hev o).
Qed.

(** A step on any event but a tick or a response: the handler, then the
    effects. *)
Lemma step_event (ev : Event) (w : World) :
  mounted w = true ->
  (forall h, ev <> IntervalFires h) -> (forall o, ev <> TipArrives o) ->
  step coerce ev w = commit (state w) (dispatch coerce ev w).
Proof.
  intros Hm H1 H2. apply step_commit; [assumption| |].
  - now rewrite (proj1 (dispatch_mounted coerce ev w H1)).
  - now apply render_succeeds.
Qed.

(** The same in any world: nothing is rendered for a page that is gone. *)
Lemma step_any (ev : Event) (w : World) :
  (forall h, ev <> IntervalFires h) -> (forall o, ev <> TipArrives o) ->
  step coerce ev w
  = if mounted w then commit (state w) (dispatch coerce ev w)
    else dispatch coerce ev w.
Proof.
  intros H1 H2. destruct (mounted w) eqn:Hm; [now apply step_event|].
  unfold step, rerender. now rewrite Hm.
Qed.

(** The timer as the handlers other than the tick and the two buttons leave
    it. *)
Lemma dispatch_timer (ev : Event) (w : World) :
  match ev with
  | IntervalFires _ | DrinkNow | ResetAll => True
  | _ =>
      intervals (page (dispatch coerce ev w)) = intervals (page w) /\
      hydrationIntervalRef (dispatch coerce ev w) = hydrationIntervalRef w /\
      calls (page (dispatch coerce ev w))
      = (calls (page w)
           ++ match ev with
              | ReminderChange reminderBrowser true =>
                  match notification (page w) with
                  | Some default => [RequestPermission]
                  | _ => []
                  end
              | GetTip => [Fetch]
              | TipArrives _ | PlaySettles _ =>
                  skipn (List.length (calls (page w)))
                    (calls (page (dispatch coerce ev w)))
              | _ => []
              end)%list
  end.
Proof.
  destruct ev as [h|n|v|b|id checked| | | |o|answer|rejected];
    cbn [dispatch]; try exact I.
  - destruct (nth_error (timeouts (page w)) n) as [[d|d]|]; cbn;
      now rewrite app_nil_r.
  - cbn. now rewrite app_nil_r.
  - cbn. now rewrite app_nil_r.
  - destruct w as [s r [[[]|] ? ? ? ? ? ? ? ? ?] m], id, checked; cbn;
      rewrite ?app_nil_r; repeat split.
  - repeat split.
  - unfold getHydrationTip_resume.
    destruct (tryTip coerce o _) as [w'|] eqn:E.
    + apply tryTip_normal in E as [t [-> | ->]]; cbn;
        rewrite ?skipn_app, ?skipn_all, ?Nat.sub_diag; cbn;
        rewrite ?app_nil_r; repeat split.
    + cbn. rewrite ?skipn_app, ?skipn_all, ?Nat.sub_diag. repeat split.
  - destruct answer; cbn; now rewrite app_nil_r.
  - destruct rejected; cbn;
      rewrite ?skipn_app, ?skipn_all, ?Nat.sub_diag, ?app_nil_r;
      repeat split.
Qed.

(** The tick that throws. In a browser without the Notification API and with
    the browser channel on, the tick whose result is [<= 0] cancels the task
    and resets the reference; then [sendBrowserNotification] throws: neither
    the other reminders nor the message follow, the level keeps its value,
    and React unmounts the page. *)
Lemma tick_aborted (w : World) (h : positive) :
  Inv w ->
  mounted w = true ->
  notificationInWindow (page w) = false ->
  browser (reminderSettings (state w)) = true ->
  enabled (IntervalFires h) w = true ->
  (currentWaterLevel (state w) - 100 / (timerDuration (state w) * 60) <=? 0)
  = true ->
  let w' := step coerce (IntervalFires h) w in
  mounted w' = false /\
  state w' = state w /\
  intervals (page w') = [] /\
  hydrationIntervalRef w' = None /\
  calls (page w') = (calls (page w) ++ [ClearInterval h])%list /\
  timeouts (page w') = timeouts (page w) /\
  bodyContainerFlash (page w') = bodyContainerFlash (page w) /\
  plays (page w') = plays (page w).
Proof.
  intros [_ _ _ Ht _] Hm Hn Hb He E. cbn zeta. cbn [enabled] in He.
  unfold step. cbn [dispatch].
  destruct (findInterval h w) as [i|] eqn:Hf; [|discriminate].
  destruct (findInterval_inv _ _ _ _ Ht Hf) as (Hi & Hh & Hcb & Href).
  rewrite Hcb.
  rewrite (decrementWaterLevel_aborted (closureOf (state w)) w h Hm Hn Hb
             Href E).
  unfold rerender. rewrite Hm. cbn. rewrite Hi. cbn.
  rewrite Hh, Pos.eqb_refl. repeat split.
Qed.

End Steps.

(** ** While the interval is stopped *)

Lemma leb_refl (x : float) : (0 <=? x) = true -> (x <=? x) = true.
Proof. intros; float_order. Qed.

Section Stopped.

Variable coerce : value -> float.

(** A tick whose result is positive. *)
Lemma tick_running (cl : Closure) (w : World) (h : positive) :
  TimerOk cl w ->
  mounted w = true ->
  enabled (IntervalFires h) w = true ->
  let newLevel :=
    currentWaterLevel (state w) - 100 / (cl_timerDuration cl * 60) in
  (newLevel <=? 0) = false ->
  step coerce (IntervalFires h) w
  = commit (state w) (setCurrentWaterLevel newLevel w).
Proof.
  intros Ht Hm He newLevel E. cbn [enabled] in He.
  destruct (findInterval h w) as [i|] eqn:Hf; [|discriminate].
  destruct (findInterval_inv _ _ _ _ Ht Hf) as (Hi & Hh & Hcb & Href).
  assert (Hd : dispatch coerce (IntervalFires h) w
               = setCurrentWaterLevel newLevel w).
  { cbn [dispatch]. rewrite Hf, Hcb.
    now apply decrementWaterLevel_running. }
  rewrite <- Hd. apply step_commit; [assumption|now rewrite Hd|].
  rewrite Hd. now apply renderFails_same.
Qed.

(** Whether the handler of an event changes a dependency of the timer
    effect. *)
Lemma dispatch_deps (ev : Event) (w : World) :
  (forall h, ev <> IntervalFires h) ->
  timerDepsChanged (state w) (state (dispatch coerce ev w))
  = match ev with
    | DrinkNow => false
    | _ => restarts ev w
    end.
Proof.
  intros Hev. unfold timerDepsChanged.
  destruct ev as [h|n|v|b|id checked| | | |o|answer|rejected];
    cbn [dispatch restarts].
  - now elim (Hev h).
  - destruct (nth_error (timeouts (page w)) n) as [[d|d]|]; cbn;
      now rewrite sameValue_refl, Pos.eqb_refl.
  - cbn. now rewrite Pos.eqb_refl, orb_false_r.
  - cbn. now rewrite sameValue_refl, Pos.eqb_refl.
  - destruct (handleReminderChange_frame id checked w)
      as (_ & -> & _ & _ & _ & _ & ->).
    now rewrite succ_neqb, orb_true_r.
  - destruct w as [s [h|] b m]; cbn;
      now rewrite sameValue_refl, Pos.eqb_refl.
  - destruct w as [s [h|] b m]; cbn; now rewrite succ_neqb, orb_true_r.
  - cbn. now rewrite sameValue_refl, Pos.eqb_refl.
  - unfold getHydrationTip_resume.
    destruct (tryTip coerce o _) as [w'|] eqn:E.
    + apply tryTip_normal in E as [t [-> | ->]]; cbn;
        now rewrite sameValue_refl, Pos.eqb_refl.
    + cbn. now rewrite sameValue_refl, Pos.eqb_refl.
  - destruct answer; cbn;
      rewrite sameValue_refl, ?Pos.eqb_refl, ?succ_neqb; reflexivity.
  - destruct rejected; cbn; now rewrite sameValue_refl, Pos.eqb_refl.
Qed.

(** Once no task is live, only a restarting event brings one back. *)
Lemma stopped_until_restart (ev : Event) (w : World) :
  Inv w -> mounted w = true ->
  intervals (page w) = [] ->
  enabled ev w = true ->
  intervals (page (step coerce ev w)) = [] <-> restarts ev w = false.
Proof.
  intros HI Hm Hi He. pose proof (inv_timer _ HI) as Ht.
  assert (Href : hydrationIntervalRef w = None)
    by (unfold TimerOk in Ht; now rewrite Hi in Ht).
  assert (Hev : forall h, ev <> IntervalFires h).
  { intros h ->. cbn [enabled] in He. unfold findInterval in He.
    rewrite Hi in He. discriminate. }
  destruct (dispatch_mounted coerce ev w Hev) as [Hm1 _].
  rewrite Hm in Hm1.
  assert (Hkeep : match ev with
                  | IntervalFires _ | DrinkNow | ResetAll => True
                  | _ => intervals (page (dispatch coerce ev w)) = []
                         /\ hydrationIntervalRef (dispatch coerce ev w) = None
                  end).
  { pose proof (dispatch_timer coerce ev w) as H.
    destruct ev; try exact I; destruct H as (-> & -> & _); auto. }
  pose proof (dispatch_mid coerce ev w HI He Hm Hm1) as [_ _ _ Ht1 _ _].
  pose proof (dispatch_deps ev w Hev) as Hd.
  unfold step, rerender. rewrite Hm, Hm1. cbn [negb].
  destruct (renderFails (state w) (state (dispatch coerce ev w))) eqn:R.
  - (* only a response can fail to render *)
    destruct ev as [h|n|v|b|id checked| | | |o|answer|rejected];
      try (rewrite render_succeeds in R by (intros ?; discriminate);
           discriminate).
    destruct Hkeep as [I1 R1].
    unfold unmount, timerCleanup. rewrite R1. cbn [intervals page setMounted].
    rewrite I1. split; reflexivity.
  - destruct (timerDepsChanged (state w) (state (dispatch coerce ev w)))
      eqn:D.
    + destruct (commit_restart _ _ _ Ht1 D) as (_ & C2 & _). rewrite C2.
      split; [discriminate|]. intros Hr. exfalso. clear - Hd Hr.
      destruct ev; cbv beta iota in Hd; try discriminate Hd;
        rewrite Hr in Hd; discriminate Hd.
    + destruct (commit_keep _ _ D) as (_ & C2 & _). rewrite C2.
      destruct ev as [h|n|v|b|id checked| | | |o|answer|rejected];
        [now elim (Hev h)| | | | | | | | | |].
      5: { (* DrinkNow *)
        cbn [dispatch restarts]. unfold resetHydration.
        destruct (startHydrationTimer_spec (closureOf (state w))
                    (setCurrentWaterLevel 100 w)) as (S1 & _).
        { cbn. rewrite Hi. intros i []. }
        pose proof (showMessage_frame "Hydration reset! Drink up!" 2000
                      (startHydrationTimer (closureOf (state w))
                         (setCurrentWaterLevel 100 w))) as F.
        cbn zeta in F. destruct F as (_ & _ & _ & _ & F5 & _).
        rewrite F5, S1. split; discriminate. }
      5: { (* ResetAll *) cbn [restarts] in Hd. discriminate Hd. }
      all: destruct Hkeep as [I1 _]; rewrite I1;
        split; [intros _; symmetry; exact Hd|reflexivity].
Qed.

End Stopped.

(** * The claims *)

Set Warnings "-inexact-float".

(** C4: the fill colour is a function of the water level alone, with
    thresholds at 30 and 60: below 30 it is the alert colour [#ef4444], from
    30 up to but excluding 60 the warning colour [#f97316], from 60 on the
    normal colour [#60a5fa]; 29.9 is alert, 30.0 warning, 59.9 warning and
    60.0 normal. The 3D model and the 3D page choose by the same thresholds,
    and in every world the page can reach the fill element carries the colour
    of the current level. *)
Theorem C4_fill_color (x : float) :
  ((x <? 30) = true -> waterFillColor x = "#ef4444") /\
  ((30 <=? x) = true -> (x <? 60) = true -> waterFillColor x = "#f97316") /\
  ((60 <=? x) = true -> waterFillColor x = "#60a5fa") /\
  waterFillColor 29.9 = "#ef4444" /\
  waterFillColor 30.0 = "#f97316" /\
  waterFillColor 59.9 = "#f97316" /\
  waterFillColor 60.0 = "#60a5fa" /\
  Model_color x = waterFillColor x /\
  (waterFillColor x = "#ef4444" <-> materialHex x = 0xef4444%Z) /\
  (waterFillColor x = "#f97316" <-> materialHex x = 0xf97316%Z) /\
  (waterFillColor x = "#60a5fa" <-> materialHex x = 0x60a5fa%Z) /\
  (forall coerce w,
     reachable coerce w ->
     waterFillBackground (page w)
     = waterFillColor (currentWaterLevel (state w))).
Proof.
  unfold waterFillColor, Model_color, materialHex.
  repeat split; try reflexivity.
  - now intros ->.
  - intros H30 H60. now rewrite (at_least_30 _ H30), H60.
  - intros H. destruct (at_least_60 _ H) as [-> ->]. reflexivity.
  - destruct (x <? 30); [reflexivity|]. destruct (x <? 60); discriminate.
  - destruct (x <? 30); [reflexivity|]. destruct (x <? 60); discriminate.
  - destruct (x <? 30); [discriminate|]. destruct (x <? 60); [reflexivity|discriminate].
  - destruct (x <? 30); [discriminate|]. destruct (x <? 60); [reflexivity|discriminate].
  - destruct (x <? 30); [discriminate|]. destruct (x <? 60); [discriminate|reflexivity].
  - destruct (x <? 30); [discriminate|]. destruct (x <? 60); [discriminate|reflexivity].
  - intros coerce w H. apply (inv_color _ (reachable_inv coerce w H)).
Qed.

(** C5: after "Reset All", whatever the world before, the water level is
    100, the duration 60, the body type generic, the three reminder channels
    off and the tip the empty string. *)
Theorem C5_reset_all (coerce : value -> float) (w : World) :
  let w' := step coerce ResetAll w in
  currentWaterLevel (state w') = 100 /\
  timerDuration (state w') = 60 /\
  selectedBodyType (state w') = "generic" /\
  reminderSettings (state w')
  = {| browser := false; sound := false; visual := false |} /\
  hydrationTip (state w') = VString "".
Proof.
  cbn zeta. rewrite !step_state. cbn [dispatch].
  unfold resetAll, resetHydration, startHydrationTimer.
  destruct w as [s [h|] b m]; repeat split.
Qed.

(** ** Sessions used as examples *)

Lemma emptiedWorld_reachable : reachable noCoercion emptiedWorld.
Proof.
  apply (deliver_reachable noCoercion
           (ReminderChange reminderSound true
            :: TimerChange "30" :: repeat (IntervalFires 3) 1800)
           (mount default));
    [apply (reachable_start _ (Some default))|].
  vm_compute. reflexivity.
Qed.

Lemma unsupportedFull_reachable : reachable noCoercion unsupportedFull.
Proof.
  apply reachable_step; [|reflexivity|vm_compute; reflexivity].
  apply reachable_step; [|reflexivity|vm_compute; reflexivity].
  apply reachable_start.
Qed.

Lemma unsupportedLastDrop_reachable :
  reachable noCoercion unsupportedLastDrop.
Proof.
  apply (deliver_reachable noCoercion lastDropEvents unsupportedFull);
    [exact unsupportedFull_reachable|].
  vm_compute. reflexivity.
Qed.

Lemma unsupportedEmpty_reachable : reachable noCoercion unsupportedEmpty.
Proof.
  apply (deliver_reachable noCoercion
           (TimerChange "30"
            :: (repeat (IntervalFires 2) 1800
                  ++ [ReminderChange reminderBrowser true])%list)
           (start None)); [apply reachable_start|].
  vm_compute. reflexivity.
Qed.

(** C1 fails in a browser without the Notification API. There
    [requestNotificationPermission] tests for the API and leaves the browser
    reminder checked, while [sendBrowserNotification] reads
    [Notification.permission] without a test. With the reminder checked and
    the slider at 30 minutes, tick 1800 computes a value [<= 0], cancels the
    task and throws: the level keeps its positive value instead of becoming
    0, no "Time to drink water!" is shown (the message box stays hidden and
    no timeout is set), and React unmounts the page. *)
Lemma C1_failing_input :
  let w := unsupportedLastDrop in
  let w' := step noCoercion (IntervalFires 4) w in
  reachable noCoercion w /\
  notificationInWindow (page w) = false /\
  browser (reminderSettings (state w)) = true /\
  enabled (IntervalFires 4) w = true /\
  (currentWaterLevel (state w) - 100 / (timerDuration (state w) * 60) <=? 0)
  = true /\
  currentWaterLevel (state w') = currentWaterLevel (state w) /\
  (0 <? currentWaterLevel (state w')) = true /\
  messageBox (state w') = {| message := ""; visible := false |} /\
  calls (page w') = (calls (page w) ++ [ClearInterval 4])%list /\
  timeouts (page w') = [] /\
  intervals (page w') = [] /\
  hydrationIntervalRef w' = None /\
  mounted w' = false.
Proof.
  cbn zeta. split; [exact unsupportedLastDrop_reachable|].
  vm_compute. repeat split.
Qed.

(** C3 fails in the same browser, by the same defect. From level 100 at 30
    minutes with the browser reminder checked the level falls for 1799
    ticks; tick 1800 throws, so that the level stays at its last positive
    value, the task is gone and no later tick can bring the level to 0. *)
Lemma C3_failing_input :
  let w := unsupportedFull in
  let last := ticks noCoercion 4 1800 w in
  reachable noCoercion w /\
  currentWaterLevel (state w) = 100 /\
  timerDuration (state w) = 30 /\
  map handle (intervals (page w)) = [4%positive] /\
  (0 <? currentWaterLevel (state last)) = true /\
  currentWaterLevel (state last)
  = currentWaterLevel (state (ticks noCoercion 4 1799 w)) /\
  mounted last = false /\
  intervals (page last) = [] /\
  enabled (IntervalFires 4) last = false /\
  currentWaterLevel (state (ticks noCoercion 4 1801 w))
  = currentWaterLevel (state last).
Proof.
  cbn zeta. split; [exact unsupportedFull_reachable|].
  vm_compute. repeat split.
Qed.

(** C10 fails in the same browser, by the same defect. The body is emptied
    with all reminders off; checking the browser reminder afterwards starts
    interval 5 at level 0. Its tick computes a value [<= 0], cancels the
    task and throws: no reminder runs, "Time to drink water!" is not shown
    again, and React unmounts the page. *)
Lemma C10_failing_input :
  let w := unsupportedEmpty in
  let w' := step noCoercion (IntervalFires 5) w in
  reachable noCoercion w /\
  currentWaterLevel (state w) = 0 /\
  notificationInWindow (page w) = false /\
  browser (reminderSettings (state w)) = true /\
  enabled (IntervalFires 5) w = true /\
  (0 - 100 / (timerDuration (state w) * 60) <=? 0) = true /\
  messageBox (state w') = messageBox (state w) /\
  messageBox (state w')
  = {| message := "This browser does not support desktop notifications.";
       visible := true |} /\
  calls (page w') = (calls (page w) ++ [ClearInterval 5])%list /\
  timeouts (page w') = timeouts (page w) /\
  intervals (page w') = [] /\
  mounted w' = false.
Proof.
  cbn zeta. split; [exact unsupportedEmpty_reachable|].
  vm_compute. repeat split.
Qed.

(** C2, as the claim states it, fails: ticking does not stay stopped until an
    explicit restart. In the world in which tick 1800 has set the level to 0
    and stopped the interval, checking the visual reminder makes the timer
    effect run again: interval 5 is live at level 0, and its tick shows
    "Time to drink water!" once more. *)
Lemma C2_counterexample :
  let w := emptiedWorld in
  let w1 := step noCoercion (ReminderChange reminderVisual true) w in
  let w2 := step noCoercion (IntervalFires 5) w1 in
  reachable noCoercion w /\
  currentWaterLevel (state w) = 0 /\
  intervals (page w) = [] /\
  currentWaterLevel (state w1) = 0 /\
  map handle (intervals (page w1)) = [5%positive] /\
  enabled (IntervalFires 5) w1 = true /\
  calls (page w2)
  = (calls (page w1) ++ [ClearInterval 5; AudioPlay])%list /\
  timeouts (page w2)
  = (timeouts (page w1) ++ [RemoveFlash 2000; HideMessage 5000])%list.
Proof.
  cbn zeta. split; [exact emptiedWorld_reachable|].
  vm_compute. repeat split.
Qed.

(** C2, amended: in every world the page can reach the water level lies in
    [[0,100]] and is never negative; it starts at 100; a tick never raises
    it: it lowers it to the decremented value, or sets it to 0 (or, where
    the tick throws, leaves it as it is); a tick whose decremented value is
    [<= 0] leaves no recurring task and a null handle, so that no tick can
    follow. Ticking then stays stopped until one of these events starts the
    interval again, and each of them does: "Drink Now", "Reset All", a
    change of the duration, any change of a reminder checkbox, and a
    permission request that is not granted. *)
Theorem C2_level_range (coerce : value -> float) (w : World) :
  reachable coerce w ->
  (0 <=? currentWaterLevel (state w)) = true /\
  (currentWaterLevel (state w) <=? 100) = true /\
  (currentWaterLevel (state w) <? 0) = false /\
  (forall n, currentWaterLevel (state (start n)) = 100) /\
  (forall h,
     enabled (IntervalFires h) w = true ->
     let w' := step coerce (IntervalFires h) w in
     let newLevel :=
       currentWaterLevel (state w) - 100 / (timerDuration (state w) * 60) in
     (currentWaterLevel (state w') <=? currentWaterLevel (state w)) = true /\
     (currentWaterLevel (state w') = newLevel
      \/ currentWaterLevel (state w') = 0
      \/ (mounted w' = false
          /\ currentWaterLevel (state w') = currentWaterLevel (state w))) /\
     ((newLevel <=? 0) = true ->
      intervals (page w') = [] /\
      hydrationIntervalRef w' = None /\
      forall h', enabled (IntervalFires h') w' = false)) /\
  (intervals (page w) = [] ->
   forall ev, enabled ev w = true ->
     (intervals (page (step coerce ev w)) = [] <-> restarts ev w = false)).
Proof.
  intros Hr. pose proof (reachable_inv coerce w Hr) as HI.
  pose proof (reachable_mounted coerce w Hr) as Hm.
  pose proof HI as [Hlo Hhi Hdur Ht Hc].
  split; [assumption|]. split; [assumption|].
  split; [exact (leb_not_ltb _ _ Hlo)|]. split; [reflexivity|]. split.
  - intros h He. cbn zeta.
    set (newLevel :=
           currentWaterLevel (state w)
           - 100 / (timerDuration (state w) * 60)).
    assert (Hstop : forall w',
              intervals (page w') = [] ->
              forall h', enabled (IntervalFires h') w' = false).
    { intros w' I h'. cbn. unfold findInterval. now rewrite I. }
    destruct (newLevel <=? 0) eqn:E.
    + destruct (notificationInWindow (page w)) eqn:Hn;
        [|destruct (browser (reminderSettings (state w))) eqn:Hb].
      * destruct (tick_effects coerce w h HI Hm (or_introl Hn) He) as [_ H].
        cbn zeta in H. fold newLevel in H. rewrite E in H.
        destruct H as (L & R & I & _). rewrite L.
        split; [assumption|]. split; [now right; left|]. auto.
      * destruct (tick_aborted coerce w h HI Hm Hn Hb He E)
          as (M & S & I & R & _).
        rewrite S. split; [now apply leb_refl|].
        split; [right; right; now split|]. auto.
      * destruct (tick_effects coerce w h HI Hm (or_intror Hb) He) as [_ H].
        cbn zeta in H. fold newLevel in H. rewrite E in H.
        destruct H as (L & R & I & _). rewrite L.
        split; [assumption|]. split; [now right; left|]. auto.
    + rewrite (tick_running coerce (closureOf (state w)) w h Ht Hm He E).
      rewrite commit_state. cbn.
      destruct (tick_level _ _ Hdur Hlo Hhi) as (T1 & _ & _).
      split; [exact T1|]. split; [now left|]. discriminate.
  - intros Hi ev He. now apply stopped_until_restart.
Qed.

Lemma C2_level_range_witness :
  let w' := step noCoercion (IntervalFires 1) (mount default) in
  (currentWaterLevel (state w') <=? currentWaterLevel (state (mount default)))
  = true /\
  currentWaterLevel (state w') = 100 - 100 / (60 * 60).
Proof.
  cbn zeta.
  destruct (C2_level_range noCoercion (mount default)
              (reachable_start _ (Some default)))
    as (_ & _ & _ & _ & H & _).
  destruct (H 1%positive eq_refl) as (H1 & [H2|[H2|[H2 _]]] & _).
  - split; [exact H1|exact H2].
  - exfalso. revert H2. vm_compute. intros E.
    apply (f_equal (fun x => x <=? 0)) in E. vm_compute in E. discriminate.
  - exfalso. revert H2. vm_compute. discriminate.
Defined.

(** C9: at most one recurring task is live at any time, and it is the one
    the handle refers to. Changing the duration cancels the previous handle
    (the effect's cleanup and [startHydrationTimer] both call
    [clearInterval] on it, and on nothing else) and then starts exactly one
    new task, with a handle never used before, that runs with the new
    duration from the unchanged water level. "Drink Now" cancels the previous
    handle and starts exactly one new task from level 100. ("Reset All" is
    "Drink Now" followed by the restart that the changed settings cause: two
    such replacements in a row, with one task live at the end.)

    No tick can run inside a handler, so the worlds between events are all
    the moments at which a task can fire. *)
Theorem C9_single_timer (coerce : value -> float) (w : World) :
  reachable coerce w ->
  (List.length (intervals (page w)) <= 1)%nat /\
  (forall i, In i (intervals (page w)) ->
     hydrationIntervalRef w = Some (handle i) /\
     (handle i < nextTimerId (page w))%positive) /\
  (forall value,
     enabled (TimerChange value) w = true ->
     parseInt value <> timerDuration (state w) ->
     let w' := step coerce (TimerChange value) w in
     intervals (page w')
     = [{| handle := nextTimerId (page w);
           callback := closureOf (state w') |}] /\
     hydrationIntervalRef w' = Some (nextTimerId (page w)) /\
     calls (page w')
     = (calls (page w) ++ cancel (hydrationIntervalRef w)
          ++ cancel (hydrationIntervalRef w)
          ++ [SetInterval (nextTimerId (page w)); ConsoleLog])%list /\
     timerDuration (state w') = parseInt value /\
     currentWaterLevel (state w') = currentWaterLevel (state w)) /\
  (let w' := step coerce DrinkNow w in
   intervals (page w')
   = [{| handle := nextTimerId (page w); callback := closureOf (state w) |}] /\
   hydrationIntervalRef w' = Some (nextTimerId (page w)) /\
   calls (page w')
   = (calls (page w) ++ cancel (hydrationIntervalRef w)
        ++ [SetInterval (nextTimerId (page w)); ConsoleLog])%list /\
   currentWaterLevel (state w') = 100) /\
  (let w' := step coerce ResetAll w in
   let n := nextTimerId (page w) in
   let n' := Pos.succ (Pos.succ (Pos.succ n)) in
   intervals (page w') = [{| handle := n'; callback := closureOf (state w') |}] /\
   hydrationIntervalRef w' = Some n' /\
   calls (page w')
   = (calls (page w) ++ cancel (hydrationIntervalRef w)
        ++ [SetInterval n; ConsoleLog; ClearInterval n; ClearInterval n;
            SetInterval n'; ConsoleLog])%list).
Proof.
  intros Hr. pose proof (reachable_inv coerce w Hr) as [_ _ _ Ht _].
  pose proof (reachable_mounted coerce w Hr) as Hm.
  assert (Hall : forall i, In i (intervals (page w)) ->
            hydrationIntervalRef w = Some (handle i) /\
            (handle i < nextTimerId (page w))%positive).
  { unfold TimerOk in Ht. destruct (intervals (page w)) as [|j [|k l]];
      try easy. intros i [<-|[]]. split; apply Ht. }
  split.
  { unfold TimerOk in Ht. destruct (intervals (page w)) as [|j [|k l]];
      cbn; solve [lia | contradiction]. }
  split; [exact Hall|]. split; [|split].
  - intros value _ Hne w'. subst w'.
    rewrite (step_event coerce _ w Hm) by (intros ? ?; discriminate).
    cbn [dispatch].
    unfold handleTimerChange.
    set (w1 := setTimerDuration (parseInt value) w).
    assert (Hd : timerDepsChanged (state w) (state w1) = true).
    { unfold timerDepsChanged. apply orb_true_iff. left.
      apply negb_true_iff, not_true_iff_false. intros E.
      apply sameValue_true in E. cbn in E. congruence. }
    assert (Ht1 : TimerOk (closureOf (state w)) w1) by exact Ht.
    destruct (commit_restart _ _ _ Ht1 Hd) as (C1 & C2 & C3 & _).
    rewrite C1, C2, C3, (commit_restart_calls _ _ Hd). repeat split.
  - cbn zeta.
    rewrite (step_event coerce _ w Hm) by (intros ? ?; discriminate).
    cbn [dispatch]. unfold resetHydration.
    destruct (startHydrationTimer_spec (closureOf (state w))
                (setCurrentWaterLevel 100 w)) as (S1 & S2 & S3 & S4 & S5).
    { intros i Hi. now apply Hall. }
    pose proof (startHydrationTimer_calls (closureOf (state w))
                  (setCurrentWaterLevel 100 w)) as SC.
    set (w1 := startHydrationTimer _ _) in *. clearbody w1.
    destruct (commit_quiet (state w)
                (showMessage "Hydration reset! Drink up!" 2000 w1))
      as (Q1 & Q2 & Q3 & _ & Q5 & _);
      [cbn; now rewrite S4..|].
    rewrite Q1, Q2, Q3, Q5. cbn. rewrite S1, S2, S4, SC. repeat split.
  - cbn zeta.
    rewrite (step_event coerce _ w Hm) by (intros ? ?; discriminate).
    cbn [dispatch]. unfold resetAll, resetHydration.
    set (w0 := setCurrentWaterLevel 100 _).
    destruct (startHydrationTimer_spec (closureOf (state w)) w0)
      as (S1 & S2 & S3 & S4 & S5).
    { intros i Hi. now apply Hall. }
    pose proof (startHydrationTimer_calls (closureOf (state w)) w0) as SC.
    set (w1 := startHydrationTimer _ w0) in *. clearbody w1.
    set (w2 := showMessage "All settings reset!" 2000
                 (showMessage "Hydration reset! Drink up!" 2000 w1)).
    assert (Hd : timerDepsChanged (state w) (state w2) = true).
    { apply timerDepsChanged_settings. cbn. now rewrite S4. }
    assert (Ht2 : TimerOk (closureOf (state w)) w2).
    { unfold TimerOk. cbn. rewrite S1, S2, S3. cbn. repeat split. lia. }
    destruct (commit_restart _ _ _ Ht2 Hd) as (C1 & C2 & C3 & _).
    rewrite C1, C2, C3, (commit_restart_calls _ _ Hd). cbn.
    rewrite S2, S3, SC. cbn. rewrite <- !app_assoc. repeat split.
Qed.

Lemma C9_single_timer_witness :
  (List.length (intervals (page (mount default))) <= 1)%nat.
Proof.
  exact (proj1 (C9_single_timer noCoercion (mount default)
                  (reachable_start _ (Some default)))).
Defined.

(** C6, as the claim states it, fails: a response without any candidate is
    malformed, and when it arrives the tip becomes a failure text and loading
    is cleared, but no transient message is shown. *)
Lemma C6_counterexample :
  let w := step noCoercion GetTip (mount default) in
  let w' :=
    step noCoercion (TipArrives (Response true (Some noCandidates))) w in
  isLoadingTip (state w') = false /\
  hydrationTip (state w')
  = VString "Could not fetch a tip. Please try again." /\
  visible (messageBox (state w')) = false.
Proof. vm_compute. repeat split. Qed.

(** The test of [getHydrationTip] on a response without a tip. *)
Lemma hasParts_tipless (coerce : value -> float) (result : value) :
  tipless result -> hasParts coerce result = Normal false.
Proof.
  assert (Hlack : forall v k,
            lacksList v ->
            (if negb (truthy v) then Normal false
             else n <- getLength v ;;
                  if negb (greaterThanZero coerce n) then Normal false
                  else k)
            = Normal false).
  { intros v k [Hv| ->]; [now rewrite Hv|reflexivity]. }
  unfold tipless, hasParts.
  intros [(c & -> & Hc)|(first & rest & content & -> & Hl & Hcontent & H)];
    cbn [bind].
  - now apply Hlack.
  - cbn [truthy negb getLength bind getFirst nth].
    rewrite (greaterThanZero_length coerce value (first :: rest))
      by (discriminate || exact Hl).
    cbn [negb]. rewrite Hcontent. cbn [bind].
    destruct H as [Hf|(parts & -> & Hp)]; [now rewrite Hf|].
    destruct (truthy content); [|reflexivity]. cbn [negb bind].
    destruct Hp as [Hp| ->]; [now rewrite Hp|reflexivity].
Qed.

(** Reading a response that is [unreadable] throws. *)
Lemma tryTip_unreadable (coerce : value -> float) (result : value)
  (w : World) :
  unreadable result -> tryTip coerce (Response true (Some result)) w = Throw.
Proof.
  unfold unreadable, tryTip, hasParts, firstText. cbn [negb].
  intros [->|[(rest & -> & Hl)
             |(first & rest & content & parts & -> & Hl & Hc & Ht & Hp & Hl')]];
    [reflexivity| |]; cbn [bind truthy negb getLength getFirst nth].
  - rewrite (greaterThanZero_length coerce value (null :: rest))
      by (discriminate || exact Hl).
    reflexivity.
  - rewrite (greaterThanZero_length coerce value (first :: rest))
      by (discriminate || exact Hl).
    cbn [negb]. rewrite Hc. cbn [bind]. rewrite Ht. cbn [negb].
    rewrite Hp. cbn [bind truthy negb getLength getFirst nth].
    rewrite (greaterThanZero_length coerce value (null :: parts))
      by (discriminate || exact Hl').
    reflexivity.
Qed.

(** C6, amended: whatever the outcome of the request, loading is false once
    [getHydrationTip] has finished. The tip becomes "Failed to get a tip.
    Network error or API issue." and the transient message "Failed to get a
    tip. Please check your connection." is shown when the request fails in
    transport (the fetch rejects, the status is not OK, the body is not
    JSON) and when reading the JSON throws: the JSON is [null], its first
    candidate is [null], or the first part of that candidate is [null]. The
    tip becomes "Could not fetch a tip. Please try again." and no transient
    message is shown (the message box and the pending timeouts stay as they
    are) when [candidates] is missing, falsy or an empty array, and when the
    first candidate has no truthy [content] or a [content] whose [parts] is
    missing, falsy or an empty array. *)
Theorem C6_tip_completion (coerce : value -> float) (o : FetchOutcome)
  (w : World) :
  let w' := step coerce (TipArrives o) w in
  isLoadingTip (state w') = false /\
  (o = NetworkError \/ (exists body, o = Response false body)
   \/ o = Response true None
   \/ (exists result, o = Response true (Some result) /\ unreadable result) ->
   hydrationTip (state w')
   = VString "Failed to get a tip. Network error or API issue." /\
   messageBox (state w')
   = {| message := "Failed to get a tip. Please check your connection.";
        visible := true |} /\
   timeouts (page w') = (timeouts (page w) ++ [HideMessage 3000])%list) /\
  (forall result,
     o = Response true (Some result) -> tipless result ->
     hydrationTip (state w')
     = VString "Could not fetch a tip. Please try again." /\
     messageBox (state w') = messageBox (state w) /\
     timeouts (page w') = timeouts (page w)).
Proof.
  cbn zeta. rewrite !step_state.
  destruct (step_frame coerce (TipArrives o) w) as (-> & _).
  cbn [dispatch]. unfold getHydrationTip_resume.
  set (w0 := setFetches (pred (fetches (page w))) w).
  split; [destruct (tryTip coerce o w0); reflexivity|]. split.
  - intros H.
    assert (E : tryTip coerce o w0 = Throw).
    { destruct H as [->|[[body ->]|[->|(result & -> & Hu)]]];
        try reflexivity. now apply tryTip_unreadable. }
    rewrite E. repeat split.
  - intros result -> Ht. unfold tryTip. cbn [negb].
    rewrite (hasParts_tipless coerce result Ht). repeat split.
Qed.

Lemma C6_tip_completion_witness :
  let w := step noCoercion GetTip (mount default) in
  let failed :=
    step noCoercion (TipArrives (Response true (Some nullCandidate))) w in
  let empty :=
    step noCoercion (TipArrives (Response true (Some noCandidates))) w in
  unreadable nullCandidate /\
  tipless noCandidates /\
  messageBox (state failed)
  = {| message := "Failed to get a tip. Please check your connection.";
       visible := true |} /\
  hydrationTip (state empty)
  = VString "Could not fetch a tip. Please try again." /\
  messageBox (state empty) = messageBox (state w).
Proof.
  cbn zeta.
  assert (Hu : unreadable nullCandidate).
  { right. left. exists []. split; reflexivity. }
  assert (Ht : tipless noCandidates).
  { left. exists (VArray []). split; [reflexivity|right; reflexivity]. }
  split; [exact Hu|]. split; [exact Ht|].
  destruct (C6_tip_completion noCoercion (Response true (Some nullCandidate))
              (step noCoercion GetTip (mount default))) as (_ & H & _).
  destruct H as (_ & H & _).
  { right. right. right. exists nullCandidate. split; [reflexivity|exact Hu]. }
  split; [exact H|].
  destruct (C6_tip_completion noCoercion (Response true (Some noCandidates))
              (step noCoercion GetTip (mount default))) as (_ & _ & H').
  destruct (H' noCandidates eq_refl Ht) as (H1 & H2 & _).
  split; assumption.
Defined.

(** A response whose first part has no [text] passes the shape test; the tip
    then is [undefined] and nothing else is reported. *)
Example tip_without_text :
  let w := step noCoercion GetTip (mount default) in
  let w' :=
    step noCoercion (TipArrives (Response true (Some partWithoutText))) w in
  hydrationTip (state w') = undefined /\
  visible (messageBox (state w')) = false /\
  isLoadingTip (state w') = false.
Proof. vm_compute. repeat split. Qed.

(** C7: a duration that is zero or negative never drives the timer. It is
    kept out at the input: the range input ([min] 30, [max] 240, [step] 15)
    delivers whole numbers from 30 to 240 only, and "Reset All" sets 60. So
    in every world the page can reach the duration is such a number, every
    live interval runs with it, the decrement a tick computes is
    [100 / (D * 60)] for this positive [D], and no interval runs with a
    [D <= 0]. *)
Theorem C7_positive_duration (coerce : value -> float) (w : World) :
  reachable coerce w ->
  (exists z : Z,
     (30 <= z <= 240)%Z /\ timerDuration (state w) = of_Z z) /\
  (0 <? timerDuration (state w)) = true /\
  (forall value,
     enabled (TimerChange value) w = true ->
     (exists z : Z, (30 <= z <= 240)%Z /\ parseInt value = of_Z z) /\
     (0 <? parseInt value) = true /\
     timerDuration (state (step coerce (TimerChange value) w))
     = parseInt value) /\
  (forall h i,
     findInterval h w = Some i ->
     cl_timerDuration (callback i) = timerDuration (state w) /\
     (0 <? cl_timerDuration (callback i)) = true /\
     (0 <? 100 / (cl_timerDuration (callback i) * 60)) = true /\
     (100 / (cl_timerDuration (callback i) * 60) <? infinity) = true) /\
  (forall D i,
     (D <=? 0) = true -> In i (intervals (page w)) ->
     cl_timerDuration (callback i) <> D).
Proof.
  intros Hr. pose proof (reachable_inv coerce w Hr) as [_ _ Hd Ht _].
  assert (Hlive : forall i, In i (intervals (page w)) ->
            cl_timerDuration (callback i) = timerDuration (state w)).
  { unfold TimerOk in Ht. destruct (intervals (page w)) as [|j [|k l]];
      try easy. intros i [<-|[]]. destruct Ht as (_ & -> & _). reflexivity. }
  split; [now apply durations_range|].
  split; [now apply durations_positive|]. split; [|split].
  - intros value He. cbn [enabled] in He.
    pose proof (slider_duration value He) as Hv.
    split; [now apply durations_range|].
    split; [now apply durations_positive|].
    now rewrite step_state.
  - intros h i Hf. apply find_some in Hf as [Hi _].
    rewrite (Hlive i Hi).
    split; [reflexivity|]. split; [now apply durations_positive|].
    split; [now apply decrement_nonneg|now apply decrement_finite].
  - intros D i HD Hi E. rewrite (Hlive i Hi) in E. subst D.
    pose proof (durations_positive _ Hd) as Hp.
    rewrite (leb_not_ltb _ _ HD) in Hp. discriminate.
Qed.

Lemma C7_positive_duration_witness :
  (0 <? timerDuration (state (mount default))) = true /\
  timerDuration
    (state (step noCoercion (TimerChange "45") (mount default)))
  = 45.
Proof.
  destruct (C7_positive_duration noCoercion (mount default)
              (reachable_start _ (Some default))) as (_ & H1 & H2 & _).
  split; [exact H1|].
  destruct (H2 "45" eq_refl) as (_ & _ & ->). reflexivity.
Defined.

(** C8, as the claim states it, fails: with the permission already denied,
    switching the notification channel on requests nothing and the channel
    stays on. *)
Lemma C8_counterexample :
  let w := mount denied in
  let w' := step noCoercion (ReminderChange reminderBrowser true) w in
  permission (page w) = denied /\
  permissionRequests (page w') = 0%nat /\
  existsb (fun c => match c with RequestPermission => true | _ => false end)
    (calls (page w')) = false /\
  browser (reminderSettings (state w')) = true.
Proof. vm_compute. repeat split. Qed.

(** C8, amended: when the notification channel is switched on while the
    permission is still undecided, one permission request is made; when a
    request is answered with anything but "granted", the channel goes off and
    the user is told. When the permission already is denied (or granted), no
    request is made and the channel stays on; no notification is sent unless
    the permission is granted. *)
Theorem C8_permission (coerce : value -> float) (w : World) :
  let w1 := step coerce (ReminderChange reminderBrowser true) w in
  browser (reminderSettings (state w1)) = true /\
  (permission (page w) = default ->
   permissionRequests (page w1) = S (permissionRequests (page w)) /\
   (exists l, calls (page w1) = (calls (page w) ++ RequestPermission :: l)%list) /\
   forall answer, enabled (PermissionAnswer answer) w1 = true) /\
  (permission (page w) <> default ->
   permissionRequests (page w1) = permissionRequests (page w) /\
   forall c, In c (calls (page w1)) -> c = RequestPermission ->
             In c (calls (page w))) /\
  (forall answer,
     answer <> granted ->
     let w2 := step coerce (PermissionAnswer answer) w in
     browser (reminderSettings (state w2)) = false /\
     messageBox (state w2)
     = {| message :=
            "Browser notifications denied. Please enable them in your browser settings.";
          visible := true |}) /\
  (permission (page w) <> granted ->
   calls (page (sendBrowserNotification w)) = calls (page w)).
Proof.
  cbn zeta. rewrite !step_state.
  destruct (step_frame coerce (ReminderChange reminderBrowser true) w)
    as (_ & _ & F3 & _).
  cbn zeta in F3. rewrite !F3. cbn [dispatch].
  split; [reflexivity|]. split; [|split; [|split]].
  - intros Hp. unfold permission in Hp.
    destruct (notification (page w)) as [p|] eqn:Hn; [|discriminate].
    subst p.
    assert (E : handleReminderChange reminderBrowser true w
                = setReminderSettings
                    {| browser := true;
                       sound := sound (reminderSettings (state w));
                       visual := visual (reminderSettings (state w)) |}
                    (record RequestPermission
                       (setPermissionRequests
                          (S (permissionRequests (page w))) w))).
    { unfold handleReminderChange, requestNotificationPermission,
        notificationInWindow, permission. now rewrite Hn. }
    split; [now rewrite E|]. split.
    + rewrite step_any by (intros ? ?; discriminate). cbn [dispatch].
      destruct (mounted w).
      * assert (Hd : timerDepsChanged (state w)
                       (state (handleReminderChange reminderBrowser true w))
                     = true).
        { apply timerDepsChanged_settings.
          apply (handleReminderChange_frame reminderBrowser true w). }
        rewrite (commit_restart_calls _ _ Hd), E. cbn.
        rewrite <- app_assoc. cbn. eexists. reflexivity.
      * rewrite E. cbn. eexists. reflexivity.
    + intros answer. cbn [enabled]. rewrite F3. cbn [dispatch].
      rewrite E. reflexivity.
  - intros Hp.
    assert (E : permissionRequests
                  (page (handleReminderChange reminderBrowser true w))
                = permissionRequests (page w) /\
                calls (page (handleReminderChange reminderBrowser true w))
                = calls (page w)).
    { unfold handleReminderChange, requestNotificationPermission,
        notificationInWindow, permission in *.
      destruct (notification (page w)) as [[]|]; try contradiction;
        split; reflexivity. }
    destruct E as [E1 E2]. split; [exact E1|].
    rewrite step_any by (intros ? ?; discriminate). cbn [dispatch].
    intros c Hc ->. destruct (mounted w).
    + assert (Hd : timerDepsChanged (state w)
                     (state (handleReminderChange reminderBrowser true w))
                   = true).
      { apply timerDepsChanged_settings.
        apply (handleReminderChange_frame reminderBrowser true w). }
      rewrite (commit_restart_calls _ _ Hd), E2 in Hc.
      apply in_app_or in Hc as [Hc|Hc]; [assumption|].
      exfalso.
      destruct (hydrationIntervalRef
                  (handleReminderChange reminderBrowser true w));
        cbn in Hc;
        repeat (destruct Hc as [Hc|Hc]; [discriminate|]); exact Hc.
    + now rewrite E2 in Hc.
  - intros answer Ha. cbn zeta. rewrite !step_state.
    destruct answer; [|contradiction|]; repeat split.
  - intros Hp. unfold sendBrowserNotification, notificationInWindow,
      permission in *.
    destruct (notification (page w)) as [[]|]; try contradiction;
      reflexivity.
Qed.

(** * Further properties of the page *)

(** ** What the effects never touch *)

Lemma commit_frame (before : State) (w1 : World) :
  let w' := commit before w1 in
  fetches (page w') = fetches (page w1) /\
  notification (page w') = notification (page w1) /\
  timeouts (page w') = timeouts (page w1) /\
  bodyContainerFlash (page w') = bodyContainerFlash (page w1).
Proof.
  unfold commit, timerCleanup, startHydrationTimer.
  destruct (timerDepsChanged _ _), (sameValue _ _), w1 as [s [h|] b m];
    repeat split.
Qed.

(** X1: unmounting the page in any world it can reach cancels the running
    interval: no recurring task is left to call into the dead page. *)
Theorem X1_unmount_stops_timer (coerce : value -> float) (w : World) :
  reachable coerce w ->
  intervals (page (unmount w)) = [] /\
  forall h, enabled (IntervalFires h) (unmount w) = false.
Proof.
  intros Hr. pose proof (reachable_inv coerce w Hr) as [_ _ _ Ht _].
  destruct (timerCleanup_spec _ _ Ht) as (H & _).
  split; [exact H|]. intros h. cbn [enabled]. unfold findInterval.
  change (intervals (page (unmount w)))
    with (intervals (page (timerCleanup w))).
  now rewrite H.
Qed.

Lemma X1_unmount_stops_timer_witness :
  intervals (page (unmount (mount default))) = [].
Proof.
  exact (proj1 (X1_unmount_stops_timer noCoercion (mount default)
                  (reachable_start _ (Some default)))).
Defined.

(** ** Tip requests *)

Section Extras.

Variable coerce : value -> float.

Ltac break_world w :=
  destruct w as [[? ? ? [? ? ?] ? ? ? ?] [?|] [[[]|] ? ? ? ? ? ? ? ? ?] [|]].

(** A tick touches neither the tip nor the requests. *)
Lemma decrementWaterLevel_tip (cl : Closure) (w : World) :
  let w' := decrementWaterLevel cl w in
  isLoadingTip (state w') = isLoadingTip (state w) /\
  hydrationTip (state w') = hydrationTip (state w) /\
  fetches (page w') = fetches (page w) /\
  timerDuration (state w') = timerDuration (state w).
Proof.
  unfold decrementWaterLevel. destruct (_ <=? 0); [|repeat split].
  destruct cl as [D [[] [] []]]; break_world w; repeat split.
Qed.

Lemma resume_tip (o : FetchOutcome) (w : World) :
  let w' := getHydrationTip_resume coerce o w in
  isLoadingTip (state w') = false /\
  fetches (page w') = fetches (page w) /\
  currentWaterLevel (state w') = currentWaterLevel (state w) /\
  timerDuration (state w') = timerDuration (state w).
Proof.
  cbn zeta. unfold getHydrationTip_resume.
  destruct (tryTip coerce o w) as [w'|] eqn:E; [|repeat split].
  apply tryTip_normal in E as [t [-> | ->]]; repeat split.
Qed.

Lemma dispatch_tipIdle (ev : Event) (w : World) :
  tipIdle w -> enabled ev w = true -> tipIdle (dispatch coerce ev w).
Proof.
  unfold tipIdle. intros H He.
  destruct ev as [h|n|v|b|id checked| | | |o|answer|rejected]; cbn [dispatch enabled] in *.
  - destruct (findInterval h w) as [i|]; [|assumption].
    destruct (decrementWaterLevel_tip (callback i) w) as (-> & -> & -> & _).
    assumption.
  - destruct (nth_error (timeouts (page w)) n) as [[d|d]|]; assumption.
  - assumption.
  - assumption.
  - break_world w; destruct id, checked; exact H.
  - break_world w; exact H.
  - break_world w; cbn in *;
      match goal with
      | H0 : if ?b then _ else _ |- _ => destruct b; intuition
      end.
  - apply negb_true_iff in He. rewrite He in H. cbn. now rewrite H.
  - destruct (resume_tip o (setFetches (pred (fetches (page w))) w))
      as (-> & -> & _). cbn.
    destruct (isLoadingTip (state w)); [now destruct H as [-> _]|].
    rewrite H in He. discriminate.
  - destruct answer; exact H.
  - destruct rejected; exact H.
Qed.

Lemma reachable_tipIdle (w : World) : reachable coerce w -> tipIdle w.
Proof.
  induction 1 as [n|ev w Hr IH He Hm]; [reflexivity|].
  pose proof (dispatch_tipIdle ev w IH He) as H. unfold tipIdle in *.
  rewrite step_state.
  now destruct (step_frame coerce ev w) as (_ & -> & _).
Qed.

End Extras.

(** X2: tip requests never overlap. In every world the page can reach, one
    request is under way exactly when the loading flag is set, none
    otherwise; while loading the tip text is empty and the "Get a Hydration
    Tip" button (disabled while loading) cannot start a second request. *)
Theorem X2_one_request_at_a_time (coerce : value -> float) (w : World) :
  reachable coerce w ->
  fetches (page w) = (if isLoadingTip (state w) then 1 else 0)%nat /\
  (isLoadingTip (state w) = true -> hydrationTip (state w) = VString "") /\
  (enabled GetTip w = true -> fetches (page w) = 0%nat) /\
  (enabled GetTip w = true ->
   fetches (page (step coerce GetTip w)) = 1%nat /\
   enabled GetTip (step coerce GetTip w) = false).
Proof.
  intros Hr. pose proof (reachable_tipIdle coerce w Hr) as H.
  unfold tipIdle in H. cbn [enabled].
  destruct (isLoadingTip (state w)); cbn [negb].
  - destruct H as [-> ->]. repeat split; intros; discriminate.
  - rewrite H. split; [reflexivity|]. split; [discriminate|].
    split; [reflexivity|]. intros _. rewrite step_state.
    destruct (step_frame coerce GetTip w) as (_ & -> & _).
    cbn. now rewrite H.
Qed.

Lemma X2_one_request_at_a_time_witness :
  fetches (page (step noCoercion GetTip (mount default))) = 1%nat.
Proof.
  destruct (X2_one_request_at_a_time noCoercion
              (step noCoercion GetTip (mount default))) as (H & _).
  - apply reachable_step;
      [apply (reachable_start _ (Some default))|reflexivity|reflexivity].
  - exact H.
Defined.

(** ** Messages and flashes go away *)

Lemma existsb_removeNth {A : Type} (f : A -> bool) (l : list A) :
  forall n t, nth_error l n = Some t -> f t = false ->
              existsb f (removeNth n l) = existsb f l.
Proof.
  induction l as [|x l IH]; intros [|n] t; cbn; try discriminate.
  - intros [= ->] ->. reflexivity.
  - intros Hn Hf. now rewrite (IH n t Hn Hf).
Qed.

Section Dismiss.

Variable coerce : value -> float.

Ltac break_world w :=
  destruct w as [[? ? ? [? ? ?] ? ? ? ?] [?|] [[[]|] ? ? ? ? ? ? ? ? ?] [|]].

Ltac dismiss :=
  match goal with
  | H : _ /\ _ |- _ =>
      let H1 := fresh in let H2 := fresh in
      destruct H as [H1 H2]; split; intros G; cbn in *;
      rewrite ?existsb_app; cbn; rewrite ?orb_true_r; auto;
      try rewrite (H1 G); try rewrite (H2 G); auto
  end.

Lemma dispatch_dismissible (ev : Event) (w : World) :
  dismissible w -> dismissible (dispatch coerce ev w).
Proof.
  unfold dismissible. intros H.
  destruct ev as [h|n|v|b|id checked| | | |o|answer|rejected]; cbn [dispatch].
  - destruct (findInterval h w) as [[h' cl]|]; [|assumption]. cbn.
    unfold decrementWaterLevel. destruct (_ <=? 0); [|exact H].
    destruct cl as [D [[] [] []]]; break_world w; dismiss.
  - destruct (nth_error (timeouts (page w)) n) as [t|] eqn:E; [|assumption].
    destruct H as [H1 H2].
    destruct t as [d|d]; cbn; (split; [|intros G]); try discriminate.
    + rewrite (existsb_removeNth isRemoveFlash _ n _ E eq_refl). auto.
    + intros G. rewrite (existsb_removeNth isHideMessage _ n _ E eq_refl). auto.
  - exact H.
  - exact H.
  - break_world w; destruct id, checked; try exact H; dismiss.
  - break_world w; dismiss.
  - break_world w; dismiss.
  - exact H.
  - unfold getHydrationTip_resume.
    destruct (tryTip coerce o _) as [w'|] eqn:E.
    + apply tryTip_normal in E as [t [-> | ->]]; exact H.
    + break_world w; dismiss.
  - destruct answer; break_world w; dismiss.
  - destruct rejected; exact H.
Qed.

Lemma reachable_dismissible (w : World) : reachable coerce w -> dismissible w.
Proof.
  induction 1 as [n|ev w Hr IH He Hm]; [split; discriminate|].
  pose proof (dispatch_dismissible ev w IH) as H. unfold dismissible in *.
  rewrite step_state.
  destruct (step_frame coerce ev w) as (-> & _ & _ & _ & -> & _).
  exact H.
Qed.

End Dismiss.

(** X3: nothing the page shows stays for ever. In every world the page can
    reach, a visible message has a hide timer pending and a flashing body
    container has a timer pending that removes the flash; and when a hide
    timer fires the message box is empty and hidden. *)
Theorem X3_messages_are_dismissed (coerce : value -> float) (w : World) :
  reachable coerce w ->
  (visible (messageBox (state w)) = true ->
   exists d, In (HideMessage d) (timeouts (page w))) /\
  (bodyContainerFlash (page w) = true ->
   exists d, In (RemoveFlash d) (timeouts (page w))) /\
  (forall n d,
     nth_error (timeouts (page w)) n = Some (HideMessage d) ->
     messageBox (state (step coerce (TimeoutFires n) w))
     = {| message := ""; visible := false |}).
Proof.
  intros Hr. destruct (reachable_dismissible coerce w Hr) as [H1 H2].
  split; [|split].
  - intros G. apply H1, existsb_exists in G as ([d|d] & Hin & Hd);
      [eauto|discriminate].
  - intros G. apply H2, existsb_exists in G as ([d|d] & Hin & Hd);
      [discriminate|eauto].
  - intros n d E. rewrite step_state. cbn [dispatch].
    now rewrite E.
Qed.

Lemma X3_messages_are_dismissed_witness :
  exists d, In (HideMessage d)
              (timeouts (page (step noCoercion DrinkNow (mount default)))).
Proof.
  destruct (X3_messages_are_dismissed noCoercion
              (step noCoercion DrinkNow (mount default))) as (H & _).
  - apply reachable_step;
      [apply (reachable_start _ (Some default))|reflexivity|reflexivity].
  - apply H. reflexivity.
Defined.

Lemma removeNth_app {A : Type} (l r : list A) (x : A) :
  removeNth (List.length l) (l ++ x :: r) = (l ++ r)%list.
Proof. induction l as [|y l IH]; cbn; [reflexivity|now rewrite IH]. Qed.

Lemma nth_error_middle {A : Type} (l r : list A) (x : A) :
  nth_error (l ++ x :: r) (List.length l) = Some x.
Proof. induction l as [|y l IH]; cbn; [reflexivity|exact IH]. Qed.

(** X4: [showMessage] never cancels the timer of an earlier message. When a
    second message is shown before the first one's timer has fired, that
    first timer hides the second message, however long the second was meant
    to stay; the second timer is still pending afterwards. *)
Theorem X4_old_timer_hides_new_message (coerce : value -> float) (w : World)
  (m1 m2 : string) (d1 d2 : Z) :
  let w2 := showMessage m2 d2 (showMessage m1 d1 w) in
  let n := List.length (timeouts (page w)) in
  let w3 := step coerce (TimeoutFires n) w2 in
  messageBox (state w2) = {| message := m2; visible := true |} /\
  enabled (TimeoutFires n) w2 = true /\
  messageBox (state w3) = {| message := ""; visible := false |} /\
  timeouts (page w3) = (timeouts (page w) ++ [HideMessage d2])%list.
Proof.
  cbn zeta. split; [reflexivity|]. split.
  - cbn. rewrite !length_app. cbn. apply Nat.ltb_lt. lia.
  - rewrite step_state.
    destruct (step_frame coerce
                (TimeoutFires (List.length (timeouts (page w))))
                (showMessage m2 d2 (showMessage m1 d1 w)))
      as (-> & _).
    cbn [dispatch].
    assert (E : timeouts (page (showMessage m2 d2 (showMessage m1 d1 w)))
                = (timeouts (page w) ++ HideMessage d1 :: [HideMessage d2])%list).
    { cbn. now rewrite <- app_assoc. }
    rewrite E, nth_error_middle, removeNth_app. split; reflexivity.
Qed.

(** ** The slider, the checkboxes and the permission answer *)

(** X5: choosing the duration that is already set changes nothing at all:
    React sees the same state, no effect runs and the interval keeps
    running under its old handle. *)
Theorem X5_same_duration_is_idle (coerce : value -> float) (w : World)
  (value : string) :
  parseInt value = timerDuration (state w) ->
  step coerce (TimerChange value) w = w.
Proof.
  intros H. rewrite step_any by (intros ? ?; discriminate).
  cbn [dispatch]. unfold handleTimerChange. rewrite H.
  assert (E : setTimerDuration (timerDuration (state w)) w = w)
    by (destruct w as [[] ? ? ?]; reflexivity).
  rewrite E, (commit_keep_eq _ _ (timerDepsChanged_same _ _ eq_refl eq_refl)).
  rewrite sameValue_refl. now destruct (mounted w).
Qed.

Lemma X5_same_duration_is_idle_witness :
  step noCoercion (TimerChange "60") (mount default) = mount default.
Proof.
  apply (X5_same_duration_is_idle noCoercion (mount default) "60").
  vm_compute. reflexivity.
Defined.

(** Where the browser has the Notification API, a checkbox handler sets no
    timer. *)
Lemma handleReminderChange_timer (id : ReminderInput) (checked : bool)
  (w : World) :
  notificationInWindow (page w) = true ->
  nextTimerId (page (handleReminderChange id checked w))
  = nextTimerId (page w).
Proof.
  destruct w as [s r [[[]|] ? ? ? ? ? ? ? ? ?] m], id, checked;
    try discriminate; reflexivity.
Qed.

(** X6: every change of a reminder checkbox restarts the interval, because
    the new settings object rebuilds the callback the timer effect depends
    on: the previous task is cancelled and one new task, which carries the
    new settings, is started under a fresh handle: the next timer id after
    the handler, which is the next id before it unless the handler itself
    set a timer (the message about a missing Notification API). The level
    and the duration stay as they are, so this also revives the ticking of a
    body that was already empty. *)
Theorem X6_reminder_change_restarts_timer (coerce : value -> float)
  (w : World) (id : ReminderInput) (checked : bool) :
  reachable coerce w ->
  let w' := step coerce (ReminderChange id checked) w in
  let n := nextTimerId (page (handleReminderChange id checked w)) in
  intervals (page w') = [{| handle := n; callback := closureOf (state w') |}] /\
  hydrationIntervalRef w' = Some n /\
  (notificationInWindow (page w) = true -> n = nextTimerId (page w)) /\
  (forall i, In i (intervals (page w)) -> handle i <> n) /\
  enabled (IntervalFires n) w' = true /\
  currentWaterLevel (state w') = currentWaterLevel (state w) /\
  timerDuration (state w') = timerDuration (state w).
Proof.
  intros Hr. pose proof (reachable_inv coerce w Hr) as [_ _ _ Ht _].
  pose proof (reachable_mounted coerce w Hr) as Hm.
  cbn zeta. rewrite (step_event coerce _ w Hm) by (intros ? ?; discriminate).
  cbn [dispatch].
  destruct (handleReminderChange_frame id checked w)
    as (F1 & F2 & F3 & F4 & F5 & _ & F7).
  pose proof (handleReminderChange_timer id checked w) as F6.
  set (w1 := handleReminderChange id checked w) in *.
  assert (Ht1 : TimerOk (closureOf (state w)) w1).
  { unfold TimerOk in *. rewrite F3, F4.
    destruct (intervals (page w)) as [|j [|k l]]; try easy.
    destruct Ht as (? & ? & ?). repeat split; auto. lia. }
  destruct (commit_restart _ _ _ Ht1 (timerDepsChanged_settings _ _ F7))
    as (C1 & C2 & C3 & _).
  rewrite C1, C2, C3, F1, F2. repeat split.
  - exact F6.
  - intros i Hi. unfold TimerOk in Ht.
    destruct (intervals (page w)) as [|j [|k l]]; try easy.
    destruct Hi as [<-|[]]. destruct Ht as (_ & _ & Hlt). lia.
  - cbn [enabled]. unfold findInterval. rewrite C2. cbn.
    now rewrite Pos.eqb_refl.
Qed.

Lemma X6_reminder_change_restarts_timer_witness :
  hydrationIntervalRef
    (step noCoercion (ReminderChange reminderSound true) (mount default))
  = Some 2%positive.
Proof.
  destruct (X6_reminder_change_restarts_timer noCoercion (mount default)
              reminderSound true (reachable_start _ (Some default)))
    as (_ & H & _).
  exact H.
Defined.

(** X7: when a permission request is granted, only the message changes: the
    user reads "Browser notifications enabled!", the reminder settings and
    the running interval are left alone (a refusal, in contrast, stores new
    settings), and from then on the notification channel does notify. *)
Theorem X7_granted_answer (coerce : value -> float) (w : World) :
  let w' := step coerce (PermissionAnswer granted) w in
  messageBox (state w')
  = {| message := "Browser notifications enabled!"; visible := true |} /\
  reminderSettings (state w') = reminderSettings (state w) /\
  permission (page w') = granted /\
  intervals (page w') = intervals (page w) /\
  hydrationIntervalRef w' = hydrationIntervalRef w /\
  calls (page w') = calls (page w) /\
  calls (page (sendBrowserNotification w'))
  = (calls (page w) ++ [NewNotification "Time to Drink Water!"])%list.
Proof.
  cbn zeta. rewrite step_any by (intros ? ?; discriminate).
  cbn [dispatch permissionCallback].
  set (w1 := showMessage _ _ _).
  destruct (mounted w); [|repeat split].
  destruct (commit_quiet (state w) w1 eq_refl eq_refl)
    as (Q1 & Q2 & Q3 & _ & Q5 & _).
  destruct (commit_frame (state w) w1) as (_ & P & _).
  unfold sendBrowserNotification, notificationInWindow, permission.
  rewrite P, Q1, Q2, Q3. cbn. rewrite Q5. repeat split.
Qed.

(** X8: the water level is written by ticks, "Drink Now" and "Reset All"
    only, and the duration by the slider and "Reset All" only: no timeout,
    body type click, reminder change, tip request, response or permission
    answer moves either of them. *)
Theorem X8_level_and_duration_writers (coerce : value -> float) (ev : Event)
  (w : World) :
  (writesLevel ev = false ->
   currentWaterLevel (state (step coerce ev w))
   = currentWaterLevel (state w)) /\
  (writesDuration ev = false ->
   timerDuration (state (step coerce ev w)) = timerDuration (state w)).
Proof.
  rewrite step_state.
  destruct ev as [h|n|v|b|id checked| | | |o|answer|rejected];
    cbn [dispatch writesLevel writesDuration]; split; try discriminate;
    intros _; try reflexivity.
  - destruct (findInterval h w) as [i|]; [|reflexivity].
    apply (decrementWaterLevel_tip (callback i) w).
  - destruct (nth_error _ n) as [[d|d]|]; reflexivity.
  - destruct (nth_error _ n) as [[d|d]|]; reflexivity.
  - apply (handleReminderChange_frame id checked w).
  - apply (handleReminderChange_frame id checked w).
  - unfold resetHydration, startHydrationTimer.
    destruct w as [s [h|] b m]; reflexivity.
  - apply (resume_tip coerce o (setFetches (pred (fetches (page w))) w)).
  - apply (resume_tip coerce o (setFetches (pred (fetches (page w))) w)).
  - destruct answer; reflexivity.
  - destruct answer; reflexivity.
  - destruct rejected; reflexivity.
  - destruct rejected; reflexivity.
Qed.

Lemma resume_text (coerce : value -> float) (o : FetchOutcome) (w w0 : World) :
  hydrationTip (state (getHydrationTip_resume coerce o w))
  = hydrationTip (state (getHydrationTip_resume coerce o w0)).
Proof.
  unfold getHydrationTip_resume, tryTip.
  destruct o as [|[] [result|]]; cbn; try reflexivity.
  destruct (hasParts coerce result) as [[]|]; cbn; try reflexivity.
  destruct (firstText result); reflexivity.
Qed.

(** X9: "Reset All" does not abandon a tip request that is under way. It
    empties the tip but leaves the loading flag and the pending request as
    they are, and when the response arrives it replaces the emptied tip
    exactly as it would have done without the reset. *)
Theorem X9_reset_keeps_pending_request (coerce : value -> float) (w : World)
  (o : FetchOutcome) :
  let reset := step coerce ResetAll w in
  hydrationTip (state reset) = VString "" /\
  isLoadingTip (state reset) = isLoadingTip (state w) /\
  fetches (page reset) = fetches (page w) /\
  hydrationTip (state (step coerce (TipArrives o) reset))
  = hydrationTip (state (step coerce (TipArrives o) w)) /\
  isLoadingTip (state (step coerce (TipArrives o) reset)) = false.
Proof.
  cbn zeta. rewrite !step_state.
  destruct (step_frame coerce ResetAll w) as (_ & -> & _).
  cbn [dispatch]. split; [|split; [|split; [|split]]].
  - unfold resetAll, resetHydration, startHydrationTimer.
    destruct w as [s [h|] b m]; reflexivity.
  - unfold resetAll, resetHydration, startHydrationTimer.
    destruct w as [s [h|] b m]; reflexivity.
  - unfold resetAll, resetHydration, startHydrationTimer.
    destruct w as [s [h|] b m]; reflexivity.
  - apply resume_text.
  - apply resume_tip.
Qed.

(** ** The order of the timer calls *)

Lemma neverTwo_app (cs seg : list Call) :
  forall live,
  neverTwo live (cs ++ seg)
  = neverTwo live cs && neverTwo (fold_left replay cs live) seg.
Proof.
  induction cs as [|c cs IH]; intros live; cbn [app neverTwo fold_left].
  - destruct seg; cbn; destruct (_ <=? 1)%nat; reflexivity.
  - rewrite IH. now rewrite andb_assoc.
Qed.

(** A handler that appends the calls [seg] keeps the trace tidy if [seg],
    replayed from the tasks live before, never has two tasks live and ends
    with the tasks live after. *)
Lemma tidyTrace_segment (w w' : World) (seg : list Call) :
  tidyTrace w ->
  calls (page w') = (calls (page w) ++ seg)%list ->
  neverTwo (map handle (intervals (page w))) seg = true ->
  fold_left replay seg (map handle (intervals (page w)))
  = map handle (intervals (page w')) ->
  tidyTrace w'.
Proof.
  intros [H1 H2] Hc Hn Hf. unfold tidyTrace.
  rewrite Hc, fold_left_app, neverTwo_app, H1, H2, Hn, Hf. auto.
Qed.

Lemma reminderCalls_replay (s : ReminderSettings) (p : NotificationPermission)
  (live : list positive) :
  fold_left replay (reminderCalls s p) live = live /\
  neverTwo live (reminderCalls s p) = (List.length live <=? 1)%nat.
Proof.
  destruct s as [[] [] []], p; cbn; rewrite ?andb_true_r, ?andb_diag;
    split; reflexivity.
Qed.

(** Restarting the timer, replayed from a world in which the referenced task
    is the only one that may be live. *)
Lemma restart_replay (r : option positive) (l : list Interval) (n : positive)
  (twice : bool) :
  match l with
  | [] => True
  | [i] => r = Some (handle i)
  | _ => False
  end ->
  let seg :=
    ((if twice then cancel r else []) ++ cancel r
       ++ [SetInterval n; ConsoleLog])%list in
  neverTwo (map handle l) seg = true /\
  fold_left replay seg (map handle l) = [n].
Proof.
  destruct l as [|i [|j l]]; [intros _|intros ->|contradiction].
  - destruct twice, r; cbn; split; reflexivity.
  - destruct twice; cbn; rewrite ?Pos.eqb_refl; cbn; split; reflexivity.
Qed.

Section Trace.

Variable coerce : value -> float.

Lemma timerOk_shape (cl : Closure) (w : World) :
  TimerOk cl w ->
  match intervals (page w) with
  | [] => True
  | [i] => hydrationIntervalRef w = Some (handle i)
  | _ => False
  end.
Proof.
  unfold TimerOk. destruct (intervals (page w)) as [|i [|j l]]; try easy.
Qed.

Lemma dispatch_tidyTrace (ev : Event) (w : World) :
  Inv w -> enabled ev w = true ->
  mounted w = true -> mounted (dispatch coerce ev w) = true ->
  tidyTrace w ->
  tidyTrace (dispatch coerce ev w).
Proof.
  intros HI He Hm Hm1 HK. pose proof (inv_timer _ HI) as Ht.
  assert (Hlen : (List.length (map handle (intervals (page w))) <=? 1)%nat
                 = true).
  { unfold TimerOk in Ht. destruct (intervals (page w)) as [|i [|j l]];
      try reflexivity. contradiction. }
  assert (Hquiet : forall w', calls (page w') = calls (page w) ->
                     intervals (page w') = intervals (page w) -> tidyTrace w').
  { intros w' Hc Hi. apply (tidyTrace_segment w w' []); auto.
    - now rewrite app_nil_r.
    - cbn. now rewrite Hlen.
    - cbn. now rewrite Hi. }
  assert (Hone : forall w' c, calls (page w') = (calls (page w) ++ [c])%list ->
                   intervals (page w') = intervals (page w) ->
                   replay (map handle (intervals (page w))) c
                   = map handle (intervals (page w)) -> tidyTrace w').
  { intros w' c Hc Hi Hr. apply (tidyTrace_segment w w' [c]); auto.
    - cbn. now rewrite Hr, Hlen.
    - cbn. now rewrite Hr, Hi. }
  destruct ev as [h|n|v|b|id checked| | | |o|answer|rejected]; cbn [dispatch enabled] in *.
  - (* IntervalFires *)
    destruct (findInterval h w) as [i|] eqn:Hf; [|discriminate].
    destruct (findInterval_inv _ _ _ _ Ht Hf) as (Hi & Hh & Hcb & Hr).
    destruct (currentWaterLevel (state w)
              - 100 / (cl_timerDuration (callback i) * 60) <=? 0) eqn:E.
    + pose proof (decrementWaterLevel_mounted (callback i) w Hm Hm1 E)
        as Hapi.
      destruct (decrementWaterLevel_empty (callback i) w h Hm Hapi Hr E)
        as (_ & _ & _ & _ & _ & _ & I & _ & _ & C & _).
      apply (tidyTrace_segment w _ _ HK C); rewrite Hi; cbn;
        rewrite Hh, Pos.eqb_refl; cbn;
        destruct (reminderCalls_replay (cl_reminderSettings (callback i))
                    (permission (page w)) []) as [R1 R2].
      * now rewrite R2.
      * rewrite R1, I, Hi. cbn. now rewrite Hh, Pos.eqb_refl.
    + rewrite (decrementWaterLevel_running _ w E). now apply Hquiet.
  - destruct (nth_error (timeouts (page w)) n) as [[d|d]|]; now apply Hquiet.
  - now apply Hquiet.
  - now apply Hquiet.
  - destruct w as [s r [[[]|] ? ? ? ? ? ? ? ? ?] m], id, checked;
      try (now apply Hquiet); now apply (Hone _ RequestPermission).
  - (* DrinkNow *)
    unfold resetHydration.
    pose proof (startHydrationTimer_calls (closureOf (state w))
                  (setCurrentWaterLevel 100 w)) as SC.
    destruct (startHydrationTimer_spec (closureOf (state w))
                (setCurrentWaterLevel 100 w)) as (S1 & _).
    { intros i Hi. unfold TimerOk in Ht. cbn in *.
      destruct (intervals (page w)) as [|j [|k l]]; try easy.
      destruct Hi as [<-|[]]. apply Ht. }
    destruct (restart_replay (hydrationIntervalRef w) (intervals (page w))
                (nextTimerId (page w)) false (timerOk_shape _ _ Ht))
      as [R1 R2].
    apply (tidyTrace_segment w _ _ HK SC); [exact R1|].
    cbn in S1 |- *. cbn in R2. now rewrite R2, S1.
  - (* ResetAll *)
    unfold resetAll, resetHydration.
    set (w0 := setCurrentWaterLevel 100 _).
    pose proof (startHydrationTimer_calls (closureOf (state w)) w0) as SC.
    destruct (startHydrationTimer_spec (closureOf (state w)) w0) as (S1 & _).
    { intros i Hi. unfold TimerOk in Ht. cbn in *.
      destruct (intervals (page w)) as [|j [|k l]]; try easy.
      destruct Hi as [<-|[]]. apply Ht. }
    destruct (restart_replay (hydrationIntervalRef w) (intervals (page w))
                (nextTimerId (page w)) false (timerOk_shape _ _ Ht))
      as [R1 R2].
    apply (tidyTrace_segment w _ _ HK SC); [exact R1|].
    cbn in S1 |- *. cbn in R2. now rewrite R2, S1.
  - now apply (Hone _ Fetch).
  - unfold getHydrationTip_resume.
    destruct (tryTip coerce o _) as [w'|] eqn:E.
    + apply tryTip_normal in E as [t [-> | ->]];
        [now apply Hquiet|now apply (Hone _ ConsoleError)].
    + now apply (Hone _ ConsoleError).
  - destruct answer; now apply Hquiet.
  - destruct rejected; [now apply (Hone _ ConsoleError)|now apply Hquiet].
Qed.

Lemma commit_tidyTrace (before : State) (cl : Closure) (w1 : World) :
  TimerOk cl w1 -> tidyTrace w1 -> tidyTrace (commit before w1).
Proof.
  intros Ht HK.
  destruct (timerDepsChanged before (state w1)) eqn:Hd.
  - destruct (commit_restart _ _ _ Ht Hd) as (_ & C2 & _).
    destruct (restart_replay (hydrationIntervalRef w1) (intervals (page w1))
                (nextTimerId (page w1)) true (timerOk_shape _ _ Ht))
      as [R1 R2].
    apply (tidyTrace_segment w1 _ _ HK (commit_restart_calls _ _ Hd));
      [exact R1|]. cbn in R2. now rewrite R2, C2.
  - destruct (commit_keep _ _ Hd) as (_ & C2 & _).
    destruct HK as [H1 H2]. unfold tidyTrace.
    rewrite (commit_keep_eq _ _ Hd).
    destruct (sameValue _ _); split; assumption.
Qed.

Lemma reachable_tidyTrace (w : World) : reachable coerce w -> tidyTrace w.
Proof.
  induction 1 as [n|ev w Hr IH He Hm]; [split; reflexivity|].
  pose proof (reachable_inv coerce w Hr) as HI.
  pose proof (reachable_mounted coerce w Hr) as Hm0.
  destruct (step_alive coerce ev w Hm0 Hm) as (Hm1 & _ & ->).
  apply (commit_tidyTrace _ (closureOf (state w))).
  - apply (dispatch_mid coerce ev w HI He Hm0 Hm1).
  - now apply dispatch_tidyTrace.
Qed.

End Trace.

(** X10: the page never has two recurring tasks alive, not even in the
    middle of a handler. Replaying the browser calls of any world the page
    can reach, in the order they were made ([setInterval] adds a task,
    [clearInterval] removes one), at most one task is live before and after
    every single call, and the tasks live at the end are exactly the ones
    the browser holds. *)
Theorem X10_one_task_at_every_call (coerce : value -> float) (w : World) :
  reachable coerce w ->
  neverTwo [] (calls (page w)) = true /\
  fold_left replay (calls (page w)) [] = map handle (intervals (page w)).
Proof.
  intros Hr. destruct (reachable_tidyTrace coerce w Hr) as [H1 H2].
  split; assumption.
Qed.

Lemma X10_one_task_at_every_call_witness :
  neverTwo [] (calls (page (step noCoercion ResetAll (mount default)))) = true.
Proof.
  destruct (X10_one_task_at_every_call noCoercion
              (step noCoercion ResetAll (mount default))) as (H & _).
  - apply reachable_step;
      [apply (reachable_start _ (Some default))|reflexivity|reflexivity].
  - exact H.
Defined.

(** ** The colour of the water *)

(** X11: the fill colour follows the level. At a lower level the colour is
    at least as alarming as at a higher one (blue, then orange, then red),
    for any two numbers the comparison orders. *)
Theorem X11_colour_follows_level (x y : float) :
  (x <=? y) = true ->
  (severity (waterFillColor y) <= severity (waterFillColor x))%nat.
Proof.
  intros Hxy. unfold waterFillColor.
  destruct (y <? 30) eqn:Y1.
  - assert (X1 : (x <? 30) = true) by float_order. rewrite X1. cbn. lia.
  - destruct (y <? 60) eqn:Y2.
    + destruct (x <? 30) eqn:X1; [cbn; lia|].
      assert (X2 : (x <? 60) = true) by float_order. rewrite X2. cbn. lia.
    + destruct (x <? 30), (x <? 60); cbn; lia.
Qed.

Lemma X11_colour_follows_level_witness :
  (severity (waterFillColor 100) <= severity (waterFillColor 20))%nat.
Proof. apply (X11_colour_follows_level 20 100). reflexivity. Defined.

(** ** The cylinders of [Model] *)

(** X12: in [Model] the water cylinder is strictly wider than the body
    cylinder at the top and at the bottom, and the body is wider at the top
    than at the bottom, for every [bodyType]; a [bodyType] that is neither
    "slim" nor "muscular" is drawn with the generic radii. *)
Theorem X12_water_wraps_body (bodyType : string) :
  (Model_bodyRadiusTop bodyType <? Model_waterRadiusTop bodyType) = true /\
  (Model_bodyRadiusBottom bodyType <? Model_waterRadiusBottom bodyType) = true /\
  (Model_bodyRadiusBottom bodyType <? Model_bodyRadiusTop bodyType) = true /\
  (bodyType <> "slim" -> bodyType <> "muscular" ->
   Model_bodyRadiusTop bodyType = Model_bodyRadiusTop "generic" /\
   Model_bodyRadiusBottom bodyType = Model_bodyRadiusBottom "generic" /\
   Model_waterRadiusTop bodyType = Model_waterRadiusTop "generic" /\
   Model_waterRadiusBottom bodyType = Model_waterRadiusBottom "generic").
Proof.
  unfold Model_bodyRadiusTop, Model_bodyRadiusBottom, Model_waterRadiusTop,
    Model_waterRadiusBottom.
  destruct (String.eqb_spec bodyType "slim") as [->|H1];
    [split; [|split; [|split]]; try reflexivity; congruence|].
  destruct (String.eqb_spec bodyType "muscular") as [->|H2];
    [split; [|split; [|split]]; try reflexivity; congruence|].
  split; [|split; [|split]]; try reflexivity. intros _ _.
  split; [|split; [|split]]; reflexivity.
Qed.

(** ** Reading the response of the tip service *)

Section Responses.

Variable coerce : value -> float.

(** The response the page is written for: the first part of the first
    candidate can be read, and its [text] is what the tip becomes. *)
Lemma resume_first_text (w : World) (result first content part text : value)
  (candidates parts : list value) :
  arrayLength (first :: candidates) -> arrayLength (part :: parts) ->
  getProp result "candidates" = Normal (VArray (first :: candidates)) ->
  getProp first "content" = Normal content -> truthy content = true ->
  getProp content "parts" = Normal (VArray (part :: parts)) ->
  getProp part "text" = Normal text ->
  getHydrationTip_resume coerce (Response true (Some result)) w
  = setIsLoadingTip false (setHydrationTip text w).
Proof.
  intros L1 L2 H1 H2 H3 H4 H5.
  assert (G1 := greaterThanZero_length coerce value (first :: candidates)
                  ltac:(discriminate) L1).
  assert (G2 := greaterThanZero_length coerce value (part :: parts)
                  ltac:(discriminate) L2).
  unfold getHydrationTip_resume, tryTip, hasParts, firstText.
  cbn [negb]. rewrite H1. cbn [bind truthy negb getLength getFirst nth].
  rewrite G1. cbn [negb]. rewrite H2. cbn [bind]. rewrite H3. cbn [negb].
  rewrite H4. cbn [bind truthy negb getLength getFirst nth]. rewrite G2, H5.
  reflexivity.
Qed.

(** X13: on a mounted page, when the response is OK and its JSON has a
    non-empty [candidates] array whose first element has a truthy [content]
    with a non-empty [parts] array, the first part is neither [null] nor
    [undefined] (so that reading its [text] does not throw) and that [text]
    is a value React can render (a string, a number, a boolean, [null],
    [undefined] or an array of these; not an object), then the tip becomes
    this [text], whatever renderable value it is, loading ends, the page
    stays mounted, and nothing else happens: no message, no timeout, no
    browser call, and the interval is left alone. *)
Theorem X13_tip_is_first_text (w : World)
  (result first content part text : value) (candidates parts : list value) :
  mounted w = true ->
  arrayLength (first :: candidates) -> arrayLength (part :: parts) ->
  getProp result "candidates" = Normal (VArray (first :: candidates)) ->
  getProp first "content" = Normal content -> truthy content = true ->
  getProp content "parts" = Normal (VArray (part :: parts)) ->
  getProp part "text" = Normal text ->
  renderable text = true ->
  let w' := step coerce (TipArrives (Response true (Some result))) w in
  hydrationTip (state w') = text /\
  isLoadingTip (state w') = false /\
  mounted w' = true /\
  messageBox (state w') = messageBox (state w) /\
  timeouts (page w') = timeouts (page w) /\
  calls (page w') = calls (page w) /\
  intervals (page w') = intervals (page w) /\
  hydrationIntervalRef w' = hydrationIntervalRef w.
Proof.
  intros Hm L1 L2 H1 H2 H3 H4 H5 Hren. cbn zeta.
  pose proof (resume_first_text (setFetches (pred (fetches (page w))) w)
                result first content part text candidates parts
                L1 L2 H1 H2 H3 H4 H5) as E.
  rewrite (step_commit coerce _ w Hm); cbn [dispatch]; rewrite E.
  - set (w1 := setIsLoadingTip false _).
    destruct (commit_quiet (state w) w1 eq_refl eq_refl)
      as (Q1 & Q2 & Q3 & Q4 & Q5 & _).
    rewrite Q1, Q2, Q3, Q4, Q5, commit_mounted. repeat split. exact Hm.
  - exact Hm.
  - now apply renderFails_renderable.
Qed.

(** X14: a response that arrives with status OK and valid JSON is still
    reported as a network failure when reading it throws: the JSON is
    [null], the first candidate is [null], or the first part is [null]. The
    tip is the failure text and the transient message is shown. *)
Theorem X14_valid_json_taken_for_network_error (w : World)
  (result first content part : value) (candidates parts : list value) :
  arrayLength (first :: candidates) -> arrayLength (part :: parts) ->
  result = null \/
  (getProp result "candidates" = Normal (VArray (first :: candidates)) /\
   (first = null \/
    (getProp first "content" = Normal content /\ truthy content = true /\
     getProp content "parts" = Normal (VArray (part :: parts)) /\
     part = null))) ->
  let w' := getHydrationTip_resume coerce (Response true (Some result)) w in
  hydrationTip (state w')
  = VString "Failed to get a tip. Network error or API issue." /\
  messageBox (state w')
  = {| message := "Failed to get a tip. Please check your connection.";
       visible := true |} /\
  isLoadingTip (state w') = false.
Proof.
  intros L1 L2 H.
  assert (G1 := greaterThanZero_length coerce value (first :: candidates)
                  ltac:(discriminate) L1).
  assert (G2 := greaterThanZero_length coerce value (part :: parts)
                  ltac:(discriminate) L2).
  assert (T : tryTip coerce (Response true (Some result)) w = Throw).
  { unfold tryTip, hasParts, firstText. cbn [negb].
    destruct H as [->|[H1 [->|(H2 & H3 & H4 & ->)]]]; [reflexivity| |];
      rewrite H1; cbn [bind truthy negb getLength getFirst nth];
      rewrite G1; cbn [negb]; [reflexivity|].
    rewrite H2. cbn [bind]. rewrite H3. cbn [negb].
    rewrite H4. cbn [bind truthy negb getLength getFirst nth]. rewrite G2.
    reflexivity. }
  cbn zeta. unfold getHydrationTip_resume. rewrite T. repeat split.
Qed.

(** A value React cannot render is not the empty string. *)
Lemma unrenderable_new (text : value) :
  renderable text = false -> sameTip (VString "") text = false.
Proof. now destruct text. Qed.

(** X21: a tip that cannot be rendered takes the page down. In a world the
    page can reach, when the awaited response has the shape the page reads
    (as in X13) but the [text] of its first part is not a value React can
    render (an object, or an array that holds one), the tip is set to it,
    the render that follows throws, and React unmounts the page: the
    cleanup of the timer effect cancels the interval, so no tick follows. *)
Theorem X21_unrenderable_tip_unmounts (w : World)
  (result first content part text : value) (candidates parts : list value) :
  reachable coerce w ->
  enabled (TipArrives (Response true (Some result))) w = true ->
  arrayLength (first :: candidates) -> arrayLength (part :: parts) ->
  getProp result "candidates" = Normal (VArray (first :: candidates)) ->
  getProp first "content" = Normal content -> truthy content = true ->
  getProp content "parts" = Normal (VArray (part :: parts)) ->
  getProp part "text" = Normal text ->
  renderable text = false ->
  let w' := step coerce (TipArrives (Response true (Some result))) w in
  hydrationTip (state w') = text /\
  mounted w' = false /\
  intervals (page w') = [] /\
  (forall h, enabled (IntervalFires h) w' = false) /\
  calls (page w') = (calls (page w) ++ cancel (hydrationIntervalRef w))%list.
Proof.
  intros Hr He L1 L2 H1 H2 H3 H4 H5 Hren. cbn zeta.
  pose proof (reachable_mounted coerce w Hr) as Hm.
  pose proof (reachable_inv coerce w Hr) as [_ _ _ Ht _].
  pose proof (reachable_tipIdle coerce w Hr) as Hidle.
  unfold tipIdle in Hidle. cbn [enabled] in He.
  destruct (isLoadingTip (state w));
    [|rewrite Hidle in He; discriminate].
  destruct Hidle as [_ Htip].
  pose proof (resume_first_text (setFetches (pred (fetches (page w))) w)
                result first content part text candidates parts
                L1 L2 H1 H2 H3 H4 H5) as E.
  unfold step, rerender. rewrite Hm. cbn [dispatch negb]. rewrite E.
  set (w1 := setIsLoadingTip false _).
  assert (F : renderFails (state w) (state w1) = true).
  { unfold renderFails. rewrite Htip.
    change (hydrationTip (state w1)) with text.
    now rewrite (unrenderable_new text Hren), Hren. }
  assert (M1 : mounted w1 = true) by exact Hm.
  rewrite M1, F. cbn [negb].
  assert (Ht1 : TimerOk (closureOf (state w)) w1) by exact Ht.
  destruct (timerCleanup_spec _ _ Ht1) as (I & _ & _ & S & _).
  assert (I' : intervals (page (unmount w1)) = []) by exact I.
  split; [|split; [reflexivity|split; [exact I'|split]]].
  - change (state (unmount w1)) with (state (timerCleanup w1)).
    now rewrite S.
  - intros h. cbn [enabled]. unfold findInterval. now rewrite I'.
  - unfold unmount, timerCleanup.
    change (hydrationIntervalRef w1) with (hydrationIntervalRef w).
    destruct (hydrationIntervalRef w); cbn; [reflexivity|].
    now rewrite app_nil_r.
Qed.

End Responses.

Lemma X13_tip_is_first_text_witness :
  let w := step noCoercion GetTip (mount default) in
  let w' :=
    step noCoercion (TipArrives (Response true (Some geminiReply))) w in
  hydrationTip (state w') = VString "Sip often." /\ mounted w' = true.
Proof.
  cbn zeta.
  epose proof (X13_tip_is_first_text noCoercion
                 (step noCoercion GetTip (mount default))
                 geminiReply _ _ _ _ [] []
                 eq_refl eq_refl eq_refl eq_refl eq_refl eq_refl eq_refl
                 eq_refl eq_refl) as (H1 & _ & H2 & _).
  split; assumption.
Defined.

Lemma X14_valid_json_taken_for_network_error_witness :
  hydrationTip
    (state
       (getHydrationTip_resume noCoercion (Response true (Some nullCandidate))
          (step noCoercion GetTip (mount default))))
  = VString "Failed to get a tip. Network error or API issue.".
Proof.
  eapply (X14_valid_json_taken_for_network_error noCoercion _ nullCandidate
            null null null [] []); try reflexivity.
  right. split; [reflexivity|]. left. reflexivity.
Defined.

Lemma X21_unrenderable_tip_unmounts_witness :
  let w := step noCoercion GetTip (mount default) in
  let w' :=
    step noCoercion (TipArrives (Response true (Some objectTip))) w in
  mounted w' = false /\ intervals (page w') = [].
Proof.
  cbn zeta.
  assert (Hr : reachable noCoercion (step noCoercion GetTip (mount default))).
  { apply reachable_step;
      [apply (reachable_start _ (Some default))|reflexivity|reflexivity]. }
  epose proof (X21_unrenderable_tip_unmounts noCoercion
                 (step noCoercion GetTip (mount default))
                 objectTip _ _ _ _ [] []
                 Hr eq_refl eq_refl eq_refl eq_refl eq_refl eq_refl eq_refl
                 eq_refl eq_refl) as (_ & H1 & H2 & _).
  split; assumption.
Defined.
(** ** Drink Now and Reset All *)

(** X15: "Drink Now", in any world the page can reach, refills the level
    to 100 and leaves the duration and the reminder settings alone; the one
    live task is a new one that ticks with these, the message "Hydration
    reset! Drink up!" is shown with a 2000 ms dismissal pending, and the
    water is drawn blue. *)
Theorem X15_drink_now (coerce : value -> float) (w : World) :
  reachable coerce w ->
  let w' := step coerce DrinkNow w in
  currentWaterLevel (state w') = 100 /\
  timerDuration (state w') = timerDuration (state w) /\
  reminderSettings (state w') = reminderSettings (state w) /\
  intervals (page w')
  = [{| handle := nextTimerId (page w); callback := closureOf (state w) |}] /\
  hydrationIntervalRef w' = Some (nextTimerId (page w)) /\
  messageBox (state w')
  = {| message := "Hydration reset! Drink up!"; visible := true |} /\
  timeouts (page w') = (timeouts (page w) ++ [HideMessage 2000])%list /\
  waterFillBackground (page w') = "#60a5fa".
Proof.
  intros Hr. cbn zeta.
  pose proof (reachable_mounted coerce w Hr) as Hm.
  assert (Hs : step coerce DrinkNow w
               = commit (state w) (dispatch coerce DrinkNow w))
    by (apply (step_event coerce _ w Hm); intros ? ?; discriminate).
  assert (Hr' : reachable coerce (step coerce DrinkNow w)).
  { apply reachable_step; [assumption|reflexivity|].
    rewrite Hs, commit_mounted.
    now rewrite (proj1 (dispatch_mounted coerce DrinkNow w
                          ltac:(intros ? ?; discriminate))). }
  pose proof (inv_color _ (reachable_inv coerce _ Hr')) as Hc.
  pose proof (inv_timer _ (reachable_inv coerce w Hr)) as Ht.
  revert Hc. rewrite Hs. cbn [dispatch]. unfold resetHydration.
  destruct (startHydrationTimer_spec (closureOf (state w))
              (setCurrentWaterLevel 100 w)) as (S1 & S2 & S3 & S4 & S5).
  { intros i Hi. unfold TimerOk in Ht. cbn in *.
    destruct (intervals (page w)) as [|j [|k l]]; try easy.
    destruct Hi as [<-|[]]. apply Ht. }
  remember (startHydrationTimer (closureOf (state w))
              (setCurrentWaterLevel 100 w)) as w1 eqn:E1.
  destruct (commit_quiet (state w) (showMessage "Hydration reset! Drink up!" 2000 w1))
    as (C1 & C2 & C3 & C4 & _).
  { cbn. now rewrite S4. }
  { cbn. now rewrite S4. }
  intros Hc. rewrite Hc, C1, C2, C3, C4. cbn. rewrite S1, S2, S4. cbn.
  repeat split.
  subst w1. unfold startHydrationTimer.
  destruct w as [s [h|] [? ? ? ? ? ? ? ? ? ?] ?]; reflexivity.
Qed.

Lemma X15_drink_now_witness :
  currentWaterLevel (state (step noCoercion DrinkNow (mount default))) = 100.
Proof.
  destruct (X15_drink_now noCoercion (mount default)) as (H & _).
  - apply (reachable_start _ (Some default)).
  - exact H.
Defined.

(** X16: "Reset All" calls [resetHydration], which shows "Hydration reset!
    Drink up!", and then shows its own message in the same handler: what the
    page displays afterwards is "All settings reset!", and both 2000 ms
    dismissals are pending. *)
Theorem X16_reset_all_message (coerce : value -> float) (w : World) :
  let w' := step coerce ResetAll w in
  messageBox (state w')
  = {| message := "All settings reset!"; visible := true |} /\
  timeouts (page w')
  = (timeouts (page w) ++ [HideMessage 2000; HideMessage 2000])%list.
Proof.
  cbn zeta. rewrite step_state.
  destruct (step_frame coerce ResetAll w) as (-> & _).
  cbn [dispatch]. unfold resetAll, resetHydration, startHydrationTimer.
  destruct w as [s [h|] [? ? ? ? ? ? ? ? ? ?] ?]; cbn;
    rewrite <- app_assoc; split; reflexivity.
Qed.

(** ** The tick where the reminder can be sent, and where it cannot *)

(** X17: a tick of the live interval, in a world the page can reach, where
    [sendBrowserNotification] does not throw (the browser has the
    Notification API, or the browser reminder is off). With duration [D]
    the level decreases by exactly [100 / (D * 60)]; if the decremented
    value is [<= 0] the level is set to 0, the recurring task is cancelled
    and the interval handle becomes null, the reminder dispatcher runs (a
    notification if that channel is on and permitted, the sound if on, the
    flash if on) and the message "Time to drink water!" is shown. The page
    stays mounted. *)
Theorem X17_tick_completes (coerce : value -> float) (w : World)
  (h : positive) :
  reachable coerce w ->
  notificationInWindow (page w) = true
  \/ browser (reminderSettings (state w)) = false ->
  enabled (IntervalFires h) w = true ->
  let D := timerDuration (state w) in
  let newLevel := currentWaterLevel (state w) - 100 / (D * 60) in
  let w' := step coerce (IntervalFires h) w in
  mounted w' = true /\
  hydrationIntervalRef w = Some h /\
  if newLevel <=? 0 then
    currentWaterLevel (state w') = 0 /\
    hydrationIntervalRef w' = None /\
    intervals (page w') = [] /\
    messageBox (state w')
    = {| message := "Time to drink water!"; visible := true |} /\
    calls (page w')
    = (calls (page w) ++ ClearInterval h
         :: reminderCalls (reminderSettings (state w)) (permission (page w)))%list /\
    timeouts (page w')
    = (timeouts (page w) ++ reminderTimeouts (reminderSettings (state w))
         ++ [HideMessage 5000])%list /\
    (visual (reminderSettings (state w)) = true ->
     bodyContainerFlash (page w') = true)
  else
    currentWaterLevel (state w') = newLevel /\
    hydrationIntervalRef w' = hydrationIntervalRef w /\
    intervals (page w') = intervals (page w) /\
    messageBox (state w') = messageBox (state w) /\
    calls (page w') = calls (page w) /\
    timeouts (page w') = timeouts (page w).
Proof.
  intros Hr Hapi He.
  pose proof (reachable_inv coerce w Hr) as HI.
  pose proof (reachable_mounted coerce w Hr) as Hm.
  split; [|now apply tick_effects].
  destruct (tick_commit coerce (closureOf (state w)) w h (inv_timer _ HI) Hm
              Hapi He) as (i & Hf & ->).
  rewrite commit_mounted. cbn [dispatch]. rewrite Hf.
  destruct (findInterval_inv _ _ _ _ (inv_timer _ HI) Hf)
    as (_ & _ & Hcb & _).
  rewrite Hcb.
  apply (decrementWaterLevel_empty_mounted (closureOf (state w)) w Hm Hapi).
Qed.

Lemma X17_tick_completes_witness :
  let w := mount default in
  reachable noCoercion w /\
  enabled (IntervalFires 1) w = true /\
  currentWaterLevel (state (step noCoercion (IntervalFires 1) w))
  = 100 - 100 / (60 * 60).
Proof.
  cbn zeta. split; [apply (reachable_start _ (Some default))|].
  split; [reflexivity|].
  pose proof (X17_tick_completes noCoercion (mount default) 1
                (reachable_start _ (Some default)) (or_introl eq_refl)
                eq_refl) as H.
  cbn zeta in H. destruct H as (_ & _ & H).
  change (currentWaterLevel (state (mount default))) with 100 in H.
  change (timerDuration (state (mount default))) with 60 in H.
  replace (100 - 100 / (60 * 60) <=? 0) with false in H
    by (vm_compute; reflexivity).
  exact (proj1 H).
Defined.

(** X20: the tick that throws. In a world the page can reach, in a browser
    without the Notification API and with the browser reminder checked, a
    tick whose decremented value is [<= 0] cancels the recurring task and
    resets the handle; then [sendBrowserNotification] reads
    [Notification.permission] and throws. Nothing after it in the state
    updater runs: no sound, no flash, no message, and the level keeps its
    value instead of becoming 0. The exception leaves the updater uncaught,
    so React unmounts the page. *)
Theorem X20_tick_throws (coerce : value -> float) (w : World) (h : positive) :
  reachable coerce w ->
  notificationInWindow (page w) = false ->
  browser (reminderSettings (state w)) = true ->
  enabled (IntervalFires h) w = true ->
  (currentWaterLevel (state w) - 100 / (timerDuration (state w) * 60) <=? 0)
  = true ->
  let w' := step coerce (IntervalFires h) w in
  mounted w' = false /\
  state w' = state w /\
  intervals (page w') = [] /\
  hydrationIntervalRef w' = None /\
  calls (page w') = (calls (page w) ++ [ClearInterval h])%list /\
  timeouts (page w') = timeouts (page w) /\
  bodyContainerFlash (page w') = bodyContainerFlash (page w) /\
  plays (page w') = plays (page w).
Proof.
  intros Hr Hn Hb He E.
  apply tick_aborted; try assumption.
  - exact (reachable_inv coerce w Hr).
  - exact (reachable_mounted coerce w Hr).
Qed.

Lemma X20_tick_throws_witness :
  let w' := step noCoercion (IntervalFires 5) unsupportedEmpty in
  mounted w' = false /\ messageBox (state w') = messageBox (state unsupportedEmpty).
Proof.
  cbn zeta.
  destruct (X20_tick_throws noCoercion unsupportedEmpty 5
              unsupportedEmpty_reachable)
    as (H1 & H2 & _); try (vm_compute; reflexivity).
  split; [exact H1|now rewrite H2].
Defined.

(** X18: for every whole duration [D] from 30 to 240 minutes, a body that
    starts at 100 on a mounted page with the interval running and nothing
    else happening, where [sendBrowserNotification] does not throw (the
    browser has the Notification API, or the interval runs with the browser
    reminder off), is emptied by ticks alone: every tick strictly lowers
    the level, the level is positive before the last tick and exactly 0
    after it, never negative, and the last tick is tick number [D * 60] or
    [D * 60 + 1] (in binary64 the sum of the decrements can fall just short
    of 100); that tick stops the interval. *)
Theorem X18_depletion (coerce : value -> float) (z : Z) (w : World)
  (i : Interval) :
  (30 <= z <= 240)%Z ->
  mounted w = true ->
  notificationInWindow (page w) = true
  \/ browser (cl_reminderSettings (callback i)) = false ->
  currentWaterLevel (state w) = 100 ->
  intervals (page w) = [i] ->
  hydrationIntervalRef w = Some (handle i) ->
  (handle i < nextTimerId (page w))%positive ->
  cl_timerDuration (callback i) = of_Z z ->
  exists N : nat,
    (Z.of_nat N = 60 * z \/ Z.of_nat N = 60 * z + 1)%Z /\
    (forall k : nat, (k < N)%nat ->
       let wk := ticks coerce (handle i) k w in
       enabled (IntervalFires (handle i)) wk = true /\
       (0 <? currentWaterLevel (state wk)) = true /\
       (currentWaterLevel (state (ticks coerce (handle i) (S k) w))
        <? currentWaterLevel (state wk)) = true) /\
    currentWaterLevel (state (ticks coerce (handle i) N w)) = 0 /\
    intervals (page (ticks coerce (handle i) N w)) = [] /\
    hydrationIntervalRef (ticks coerce (handle i) N w) = None.
Proof.
  intros Hz Hm Hapi Hfull Hi Hr Hlt HD.
  set (h := handle i) in *. set (cl := callback i) in *.
  set (dec := 100 / (cl_timerDuration cl * 60)).
  assert (Ht : TimerOk cl w) by (unfold TimerOk; rewrite Hi; auto).
  assert (He : enabled (IntervalFires h) w = true).
  { cbn. unfold findInterval. rewrite Hi. cbn. fold h. now rewrite Pos.eqb_refl. }
  (* the checked run *)
  pose proof all_minutes_on_time as Hall. rewrite forallb_forall in Hall.
  specialize (Hall z (minutes_range z Hz)). unfold emptiesOnTime in Hall.
  rewrite <- HD in Hall. fold dec in Hall.
  destruct (ticksToEmpty _ dec 100 0) as [N|] eqn:Hrun; [|discriminate].
  apply ticksToEmpty_sound in Hrun as (n & -> & Hrun & Hend).
  apply orb_prop in Hall. rewrite !Z.eqb_eq in Hall.
  rewrite <- Hfull in Hrun, Hend.
  (* the world after [k <= n] ticks *)
  assert (Hk : forall k, (k <= n)%nat ->
            let wk := ticks coerce h k w in
            currentWaterLevel (state wk)
            = drained dec (currentWaterLevel (state w)) k /\
            TimerOk cl wk /\ enabled (IntervalFires h) wk = true /\
            (0 <? currentWaterLevel (state wk)) = true /\
            mounted wk = true /\
            notification (page wk) = notification (page w)).
  { intros k Hkn.
    destruct (ticks_drained coerce cl h k w Ht Hm Hapi He)
      as (L & T & E & M & P).
    { intros j Hj. apply Hrun. lia. }
    cbn zeta. repeat split; try assumption. rewrite L.
    destruct k as [|k]; [cbn; now rewrite Hfull|].
    destruct (Hrun k) as [H1 H2]; [lia|].
    exact (positive_of_descent _ _ H2 H1). }
  (* the last tick *)
  destruct (Hk n (Nat.le_refl n)) as (Ln & Tn & En & Pn & Mn & Nn).
  assert (Hapi' : notificationInWindow (page (ticks coerce h n w)) = true
                  \/ browser (cl_reminderSettings cl) = false).
  { unfold notificationInWindow in *. now rewrite Nn. }
  destruct (tick_cases coerce cl (ticks coerce h n w) h Tn Mn Hapi' En)
    as [(C & L0 & R0 & I0)|(C & _)];
    [|fold dec in C; rewrite Ln, <- drained_S, Hend in C; discriminate].
  exists (S n). split; [exact Hall|]. split; [|cbn [ticks]; auto].
  intros k Hkn. cbn zeta.
  destruct (Hk k) as (Lk & Tk & Ek & Pk & _); [lia|].
  split; [assumption|]. split; [assumption|].
  destruct (Nat.eq_dec k n) as [->|Hne].
  - cbn [ticks]. now rewrite L0.
  - destruct (Hk (S k)) as (Lk' & _); [lia|]. rewrite Lk', Lk.
    apply Hrun. lia.
Qed.

Lemma X18_depletion_witness :
  let w := step noCoercion (TimerChange "30") (mount default) in
  exists N : nat,
    (Z.of_nat N = 1800 \/ Z.of_nat N = 1801)%Z /\
    currentWaterLevel (state (ticks noCoercion 2 N w)) = 0.
Proof.
  cbn zeta.
  destruct (X18_depletion noCoercion 30
              (step noCoercion (TimerChange "30") (mount default))
              {| handle := 2;
                 callback :=
                   {| cl_timerDuration := 30;
                      cl_reminderSettings :=
                        {| browser := false; sound := false;
                           visual := false |} |} |})
    as (N & HN & _ & H0 & _);
    try reflexivity; [lia|now left|].
  exists N. split; assumption.
Defined.

(** X19: the "empty" signal is not once per depletion. In a world the page
    can reach where [sendBrowserNotification] does not throw (the browser
    has the Notification API, or the browser reminder is off), whenever the
    interval fires while the level already is 0 (changing the duration
    after the body emptied restarts the interval without refilling), the
    decremented value [0 - 100 / (D * 60)] is [<= 0], so the tick runs the
    reminders and shows "Time to drink water!" again, sets the level to 0
    again and stops the interval. *)
Theorem X19_empty_again (coerce : value -> float) (w : World) (h : positive) :
  reachable coerce w ->
  notificationInWindow (page w) = true
  \/ browser (reminderSettings (state w)) = false ->
  currentWaterLevel (state w) = 0 ->
  enabled (IntervalFires h) w = true ->
  let D := timerDuration (state w) in
  let w' := step coerce (IntervalFires h) w in
  (0 - 100 / (D * 60) <=? 0) = true /\
  currentWaterLevel (state w') = 0 /\
  messageBox (state w')
  = {| message := "Time to drink water!"; visible := true |} /\
  calls (page w')
  = (calls (page w) ++ ClearInterval h
       :: reminderCalls (reminderSettings (state w)) (permission (page w)))%list /\
  timeouts (page w')
  = (timeouts (page w) ++ reminderTimeouts (reminderSettings (state w))
       ++ [HideMessage 5000])%list /\
  (visual (reminderSettings (state w)) = true ->
   bodyContainerFlash (page w') = true) /\
  intervals (page w') = [] /\
  hydrationIntervalRef w' = None.
Proof.
  intros Hr Hapi H0 He D w'.
  pose proof (reachable_inv coerce w Hr) as HI.
  pose proof (reachable_mounted coerce w Hr) as Hm.
  pose proof (empty_stays_empty _ (inv_duration _ HI)) as Hle. fold D in Hle.
  destruct (tick_effects coerce w h HI Hm Hapi He) as [_ H].
  cbn zeta in H. fold D w' in H. rewrite H0, Hle in H.
  destruct H as (L & R & I & M & C & T & F). auto 10.
Qed.

Lemma X19_empty_again_witness :
  reachable noCoercion retimedWorld /\
  currentWaterLevel (state retimedWorld) = 0 /\
  enabled (IntervalFires 5) retimedWorld = true /\
  calls (page (step noCoercion (IntervalFires 5) retimedWorld))
  = (calls (page retimedWorld) ++ [ClearInterval 5; AudioPlay])%list.
Proof.
  split; [exact retimedWorld_reachable|].
  split; [vm_compute; reflexivity|]. split; [vm_compute; reflexivity|].
  assert (H0 : currentWaterLevel (state retimedWorld) = 0)
    by (vm_compute; reflexivity).
  assert (He : enabled (IntervalFires 5) retimedWorld = true)
    by (vm_compute; reflexivity).
  assert (Hapi : notificationInWindow (page retimedWorld) = true
                 \/ browser (reminderSettings (state retimedWorld)) = false)
    by (left; vm_compute; reflexivity).
  destruct (X19_empty_again noCoercion retimedWorld 5 retimedWorld_reachable
              Hapi H0 He) as (_ & _ & _ & C & _).
  rewrite C. vm_compute. reflexivity.
Defined.
(** ** The promise of [play()] *)

(** X22: when the promise of [play()] is rejected (the browser refuses to
    play without a user gesture, or cannot decode the sound), the error is
    written to the console and nothing else changes: neither the state nor
    the interval nor the pending timeouts. When it is fulfilled nothing is
    written at all. *)
Theorem X22_play_rejected (coerce : value -> float) (w : World)
  (rejected : bool) :
  let w' := step coerce (PlaySettles rejected) w in
  calls (page w')
  = (calls (page w) ++ if rejected then [ConsoleError] else [])%list /\
  state w' = state w /\
  intervals (page w') = intervals (page w) /\
  hydrationIntervalRef w' = hydrationIntervalRef w /\
  timeouts (page w') = timeouts (page w) /\
  plays (page w') = pred (plays (page w)).
Proof.
  cbn zeta. rewrite step_any by (intros ? ?; discriminate).
  cbn [dispatch].
  set (w1 := if rejected then _ else _).
  assert (H : calls (page w1)
              = (calls (page w) ++ if rejected then [ConsoleError] else [])%list
              /\ state w1 = state w
              /\ intervals (page w1) = intervals (page w)
              /\ hydrationIntervalRef w1 = hydrationIntervalRef w
              /\ timeouts (page w1) = timeouts (page w)
              /\ plays (page w1) = pred (plays (page w))).
  { subst w1. destruct rejected; cbn; rewrite ?app_nil_r; repeat split. }
  destruct H as (H1 & H2 & H3 & H4 & H5 & H6).
  destruct (mounted w); [|repeat split; assumption].
  destruct (commit_quiet (state w) w1) as (Q1 & Q2 & Q3 & Q4 & Q5 & _);
    [now rewrite H2|now rewrite H2|].
  destruct (step_frame coerce (PlaySettles rejected) w)
    as (_ & _ & _ & _ & _ & P).
  rewrite Q1, Q2, Q3, Q4, Q5. repeat split; try assumption.
  unfold commit, timerCleanup, startHydrationTimer.
  rewrite <- H6.
  destruct (timerDepsChanged _ _), (sameValue _ _), w1 as [s [h|] b m];
    reflexivity.
Qed.
(** ** The tip on a mounted page *)


